(** * todo-vanilla: the task collection engine of [src/app.js]

    A shallow embedding of the logic of the browser to-do list
    ([loadTasks], [saveTasks], [addTask], [updateTask], [deleteTask],
    [reindexOrder], [getFilteredSortedTasks] and the event handlers that
    call them), followed by the properties of the specification.

    Conventions of the embedding.
    - JavaScript numbers are modelled by [Z]: every [order] the program
      assigns is an array index or [Math.max(...) + 1] of earlier ones.
      The one addition of the program, that [+ 1], is the addition of
      doubles: the exact sum rounded to 53 significant bits ([JS.add]).
      The subtractions are those of the comparators, which [sort] uses
      through their sign only; rounding keeps the sign.
      Fractional or non-finite numbers in hand-edited storage are outside
      the model.
    - Strings are [string]: the UTF-8 bytes of the text. [trim] removes
      the white space and the line terminators of ECMAScript, also those
      beyond the ASCII range; [toLowerCase] lowers the ASCII letters.
    - [JSON.stringify], [JSON.parse], date parsing and [toISOString] are
      host built-ins: they are the fields of the class [Host].
    - [localStorage] is a single cell that accepts every write.
    - The second variant of the program ([src/unnamed/part_000]) has the
      same [loadTasks], [saveTasks], [addTask], [deleteTask],
      [reindexOrder] and comparators; its [updateTask] always re-renders
      and its [switch] reaches manual order through [default]. *)

From Stdlib Require Import ZArith List String Ascii Bool Lia Arith.
From Stdlib Require Import Permutation Sorted DecimalString.
From Stdlib Require Import NArith Nnat.
Import ListNotations.

Set Warnings "-register-all".
Local Open Scope string_scope.
Local Open Scope Z_scope.

(* ================================================================= *)
(** ** JavaScript values and the built-ins the program calls *)

Module JS.

(** Values that [JSON.parse] can return. *)
Inductive JSON : Type :=
| JNull
| JBool (b : bool)
| JNum (n : Z)
| JStr (s : string)
| JArr (items : list JSON)
| JObj (props : list (string * JSON)).

(** Outcome of an evaluation that may throw. *)
Inductive Res (A : Type) : Type :=
| Ok (a : A)
| Throw.
Arguments Ok {A} a.
Arguments Throw {A}.

(** The result of a numeric expression such as [da - db]. *)
Inductive Number : Type :=
| Fin (z : Z)
| PInf
| NInf
| NaN.

(** [a - b] on numbers. *)
Definition sub (a b : Number) : Number :=
  match a, b with
  | NaN, _ | _, NaN => NaN
  | Fin x, Fin y => Fin (x - y)
  | Fin _, PInf => NInf
  | Fin _, NInf => PInf
  | PInf, PInf => NaN
  | PInf, _ => PInf
  | NInf, NInf => NaN
  | NInf, _ => NInf
  end.

(** [v > 0]; a [NaN] compares false. *)
Definition positive (v : Number) : bool :=
  match v with
  | Fin z => 0 <? z
  | PInf => true
  | NInf | NaN => false
  end.

(** [v < 0]; a [NaN] compares false. *)
Definition negative (v : Number) : bool :=
  match v with
  | Fin z => z <? 0
  | NInf => true
  | PInf | NaN => false
  end.

(** The double nearest to the integer [z]. An integer of magnitude at
    most 2^53 is a double; a larger one is rounded to 53 significant
    bits, to the even significand when two doubles are as near. *)
Definition toDouble (z : Z) : Z :=
  let e := Z.log2 (Z.abs z) - 52 in
  if e <=? 0 then z
  else
    let u := 2 ^ e in
    let q := z / u in
    let r := z mod u in
    if 2 * r <? u then q * u
    else if u <? 2 * r then (q + 1) * u
    else if Z.even q then q * u else (q + 1) * u.

(** [a + b] on numbers that are integers. Sums beyond the largest double
    are outside the model. *)
Definition add (a b : Z) : Z := toDouble (a + b).

(** ToBoolean of a value read from a parsed object ([None] is
    [undefined]). *)
Definition truthy (v : option JSON) : bool :=
  match v with
  | None | Some JNull => false
  | Some (JBool b) => b
  | Some (JNum n) => negb (n =? 0)
  | Some (JStr s) => negb (String.eqb s "")
  | Some (JArr _) | Some (JObj _) => true
  end.

Fixpoint assoc (k : string) (props : list (string * JSON)) : option JSON :=
  match props with
  | [] => None
  | (k', v) :: rest => if String.eqb k k' then Some v else assoc k rest
  end.

Definition hasOwn (k : string) (props : list (string * JSON)) : bool :=
  match assoc k props with Some _ => true | None => false end.

(** [t.k] for the property names the program reads ([id], [title], [due],
    [completed], [createdAt], [order]): none of them is on a prototype, so
    the result is the own property of an object and [undefined] on every
    other value; reading a property of [null] throws a TypeError. *)
Definition getProp (t : JSON) (k : string) : Res (option JSON) :=
  match t with
  | JNull => Throw
  | JObj props => Ok (assoc k props)
  | _ => Ok None
  end.

Definition string_of_Z (n : Z) : string :=
  NilZero.string_of_int (Z.to_int n).

Fixpoint join (sep : string) (l : list string) : string :=
  match l with
  | [] => ""
  | [s] => s
  | s :: rest => s ++ sep ++ join sep rest
  end.

(** Sequence the results of conversions that may throw. *)
Fixpoint sequence {A} (l : list (option A)) : option (list A) :=
  match l with
  | [] => Some []
  | None :: _ => None
  | Some a :: rest =>
      match sequence rest with Some r => Some (a :: r) | None => None end
  end.

(** [String(v)]. An array is joined with commas, [null] elements giving
    the empty string. A parsed object has no callable [toString] of its
    own: if it has an own property of that name the conversion throws,
    otherwise [Object.prototype.toString] answers. [None] is the thrown
    TypeError. *)
Fixpoint ToString (v : JSON) : option string :=
  match v with
  | JNull => Some "null"
  | JBool true => Some "true"
  | JBool false => Some "false"
  | JNum n => Some (string_of_Z n)
  | JStr s => Some s
  | JArr items =>
      option_map (join ",")
        (sequence (map (fun e => match e with
                                 | JNull => Some ""
                                 | _ => ToString e
                                 end) items))
  | JObj props =>
      if hasOwn "toString" props then None else Some "[object Object]"
  end.

(** *** Strings *)

(** The string of the given bytes. *)
Definition bytes (codes : list nat) : string :=
  fold_right (fun n s => String (ascii_of_nat n) s) EmptyString codes.

(** The white space and the line terminators of ECMAScript in UTF-8:
    U+0009 to U+000D, U+0020, U+00A0, U+1680, U+2000 to U+200A, U+2028,
    U+2029, U+202F, U+205F, U+3000 and U+FEFF. *)
Definition whiteSpace : list string :=
  map bytes
    [[9]; [10]; [11]; [12]; [13]; [32]; [194; 160]; [225; 154; 128];
     [226; 128; 128]; [226; 128; 129]; [226; 128; 130]; [226; 128; 131];
     [226; 128; 132]; [226; 128; 133]; [226; 128; 134]; [226; 128; 135];
     [226; 128; 136]; [226; 128; 137]; [226; 128; 138]; [226; 128; 168];
     [226; 128; 169]; [226; 128; 175]; [226; 129; 159]; [227; 128; 128];
     [239; 187; 191]]%nat.

(** [s] without its prefix [p], when it begins with [p]. *)
Fixpoint dropPrefix (p s : string) : option string :=
  match p, s with
  | EmptyString, _ => Some s
  | String a p', String b s' => if Ascii.eqb a b then dropPrefix p' s' else None
  | String _ _, EmptyString => None
  end.

(** [s] without the first of [ps] it begins with. *)
Fixpoint dropFirst (ps : list string) (s : string) : option string :=
  match ps with
  | [] => None
  | p :: rest =>
      match dropPrefix p s with
      | Some r => Some r
      | None => dropFirst rest s
      end
  end.

(** Drops the strings of [ws] from the front of [s] as long as it begins
    with one; [fuel] bounds the number dropped. *)
Fixpoint strip (ws : list string) (fuel : nat) (s : string) : string :=
  match fuel with
  | O => s
  | S fuel' =>
      match dropFirst ws s with
      | Some r => strip ws fuel' r
      | None => s
      end
  end.

Fixpoint reverse (s : string) : string :=
  match s with
  | EmptyString => EmptyString
  | String c rest => reverse rest ++ String c EmptyString
  end.

Definition trimStart (s : string) : string :=
  strip whiteSpace (String.length s) s.

(** Drops the trailing white space: the leading white space of the text
    read backwards. *)
Definition trimEnd (s : string) : string :=
  reverse (strip (map reverse whiteSpace) (String.length s) (reverse s)).

(** [s.trim()]. *)
Definition trim (s : string) : string := trimEnd (trimStart s).

Definition lowerChar (c : ascii) : ascii :=
  let n := nat_of_ascii c in
  if ((65 <=? n) && (n <=? 90))%nat then ascii_of_nat (n + 32) else c.

(** [s.toLowerCase()]. *)
Fixpoint toLowerCase (s : string) : string :=
  match s with
  | EmptyString => EmptyString
  | String c rest => String (lowerChar c) (toLowerCase rest)
  end.

Fixpoint startsWith (p s : string) : bool :=
  match p, s with
  | EmptyString, _ => true
  | String a p', String b s' => Ascii.eqb a b && startsWith p' s'
  | String _ _, EmptyString => false
  end.

(** [s.includes(p)]. *)
Fixpoint includes (s p : string) : bool :=
  startsWith p s ||
  match s with
  | EmptyString => false
  | String _ rest => includes rest p
  end.

(** [s.slice(n)] for [n >= 0]. *)
Fixpoint slice (n : nat) (s : string) : string :=
  match n, s with
  | O, _ => s
  | S n', String _ rest => slice n' rest
  | S _, EmptyString => EmptyString
  end.

Definition digit36 (d : N) : ascii :=
  if (d <? 10)%N then ascii_of_N (48 + d) else ascii_of_N (87 + d).

Fixpoint digits36 (fuel : nat) (n : N) (acc : string) : string :=
  match fuel with
  | O => acc
  | S fuel' =>
      let acc' := String (digit36 (n mod 36)) acc in
      if (n / 36 =? 0)%N then acc' else digits36 fuel' (n / 36) acc'
  end.

(** [n.toString(36)] for an integer [n]. *)
Definition toString36 (n : Z) : string :=
  let m := Z.to_N (Z.abs n) in
  let body := digits36 (S (N.to_nat (N.log2 m))) m "" in
  if n <? 0 then "-" ++ body else body.

(** *** Arrays *)

Section Arrays.
Context {A : Type}.

(** [l.findIndex(p)], [None] for -1. *)
Fixpoint findIndex (p : A -> bool) (l : list A) : option nat :=
  match l with
  | [] => None
  | x :: rest =>
      if p x then Some O
      else match findIndex p rest with
           | Some i => Some (S i)
           | None => None
           end
  end.

Fixpoint mapi_from (i : nat) {B} (f : A -> nat -> B) (l : list A) : list B :=
  match l with
  | [] => []
  | x :: rest => f x i :: mapi_from (S i) f rest
  end.

(** [l.map((x, i) => f(x, i))]. *)
Definition mapi {B} (f : A -> nat -> B) (l : list A) : list B :=
  mapi_from 0 f l.

(** [l[i] = v] for an index inside the array. *)
Fixpoint setAt (i : nat) (v : A) (l : list A) : list A :=
  match l, i with
  | [], _ => []
  | _ :: rest, O => v :: rest
  | x :: rest, S i' => x :: setAt i' v rest
  end.

Variable cmp : A -> A -> Number.

(** Places [x] in front of the first element it does not sort after. *)
Fixpoint insert (x : A) (sorted : list A) : list A :=
  match sorted with
  | [] => [x]
  | y :: rest =>
      if positive (cmp x y) then y :: insert x rest else x :: y :: rest
  end.

(** [l.sort(cmp)]: the sort is stable, and a comparator result that is
    [NaN] counts as zero. For a consistent comparator every conforming
    engine returns this list. *)
Fixpoint sort (l : list A) : list A :=
  match l with
  | [] => []
  | x :: rest => insert x (sort rest)
  end.
End Arrays.

End JS.

Import JS.

(* ================================================================= *)
(** ** The host: built-ins that are not code of the program *)

Class Host : Type := {
  (** [JSON.stringify(v)] *)
  JSON_stringify : JSON -> string;
  (** [JSON.parse(s)]; [None] is the thrown SyntaxError. *)
  JSON_parse : string -> option JSON;
  (** [new Date(s).getTime()] in milliseconds; [None] is [NaN]. *)
  Date_getTime : string -> option Z;
  (** [new Date(ms).toISOString()] *)
  Date_toISOString : Z -> string
}.

(* ================================================================= *)
(** ** Data *)

(** A task, [{id, title, due, completed, createdAt, order}]. An absent due
    date is the empty string. *)
Record Task : Type := mkTask {
  id : string;
  title : string;
  due : string;
  completed : bool;
  createdAt : string;
  order : Z
}.

Definition set_order (t : Task) (i : Z) : Task :=
  mkTask (id t) (title t) (due t) (completed t) (createdAt t) i.

(** A record as [loadTasks] builds it: [id], [due] and [createdAt] are
    whatever truthy value the stored record held. *)
Module Loaded.
Record t : Type := mk {
  id : JSON;
  title : string;
  due : JSON;
  completed : bool;
  createdAt : JSON;
  order : Z
}.
End Loaded.

(** The record [loadTasks] builds from a stored task of the program. *)
Definition asLoaded (t : Task) : Loaded.t :=
  Loaded.mk (JStr (id t)) (title t) (JStr (due t)) (completed t)
            (JStr (createdAt t)) (order t).

(** The value [JSON.stringify] receives for a task. *)
Definition taskJSON (t : Task) : JSON :=
  JObj [("id", JStr (id t)); ("title", JStr (title t)); ("due", JStr (due t));
        ("completed", JBool (completed t)); ("createdAt", JStr (createdAt t));
        ("order", JNum (order t))].

Definition tasksJSON (ts : list Task) : JSON := JArr (map taskJSON ts).

(** The object literal passed to [updateTask]: the properties it has. *)
Record Patch : Type := mkPatch {
  p_id : option string;
  p_title : option string;
  p_due : option string;
  p_completed : option bool;
  p_createdAt : option string;
  p_order : option Z
}.

Definition emptyPatch : Patch := mkPatch None None None None None None.

Definition over {A} (new : option A) (old : A) : A :=
  match new with Some v => v | None => old end.

(** [{ ...t, ...patch }] *)
Definition spread (t : Task) (p : Patch) : Task :=
  mkTask (over (p_id p) (id t)) (over (p_title p) (title t))
         (over (p_due p) (due t)) (over (p_completed p) (completed t))
         (over (p_createdAt p) (createdAt t)) (over (p_order p) (order t)).

(** The module variable [state]. *)
Module state.
Record t : Type := mk {
  search : string;
  filter : string;
  sort : string
}.
End state.

(** Calls into the page that the logic makes. *)
Inductive UICall : Type :=
| FocusTitleInput
| FocusEditInput
| RenderList
| ReplaceItem.

(** Everything the program reads and writes: the module variables [tasks]
    and [state], the storage cell under [LS_KEY], the successive results of
    [Math.random().toString(36)] and of reading the clock, and the calls
    made into the page (latest first). *)
Record App : Type := mkApp {
  tasks : list Task;
  view : state.t;
  storage : option string;
  random36 : nat -> string;
  randoms : nat;
  clock : nat -> Z;
  ticks : nat;
  ui : list UICall
}.

Definition with_tasks (ts : list Task) (a : App) : App :=
  mkApp ts (view a) (storage a) (random36 a) (randoms a) (clock a) (ticks a)
        (ui a).

Definition with_view (v : state.t) (a : App) : App :=
  mkApp (tasks a) v (storage a) (random36 a) (randoms a) (clock a) (ticks a)
        (ui a).

Definition with_storage (s : option string) (a : App) : App :=
  mkApp (tasks a) (view a) s (random36 a) (randoms a) (clock a) (ticks a)
        (ui a).

Definition with_ui (u : list UICall) (a : App) : App :=
  mkApp (tasks a) (view a) (storage a) (random36 a) (randoms a) (clock a)
        (ticks a) u.

(* ================================================================= *)
(** ** Effects: state and exceptions *)

Definition M (A : Type) : Type := App -> Res A * App.

Definition ret {A} (a : A) : M A := fun s => (Ok a, s).

Definition throw {A} : M A := fun s => (Throw, s).

Definition bind {A B} (m : M A) (k : A -> M B) : M B :=
  fun s => match m s with
           | (Ok a, s') => k a s'
           | (Throw, s') => (Throw, s')
           end.

(** [try { m } catch { handler }] *)
Definition try_catch {A} (m handler : M A) : M A :=
  fun s => match m s with
           | (Ok a, s') => (Ok a, s')
           | (Throw, s') => handler s'
           end.

Definition gets {A} (f : App -> A) : M A := fun s => (Ok (f s), s).

Definition modify (f : App -> App) : M unit := fun s => (Ok tt, f s).

Definition liftRes {A} (r : Res A) : M A := fun s => (r, s).

Definition liftOpt {A} (o : option A) : M A :=
  match o with Some a => ret a | None => throw end.

Declare Scope m_scope.
Delimit Scope m_scope with m.
Notation "x <- m ;; k" := (bind m (fun x => k))
  (at level 61, m at next level, right associativity) : m_scope.
Notation "m ;; k" := (bind m (fun _ => k))
  (at level 61, right associativity) : m_scope.
Local Open Scope m_scope.

(** The state an effectful call leaves. *)
Definition exec {A} (m : M A) (s : App) : App := snd (m s).

(** [Math.random().toString(36)] *)
Definition Math_random_toString36 : M string :=
  fun s => (Ok (random36 s (randoms s)),
            mkApp (tasks s) (view s) (storage s) (random36 s) (S (randoms s))
                  (clock s) (ticks s) (ui s)).

(** [Date.now()], and the time a [new Date()] holds. *)
Definition Date_now : M Z :=
  fun s => (Ok (clock s (ticks s)),
            mkApp (tasks s) (view s) (storage s) (random36 s) (randoms s)
                  (clock s) (S (ticks s)) (ui s)).

Definition localStorage_getItem : M (option string) := gets storage.

Definition localStorage_setItem (v : string) : M unit :=
  modify (with_storage (Some v)).

Definition call (c : UICall) : M unit :=
  modify (fun s => with_ui (c :: ui s) s).

Fixpoint mapiM_from {A B} (i : nat) (f : A -> nat -> M B) (l : list A)
  : M (list B) :=
  match l with
  | [] => ret []
  | x :: rest =>
      y <- f x i ;;
      ys <- mapiM_from (S i) f rest ;;
      ret (y :: ys)
  end.

(* ================================================================= *)
(** ** The program *)

Section Program.
Context {host : Host}.

(** [uid]: the fraction digits of a random number in base 36, then the
    clock in base 36. *)
Definition uid : M string :=
  r <- Math_random_toString36 ;;
  n <- Date_now ;;
  ret (slice 2 r ++ toString36 n).

(** [new Date().toISOString()] *)
Definition new_Date_toISOString : M string :=
  n <- Date_now ;;
  ret (Date_toISOString n).

Definition saveTasks (ts : list Task) : M unit :=
  localStorage_setItem (JSON_stringify (tasksJSON ts)).

(** [v || d] *)
Definition orElse (v : option JSON) (d : JSON) : JSON :=
  match v with
  | Some x => if truthy v then x else d
  | None => d
  end.

(** The callback of [parsed.map] in [loadTasks]; the properties are
    evaluated in the order they are written. *)
Definition normalize (t : JSON) (i : nat) : M Loaded.t :=
  vid <- liftRes (getProp t "id") ;;
  id' <- (if truthy vid then ret (orElse vid JNull)
          else (u <- uid ;; ret (JStr u))) ;;
  vtitle <- liftRes (getProp t "title") ;;
  text <- liftOpt (ToString (orElse vtitle (JStr ""))) ;;
  vdue <- liftRes (getProp t "due") ;;
  vcompleted <- liftRes (getProp t "completed") ;;
  vcreated <- liftRes (getProp t "createdAt") ;;
  created <- (if truthy vcreated then ret (orElse vcreated JNull)
              else (now <- new_Date_toISOString ;; ret (JStr now))) ;;
  vorder <- liftRes (getProp t "order") ;;
  ret (Loaded.mk id' (trim text) (orElse vdue (JStr "")) (truthy vcompleted)
         created
         (match vorder with
          | Some (JNum n) => n
          | _ => Z.of_nat i
          end)).

Definition loadTasks : M (list Loaded.t) :=
  try_catch
    (raw <- localStorage_getItem ;;
     match raw with
     | None => ret []
     | Some text =>
         if String.eqb text "" then ret []
         else
           parsed <- liftOpt (JSON_parse text) ;;
           match parsed with
           | JArr items => mapiM_from 0 normalize items
           | _ => ret []
           end
     end)
    (ret []).

Definition renderList : M unit := call RenderList.

(** [Math.max(x, ...xs)] *)
Definition Math_max (x : Z) (xs : list Z) : Z := fold_left Z.max xs x.

Definition addTask (title due : string) : M unit :=
  newId <- uid ;;
  now <- new_Date_toISOString ;;
  ts <- gets tasks ;;
  let t := mkTask newId title due false now
             (match ts with
              | [] => 0
              | x :: rest => add (Math_max (order x) (map order rest)) 1
              end) in
  modify (with_tasks (ts ++ [t])) ;;
  saveTasks (ts ++ [t]) ;;
  renderList.

Definition updateTask (i : string) (patch : Patch) (rerender : bool) : M unit :=
  ts <- gets tasks ;;
  match findIndex (fun t => String.eqb (id t) i) ts with
  | None => ret tt
  | Some idx =>
      let ts' := match nth_error ts idx with
                 | Some t => setAt idx (spread t patch) ts
                 | None => ts
                 end in
      modify (with_tasks ts') ;;
      saveTasks ts' ;;
      if rerender then renderList else ret tt
  end.

(** The comparator [(a, b) => a.order - b.order]. *)
Definition byOrder (a b : Task) : Number := Fin (order a - order b).

(** [tasks.sort(byOrder).forEach((t, i) => t.order = i)] *)
Definition reindexOrder : M unit :=
  modify (fun s =>
    with_tasks (mapi (fun t i => set_order t (Z.of_nat i))
                     (JS.sort byOrder (tasks s))) s).

Definition deleteTask (i : string) : M unit :=
  modify (fun s =>
    with_tasks (List.filter (fun t => negb (String.eqb (id t) i)) (tasks s)) s) ;;
  reindexOrder ;;
  ts <- gets tasks ;;
  saveTasks ts ;;
  renderList.

(** The time used to compare a due date or a creation date. *)
Definition getTime (text : string) : Number :=
  match Date_getTime text with
  | Some ms => Fin ms
  | None => NaN
  end.

Definition byDue (a b : Task) : Number :=
  let da := if String.eqb (due a) "" then PInf else getTime (due a) in
  let db := if String.eqb (due b) "" then PInf else getTime (due b) in
  sub da db.

Definition byCreated (a b : Task) : Number :=
  sub (getTime (createdAt a)) (getTime (createdAt b)).

(** The search and filter stages of [getFilteredSortedTasks]. *)
Definition searchedFiltered (s : App) : list Task :=
  let st := view s in
  let arr := tasks s in
  let arr := if String.eqb (state.search st) "" then arr
             else List.filter
                    (fun t => includes (toLowerCase (title t)) (state.search st))
                    arr in
  let arr := if String.eqb (state.filter st) "done"
             then List.filter (fun t => completed t) arr else arr in
  if String.eqb (state.filter st) "todo"
  then List.filter (fun t => negb (completed t)) arr else arr.

Definition getFilteredSortedTasks (s : App) : list Task :=
  let arr := searchedFiltered s in
  let sort := state.sort (view s) in
  if String.eqb sort "manual" then JS.sort byOrder arr
  else if String.eqb sort "dueAsc" then JS.sort byDue arr
  else if String.eqb sort "dueDesc" then JS.sort (fun a b => byDue b a) arr
  else if String.eqb sort "createdAsc" then JS.sort byCreated arr
  else if String.eqb sort "createdDesc"
       then JS.sort (fun a b => byCreated b a) arr
  else JS.sort byOrder arr.

(** *** Event handlers *)

(** Click on Add Task, with the contents of the two inputs. *)
Definition addBtn_click (titleValue dateValue : string) : M unit :=
  let title := trim titleValue in
  if String.eqb title "" then call FocusTitleInput
  else addTask title dateValue.

(** Click on Clear Completed. *)
Definition clearAllBtn_click : M unit :=
  ts <- gets tasks ;;
  if negb (existsb (fun t => completed t) ts) then ret tt
  else
    modify (with_tasks (List.filter (fun t => negb (completed t)) ts)) ;;
    reindexOrder ;;
    ts' <- gets tasks ;;
    saveTasks ts' ;;
    renderList.

(** Change of a task's checkbox. *)
Definition checkbox_change (i : string) (checked : bool) : M unit :=
  updateTask i (mkPatch None None None (Some checked) None None) true.

(** Click on Save in the inline editor of the task [i]. *)
Definition save_click (i : string) (titleValue dateValue : string) : M unit :=
  let newTitle := trim titleValue in
  if String.eqb newTitle "" then call FocusEditInput
  else
    updateTask i (mkPatch None (Some newTitle) (Some dateValue) None None None)
               false ;;
    ts <- gets tasks ;;
    (* [taskView(updated)] reads [updated.due]: it throws when the task is
       gone. *)
    match List.find (fun t => String.eqb (id t) i) ts with
    | Some _ => call ReplaceItem
    | None => throw
    end.

(** [const t = tasks.find(tt => tt.id === i); if (t) t.order = index;] *)
Fixpoint assignOrder (i : string) (index : Z) (ts : list Task) : list Task :=
  match ts with
  | [] => []
  | t :: rest =>
      if String.eqb (id t) i then set_order t index :: rest
      else t :: assignOrder i index rest
  end.

(** [ids.forEach((i, index) => ...)], starting at [index]. *)
Fixpoint assignOrders (index : nat) (ids : list string) (ts : list Task)
  : list Task :=
  match ids with
  | [] => ts
  | i :: rest => assignOrders (S index) rest (assignOrder i (Z.of_nat index) ts)
  end.

(** End of a drag: [ids] are the [data-id] attributes of the items of the
    list, in the order the gesture left them. *)
Definition dragend (ids : list string) : M unit :=
  ts <- gets tasks ;;
  let ts' := assignOrders 0 ids ts in
  modify (with_tasks ts') ;;
  saveTasks ts' ;;
  modify (fun s =>
    if String.eqb (state.sort (view s)) "manual" then s
    else with_view (state.mk (state.search (view s)) (state.filter (view s))
                             "manual") s).

(** Input in the search box, with the text of the box. *)
Definition searchInput_input (value : string) : M unit :=
  modify (fun s =>
    with_view (state.mk (toLowerCase value) (state.filter (view s))
                        (state.sort (view s))) s) ;;
  renderList.

(** Change of the status filter, with the value of the chosen option. *)
Definition filterSelect_change (value : string) : M unit :=
  modify (fun s =>
    with_view (state.mk (state.search (view s)) value (state.sort (view s)))
              s) ;;
  renderList.

(** Change of the sort mode, with the value of the chosen option. *)
Definition sortSelect_change (value : string) : M unit :=
  modify (fun s =>
    with_view (state.mk (state.search (view s)) (state.filter (view s)) value)
              s) ;;
  renderList.

(** Click on Cancel in an inline editor: the item is drawn again from the
    task found, or from the task the editor was opened on. *)
Definition cancel_click : M unit := call ReplaceItem.

(** The events the page delivers to the logic. A key press of Enter in
    the title input clicks Add Task, so it is an [AddClick]; a click on
    the Delete button of a task calls [deleteTask] with its id. *)
Inductive Event : Type :=
| AddClick (titleValue dateValue : string)
| SearchInput (value : string)
| FilterChange (value : string)
| SortChange (value : string)
| ClearCompletedClick
| CheckboxChange (i : string) (checked : bool)
| SaveClick (i : string) (titleValue dateValue : string)
| CancelClick
| DeleteClick (i : string)
| DragEnd (ids : list string).

Definition handle (e : Event) : M unit :=
  match e with
  | AddClick titleValue dateValue => addBtn_click titleValue dateValue
  | SearchInput value => searchInput_input value
  | FilterChange value => filterSelect_change value
  | SortChange value => sortSelect_change value
  | ClearCompletedClick => clearAllBtn_click
  | CheckboxChange i checked => checkbox_change i checked
  | SaveClick i titleValue dateValue => save_click i titleValue dateValue
  | CancelClick => cancel_click
  | DeleteClick i => deleteTask i
  | DragEnd ids => dragend ids
  end.

(** The state after a sequence of events, each handled to its end (an
    exception ends the handler that raised it). *)
Fixpoint run (events : list Event) (s : App) : App :=
  match events with
  | [] => s
  | e :: rest => run rest (exec (handle e) s)
  end.

(** *** The second variant of the program ([src/unnamed/part_000]) *)




End Program.

(* ================================================================= *)
(** ** A reference host

    One implementation of the host built-ins, used to run the program on
    concrete inputs: a JSON printer and parser for the values above, and
    the ISO 8601 forms [YYYY-MM-DD] and [YYYY-MM-DDTHH:mm:ss.sssZ] of a
    date (UTC). *)

Module Ref.

Definition quote : ascii := ascii_of_nat 34.
Definition backslash : ascii := ascii_of_nat 92.

Definition hexDigit (d : nat) : ascii :=
  if (d <? 10)%nat then ascii_of_nat (48 + d) else ascii_of_nat (87 + d).

Fixpoint escape (s : string) : string :=
  match s with
  | EmptyString => EmptyString
  | String c rest =>
      let n := nat_of_ascii c in
      if Ascii.eqb c quote then String backslash (String quote (escape rest))
      else if Ascii.eqb c backslash
           then String backslash (String backslash (escape rest))
      else if (n =? 10)%nat then String backslash (String "n" (escape rest))
      else if (n =? 13)%nat then String backslash (String "r" (escape rest))
      else if (n =? 9)%nat then String backslash (String "t" (escape rest))
      else if (n <? 32)%nat
           then String backslash
                  (String "u" (String "0" (String "0"
                     (String (hexDigit (n / 16)) (String (hexDigit (n mod 16))
                        (escape rest))))))
      else String c (escape rest)
  end.

Definition quoted (s : string) : string :=
  String quote (escape s ++ String quote EmptyString).

Fixpoint stringify (v : JSON) : string :=
  match v with
  | JNull => "null"
  | JBool true => "true"
  | JBool false => "false"
  | JNum n => string_of_Z n
  | JStr s => quoted s
  | JArr items => "[" ++ join "," (map stringify items) ++ "]"
  | JObj props =>
      "{" ++ join "," (map (fun kv => match kv with
                                      | (k, x) => quoted k ++ ":" ++ stringify x
                                      end) props) ++ "}"
  end.

Fixpoint skipSpace (s : string) : string :=
  match s with
  | String c rest =>
      let n := nat_of_ascii c in
      if ((n =? 32) || (n =? 9) || (n =? 10) || (n =? 13))%nat
      then skipSpace rest else s
  | EmptyString => EmptyString
  end.

(** The rest of [s] after the prefix [p]. *)
Fixpoint expect (p s : string) : option string :=
  match p, s with
  | EmptyString, _ => Some s
  | String a p', String b s' => if Ascii.eqb a b then expect p' s' else None
  | String _ _, EmptyString => None
  end.

Definition digitValue (c : ascii) : option Z :=
  let n := nat_of_ascii c in
  if ((48 <=? n) && (n <=? 57))%nat then Some (Z.of_nat (n - 48)) else None.

Definition hexValue (c : ascii) : option nat :=
  let n := nat_of_ascii c in
  if ((48 <=? n) && (n <=? 57))%nat then Some (n - 48)%nat
  else if ((97 <=? n) && (n <=? 102))%nat then Some (n - 87)%nat
  else if ((65 <=? n) && (n <=? 70))%nat then Some (n - 55)%nat
  else None.

(** The digits at the head of [s], as a number, and what follows them. *)
Fixpoint digits (acc : Z) (s : string) : Z * string :=
  match s with
  | String c rest =>
      match digitValue c with
      | Some d => digits (10 * acc + d) rest
      | None => (acc, s)
      end
  | EmptyString => (acc, s)
  end.

Definition startsWithDigit (s : string) : bool :=
  match s with
  | String c _ => match digitValue c with Some _ => true | None => false end
  | EmptyString => false
  end.

(** An integer literal; a fraction or an exponent is refused. *)
Definition parseNumber (s : string) : option (JSON * string) :=
  let (neg, body) := match expect "-" s with
                     | Some rest => (true, rest)
                     | None => (false, s)
                     end in
  if startsWithDigit body then
    let (n, rest) := digits 0 body in
    match rest with
    | String "." _ | String "e" _ | String "E" _ => None
    | _ => Some (JNum (if neg then - n else n), rest)
    end
  else None.

(** A member in front of the members parsed after it: a repeated key
    keeps its last value. *)
Definition addMember (k : string) (v : JSON) (later : list (string * JSON))
  : list (string * JSON) :=
  if hasOwn k later then later else (k, v) :: later.

(** The characters of a string literal after its opening quote. *)
Fixpoint parseChars (s : string) : option (string * string) :=
  match s with
  | EmptyString => None
  | String c rest =>
      if Ascii.eqb c quote then Some (EmptyString, rest)
      else if Ascii.eqb c backslash then
        match rest with
        | String e rest' =>
            let plain (x : ascii) :=
              match parseChars rest' with
              | Some (body, r) => Some (String x body, r)
              | None => None
              end in
            if Ascii.eqb e quote then plain quote
            else if Ascii.eqb e backslash then plain backslash
            else if Ascii.eqb e "/" then plain "/"%char
            else if Ascii.eqb e "n" then plain (ascii_of_nat 10)
            else if Ascii.eqb e "r" then plain (ascii_of_nat 13)
            else if Ascii.eqb e "t" then plain (ascii_of_nat 9)
            else if Ascii.eqb e "u" then
              match rest' with
              | String "0" (String "0" (String h (String l rest''))) =>
                  match hexValue h, hexValue l, parseChars rest'' with
                  | Some x, Some y, Some (body, r) =>
                      let n := (16 * x + y)%nat in
                      if (n <? 128)%nat
                      then Some (String (ascii_of_nat n) body, r)
                      else Some (String (ascii_of_nat (192 + n / 64))
                                   (String (ascii_of_nat (128 + n mod 64))
                                      body), r)
                  | _, _, _ => None
                  end
              | _ => None
              end
            else None
        | EmptyString => None
        end
      else if (nat_of_ascii c <? 32)%nat then None
      else match parseChars rest with
           | Some (body, r) => Some (String c body, r)
           | None => None
           end
  end.

Fixpoint parseValue (fuel : nat) (s : string) : option (JSON * string) :=
  match fuel with
  | O => None
  | S fuel' =>
      match skipSpace s with
      | EmptyString => None
      | String c rest as s' =>
          if Ascii.eqb c "n" then
            option_map (fun r => (JNull, r)) (expect "null" s')
          else if Ascii.eqb c "t" then
            option_map (fun r => (JBool true, r)) (expect "true" s')
          else if Ascii.eqb c "f" then
            option_map (fun r => (JBool false, r)) (expect "false" s')
          else if Ascii.eqb c quote then
            option_map (fun br => (JStr (fst br), snd br)) (parseChars rest)
          else if Ascii.eqb c "[" then
            match expect "]" (skipSpace rest) with
            | Some r => Some (JArr [], r)
            | None =>
                option_map (fun ir => (JArr (fst ir), snd ir))
                           (parseItems fuel' rest)
            end
          else if Ascii.eqb c "{" then
            match expect "}" (skipSpace rest) with
            | Some r => Some (JObj [], r)
            | None =>
                option_map (fun pr => (JObj (fst pr), snd pr))
                           (parseMembers fuel' rest)
            end
          else parseNumber s'
      end
  end
with parseItems (fuel : nat) (s : string) : option (list JSON * string) :=
  match fuel with
  | O => None
  | S fuel' =>
      match parseValue fuel' s with
      | None => None
      | Some (v, r) =>
          match skipSpace r with
          | String "]" r' => Some ([v], r')
          | String "," r' =>
              option_map (fun ir => (v :: fst ir, snd ir)) (parseItems fuel' r')
          | _ => None
          end
      end
  end
with parseMembers (fuel : nat) (s : string)
  : option (list (string * JSON) * string) :=
  match fuel with
  | O => None
  | S fuel' =>
      match expect (String quote EmptyString) (skipSpace s) with
      | None => None
      | Some afterQuote =>
          match parseChars afterQuote with
          | None => None
          | Some (k, r) =>
              match expect ":" (skipSpace r) with
              | None => None
              | Some r' =>
                  match parseValue fuel' r' with
                  | None => None
                  | Some (v, r'') =>
                      match skipSpace r'' with
                      | String "}" rest => Some ([(k, v)], rest)
                      | String "," rest =>
                          option_map (fun pr => (addMember k v (fst pr), snd pr))
                                     (parseMembers fuel' rest)
                      | _ => None
                      end
                  end
              end
          end
      end
  end.

(** [JSON.parse]: one value, then nothing but white space. *)
Definition parse (s : string) : option JSON :=
  match parseValue (2 * String.length s + 2) s with
  | Some (v, rest) =>
      match skipSpace rest with
      | EmptyString => Some v
      | _ => None
      end
  | None => None
  end.

(** *** Dates *)

(** Days from 1970-01-01 to the civil date [y]-[m]-[d]. *)
Definition daysFromCivil (y m d : Z) : Z :=
  let y' := if m <=? 2 then y - 1 else y in
  let era := y' / 400 in
  let yoe := y' - era * 400 in
  let doy := (153 * (if 2 <? m then m - 3 else m + 9) + 2) / 5 + d - 1 in
  let doe := yoe * 365 + yoe / 4 - yoe / 100 + doy in
  era * 146097 + doe - 719468.

(** The civil date, [(y, m, d)], of a number of days from 1970-01-01. *)
Definition civilFromDays (days : Z) : Z * Z * Z :=
  let z := days + 719468 in
  let era := z / 146097 in
  let doe := z - era * 146097 in
  let yoe := (doe - doe / 1460 + doe / 36524 - doe / 146096) / 365 in
  let doy := doe - (365 * yoe + yoe / 4 - yoe / 100) in
  let mp := (5 * doy + 2) / 153 in
  let d := doy - (153 * mp + 2) / 5 + 1 in
  let m := if mp <? 10 then mp + 3 else mp - 9 in
  (if m <=? 2 then yoe + era * 400 + 1 else yoe + era * 400, m, d).

(** A field of exactly [n] digits at the head of [s]. *)
Fixpoint field (n : nat) (acc : Z) (s : string) : option (Z * string) :=
  match n with
  | O => Some (acc, s)
  | S n' =>
      match s with
      | String c rest =>
          match digitValue c with
          | Some d => field n' (10 * acc + d) rest
          | None => None
          end
      | EmptyString => None
      end
  end.

Definition bindOpt {A B} (o : option A) (k : A -> option B) : option B :=
  match o with Some a => k a | None => None end.

(** [new Date(s).getTime()] for the two forms; everything else is an
    invalid date. *)
Definition getTime (s : string) : option Z :=
  bindOpt (field 4 0 s) (fun '(y, s1) =>
  bindOpt (expect "-" s1) (fun s2 =>
  bindOpt (field 2 0 s2) (fun '(m, s3) =>
  bindOpt (expect "-" s3) (fun s4 =>
  bindOpt (field 2 0 s4) (fun '(d, s5) =>
  if (1 <=? m) && (m <=? 12) && (1 <=? d)
     && (let '(y', m', d') := civilFromDays (daysFromCivil y m d) in
         (y' =? y) && (m' =? m) && (d' =? d))
  then
    let day := daysFromCivil y m d * 86400000 in
    match s5 with
    | EmptyString => Some day
    | _ =>
        bindOpt (expect "T" s5) (fun s6 =>
        bindOpt (field 2 0 s6) (fun '(hh, s7) =>
        bindOpt (expect ":" s7) (fun s8 =>
        bindOpt (field 2 0 s8) (fun '(mi, s9) =>
        bindOpt (expect ":" s9) (fun s10 =>
        bindOpt (field 2 0 s10) (fun '(ss, s11) =>
        bindOpt (expect "." s11) (fun s12 =>
        bindOpt (field 3 0 s12) (fun '(ms, s13) =>
        match s13 with
        | String "Z" EmptyString =>
            if (hh <? 24) && (mi <? 60) && (ss <? 60)
            then Some (day + hh * 3600000 + mi * 60000 + ss * 1000 + ms)
            else None
        | _ => None
        end))))))))
    end
  else None))))).

(** [n] written with at least [width] digits. *)
Definition padded (width : nat) (n : Z) : string :=
  let text := string_of_Z n in
  let fix zeros (k : nat) : string :=
    match k with O => EmptyString | S k' => String "0" (zeros k') end in
  zeros (width - String.length text)%nat ++ text.

(** [new Date(ms).toISOString()] for the years 0 to 9999. *)
Definition toISOString (ms : Z) : string :=
  let '(y, m, d) := civilFromDays (ms / 86400000) in
  let r := ms mod 86400000 in
  padded 4 y ++ "-" ++ padded 2 m ++ "-" ++ padded 2 d ++ "T"
  ++ padded 2 (r / 3600000) ++ ":" ++ padded 2 (r / 60000 mod 60) ++ ":"
  ++ padded 2 (r / 1000 mod 60) ++ "." ++ padded 3 (r mod 1000) ++ "Z".

(** The reference host. *)
Definition host : Host :=
  Build_Host stringify parse getTime toISOString.

End Ref.

(* ================================================================= *)
(** ** The properties, as predicates *)

(** Under the comparator [cmp], [a] may stand in front of [b]: [cmp a b]
    is not positive. *)
Definition before {A} (cmp : A -> A -> Number) (a b : A) : Prop :=
  positive (cmp a b) = false.

(** [a] and [b] are tied: neither has to stand after the other. *)
Definition tied {A} (cmp : A -> A -> Number) (a b : A) : bool :=
  negb (positive (cmp a b)) && negb (positive (cmp b a)).

(** Every task without a due date stands after every task with one. *)
Definition undatedLast (l : list Task) : Prop :=
  forall i j u d,
    nth_error l i = Some u -> nth_error l j = Some d ->
    due u = "" -> due d <> "" -> (j < i)%nat.

(** Every task without a due date stands before every task with one. *)
Definition undatedFirst (l : list Task) : Prop :=
  forall i j u d,
    nth_error l i = Some u -> nth_error l j = Some d ->
    due u = "" -> due d <> "" -> (i < j)%nat.

(** Every due date that is present is one the host can read. *)
Definition datesValid {host : Host} (ts : list Task) : Prop :=
  forall t, In t ts -> due t <> "" -> Date_getTime (due t) <> None.

(** The order values are exactly 0, ..., N-1, each once. *)
Definition ordersContiguous (ts : list Task) : Prop :=
  Permutation (map order ts) (map Z.of_nat (seq 0 (List.length ts))).

(** [result] is [survivors] renumbered with their relative order kept:
    some arrangement [arranged] of the survivors has every task of smaller
    prior order first and tasks of equal prior order in the sequence they
    had, and [result] is that arrangement with each order replaced by the
    position. *)
Definition renumbered (survivors result : list Task) : Prop :=
  exists arranged,
    Permutation arranged survivors /\
    result = mapi (fun t i => set_order t (Z.of_nat i)) arranged /\
    (forall i j a b,
        nth_error arranged i = Some a -> nth_error arranged j = Some b ->
        order a < order b -> (i < j)%nat) /\
    (forall k,
        List.filter (fun t => order t =? k) arranged =
        List.filter (fun t => order t =? k) survivors).

(** A task with its order left out of account. *)
Definition forgetOrder (t : Task) : Task := set_order t 0.

(** What the loop of the drag handler makes of the task it finds for an
    id: each position of [ids] that names the task overwrites the order
    with that position. *)
Fixpoint retag (index : nat) (ids : list string) (t : Task) : Task :=
  match ids with
  | [] => t
  | i :: rest =>
      retag (S index) rest
            (if String.eqb (id t) i then set_order t (Z.of_nat index) else t)
  end.

(** [t.k] on a value that is not [null]. *)
Definition prop (t : JSON) (k : string) : option JSON :=
  match t with
  | JObj props => assoc k props
  | _ => None
  end.

(** A stored record that [loadTasks] can convert: it is not [null] and
    its title, if any, has a string conversion. *)
Definition loadable (t : JSON) : bool :=
  match t with
  | JNull => false
  | _ =>
      match ToString (orElse (prop t "title") (JStr "")) with
      | Some _ => true
      | None => false
      end
  end.

(** From [s] to [s'] nothing happened but draws of random numbers and
    readings of the clock. *)
Definition advances (s s' : App) : Prop :=
  tasks s' = tasks s /\ view s' = view s /\ storage s' = storage s /\
  random36 s' = random36 s /\ clock s' = clock s /\ ui s' = ui s /\
  (randoms s <= randoms s')%nat /\ (ticks s <= ticks s')%nat.

(** [r] is the stored record [t], found at position [i], normalized
    between the states [s] and [s']: a truthy [id] or [createdAt] is
    kept, a falsy one is replaced by a [uid] drawn, or by the clock read,
    between [s] and [s']. *)
Definition normalizedBetween {host : Host} (s s' : App) (i : nat) (t : JSON)
  (r : Loaded.t) : Prop :=
  (if truthy (prop t "id") then Some (Loaded.id r) = prop t "id"
   else exists m n,
       (randoms s <= m < randoms s')%nat /\ (ticks s <= n < ticks s')%nat /\
       Loaded.id r = JStr (slice 2 (random36 s m) ++ toString36 (clock s n)))
  /\
  (exists text,
      ToString (orElse (prop t "title") (JStr "")) = Some text /\
      Loaded.title r = trim text)
  /\ Loaded.due r = orElse (prop t "due") (JStr "")
  /\ Loaded.completed r = truthy (prop t "completed")
  /\
  (if truthy (prop t "createdAt")
   then Some (Loaded.createdAt r) = prop t "createdAt"
   else exists n,
       (ticks s <= n < ticks s')%nat /\
       Loaded.createdAt r = JStr (Date_toISOString (clock s n)))
  /\
  Loaded.order r = match prop t "order" with
                   | Some (JNum n) => n
                   | _ => Z.of_nat i
                   end.

(** A collection as the specification calls it well formed (unique ids,
    titles that are trimmed and not empty; every order is a number by its
    type). *)
Definition wellFormed (ts : list Task) : Prop :=
  NoDup (map id ts) /\
  Forall (fun t => title t <> "" /\ trim (title t) = title t) ts.

(** What the round trip needs besides: ids and creation dates that are
    not empty. *)
Definition identified (ts : list Task) : Prop :=
  Forall (fun t => id t <> "" /\ createdAt t <> "") ts.

(** The host prints [v] as a text that it reads back as [v]. *)
Definition roundTrips {host : Host} (v : JSON) : Prop :=
  JSON_stringify v <> "" /\ JSON_parse (JSON_stringify v) = Some v.

(** The task at position [k] is the first of the collection with its
    id: the one [tasks.find] returns for that id. With unique ids every
    task is. *)
Definition firstOfId (ts : list Task) (k : nat) (t : Task) : bool :=
  negb (existsb (String.eqb (id t)) (firstn k (map id ts))).

(** The key [byDue] compares: infinity for an absent date. *)
Definition dueKey {host : Host} (t : Task) : Number :=
  if String.eqb (due t) "" then PInf else getTime (due t).

(** A task whose due date is absent or readable. *)
Definition dueOk {host : Host} (t : Task) : Prop :=
  due t <> "" -> Date_getTime (due t) <> None.

(** The task [addTask] builds in the state [s]. *)
Definition newTask {host : Host} (title due : string) (s : App) : Task :=
  mkTask (slice 2 (random36 s (randoms s)) ++ toString36 (clock s (ticks s)))
         title due false
         (Date_toISOString (clock s (S (ticks s))))
         (match tasks s with
          | [] => 0
          | x :: rest => add (Math_max (order x) (map order rest)) 1
          end).

(** The state after one call of [uid]. *)
Definition afterUid (s : App) : App :=
  mkApp (tasks s) (view s) (storage s) (random36 s) (S (randoms s)) (clock s)
        (S (ticks s)) (ui s).

(** The state after one reading of the clock. *)
Definition afterClock (s : App) : App :=
  mkApp (tasks s) (view s) (storage s) (random36 s) (randoms s) (clock s)
        (S (ticks s)) (ui s).

(** The task [t] passes the search text and the status filter of the
    view state [v]. *)
Definition shown (v : state.t) (t : Task) : bool :=
  (String.eqb (state.search v) ""
   || includes (toLowerCase (title t)) (state.search v))
  && (negb (String.eqb (state.filter v) "done") || completed t)
  && (negb (String.eqb (state.filter v) "todo") || negb (completed t)).

(** Every creation date is one the host can read. *)
Definition createdValid {host : Host} (ts : list Task) : Prop :=
  forall t, In t ts -> Date_getTime (createdAt t) <> None.

(** A number that is finite or plus infinity: what the keys of the date
    comparators are when the dates are readable. *)
Definition keyOk (v : Number) : Prop :=
  match v with
  | Fin _ | PInf => True
  | NInf | NaN => False
  end.

(** The orders are 0, ..., N-1 in the sequence of the collection: what
    [reindexOrder] leaves. *)
Definition numbered (ts : list Task) : Prop :=
  map order ts = map Z.of_nat (seq 0 (List.length ts)).

(** The order of [x] is the position of its id in [ids]. *)
Definition placedBy (ids : list string) (x : Task) : Prop :=
  exists j, order x = Z.of_nat j /\ nth_error ids j = Some (id x).

(** The storage holds the text of the collection in memory. *)
Definition inSync {host : Host} (s : App) : Prop :=
  storage s = Some (JSON_stringify (tasksJSON (tasks s))).

(** Every title is trimmed and not empty. *)
Definition titlesKept (ts : list Task) : Prop :=
  Forall (fun t => title t <> "" /\ trim (title t) = title t) ts.

(** A string that begins with none of the strings [ws]. *)
Definition startsClean (ws : list string) (text : string) : Prop :=
  dropFirst ws text = None.

(** [Number.isSafeInteger]: an integer [z] for which [z + 1] and [z - 1]
    are exact in doubles. *)
Definition safeInteger (z : Z) : Prop := - 2 ^ 53 < z < 2 ^ 53.

(** A record with an id that is truthy and a title that is trimmed. *)
Definition usable (r : Loaded.t) : Prop :=
  truthy (Some (Loaded.id r)) = true /\
  trim (Loaded.title r) = Loaded.title r.

(** The patch [q] laid over the patch [p]. *)
Definition patchThen (p q : Patch) : Patch :=
  let later {A} (new old : option A) : option A :=
    match new with Some v => Some v | None => old end in
  mkPatch (later (p_id q) (p_id p)) (later (p_title q) (p_title p))
          (later (p_due q) (p_due p)) (later (p_completed q) (p_completed p))
          (later (p_createdAt q) (p_createdAt p))
          (later (p_order q) (p_order p)).

(** The value of a digit of base 36 as [toString36] writes it. *)
Definition digitValue36 (c : ascii) : N :=
  let n := N_of_ascii c in if (n <? 58)%N then (n - 48)%N else (n - 87)%N.

(** The number a text of such digits writes, after the digits read so
    far gave [acc]. *)
Fixpoint value36 (acc : N) (text : string) : N :=
  match text with
  | EmptyString => acc
  | String c rest => value36 (acc * 36 + digitValue36 c) rest
  end.

(* ================================================================= *)
(** ** Example data *)

Module Ex.

Definition view0 (sort : string) : state.t := state.mk "" "all" sort.

(** An application state whose random source and clock repeat. *)
Definition app (ts : list Task) (sort : string) (stored : option string)
  : App :=
  mkApp ts (view0 sort) stored (fun _ => "0.4fzyo82mvyr") 0
        (fun _ => 1704844800123) 0 [].

Definition created : string := "2024-01-01T00:00:00.000Z".

(** The three tasks of the sort example of the specification. *)
Definition t10 : Task := mkTask "a" "A" "2024-01-10" false created 0.
Definition tNone : Task := mkTask "b" "B" "" false created 1.
Definition t05 : Task := mkTask "c" "C" "2024-01-05" false created 2.

(** A patch whose title is two spaces. *)
Definition blankTitle : Patch :=
  mkPatch None (Some "  ") None None None None.

(** A patch that completes a task. *)
Definition done : Patch :=
  mkPatch None None None (Some true) None None.

(** Three tasks created on three days, the latest first. *)
Definition threeDays : list Task :=
  [mkTask "x" "X" "" false "2024-03-03T10:00:00.000Z" 2;
   mkTask "y" "Y" "" false "2024-03-01T10:00:00.000Z" 0;
   mkTask "z" "Z" "" true "2024-03-02T10:00:00.000Z" 1].

(** A session: a task is added, the first task is completed, the list is
    searched, the completed tasks are cleared and an edit is saved. *)
Definition session : list Event :=
  [AddClick "  Water the plants " "2024-02-01"; CheckboxChange "a" true;
   SearchInput "PLANTS"; ClearCompletedClick; SaveClick "c" " Call home " ""].

(** The patch of an edit saved with the text [A] and no date: what the
    first task of [gap] holds already. *)
Definition sameText : Patch :=
  mkPatch None (Some "A") (Some "") None None None.

(** A stored array: a task, then the number 5. *)
Definition storedMixed : string :=
  Ref.stringify (JArr [taskJSON t10; JNum 5]).

(** A stored array: a task, then [null]. *)
Definition storedWithNull : string :=
  Ref.stringify (JArr [taskJSON t10; JNull]).

(** Two open tasks while the search text is [b], and the state a drag
    leaves then: the list shows only the second task, [dragend] receives
    the one id and gives the task the order 0, which the first task
    already has. *)
Definition pair : list Task :=
  [mkTask "a" "A" "" false created 0; mkTask "b" "B" "" false created 1].

Definition searching : App :=
  mkApp pair (state.mk "b" "all" "manual") None (fun _ => "0.4fzyo82mvyr") 0
        (fun _ => 1704844800123) 0 [].

Definition dragged {host : Host} : App :=
  exec (dragend (map id (getFilteredSortedTasks searching))) searching.

(** Two open tasks whose orders are 0 and 2, as a drag over a filtered
    list or a deletion by hand in the storage leaves them. *)
Definition gap : list Task :=
  [mkTask "a" "A" "" false created 0; mkTask "c" "C" "" false created 2].

(** The state that holds [gap] and has it in the storage. *)
Definition stored : App :=
  app gap "manual" (Some (Ref.stringify (tasksJSON gap))).

(** The same with a completed task between them. *)
Definition gapDone : list Task :=
  [mkTask "a" "A" "" false created 0; mkTask "b" "B" "" true created 1;
   mkTask "c" "C" "" false created 2].

End Ex.

(* ================================================================= *)
(** ** Facts about the built-ins *)

Section SortFacts.
Context {A : Type} (cmp : A -> A -> Number).

Lemma insert_perm (x : A) (l : list A) :
  Permutation (insert cmp x l) (x :: l).
Proof.
  induction l as [|y l IH]; simpl; [reflexivity|].
  destruct (positive (cmp x y)); [|reflexivity].
  rewrite IH. apply perm_swap.
Qed.

Lemma sort_perm (l : list A) : Permutation (JS.sort cmp l) l.
Proof.
  induction l as [|x l IH]; simpl; [constructor|].
  rewrite insert_perm. now constructor.
Qed.

Lemma sort_length (l : list A) :
  List.length (JS.sort cmp l) = List.length l.
Proof. apply Permutation_length, sort_perm. Qed.

Lemma sort_In (l : list A) (x : A) : In x (JS.sort cmp l) <-> In x l.
Proof.
  split; apply Permutation_in; [|symmetry]; apply sort_perm.
Qed.

(** A comparator that is consistent on the elements satisfying [ok]. *)
Variable ok : A -> Prop.
Hypothesis cmp_anti :
  forall a b, ok a -> ok b -> positive (cmp a b) = true -> before cmp b a.
Hypothesis cmp_trans :
  forall a b c, ok a -> ok b -> ok c ->
    before cmp a b -> before cmp b c -> before cmp a c.

Lemma before_refl (a : A) : ok a -> before cmp a a.
Proof.
  intros Ha. unfold before. destruct (positive (cmp a a)) eqn:E; [|reflexivity].
  now rewrite (cmp_anti a a Ha Ha E) in E.
Qed.

Lemma insert_sorted (x : A) (l : list A) :
  ok x -> Forall ok l ->
  StronglySorted (before cmp) l -> StronglySorted (before cmp) (insert cmp x l).
Proof.
  intros Hx Hl Hs. induction Hs as [|y l Hs IH Hy]; simpl.
  - repeat constructor.
  - inversion Hl as [|? ? Hoky Hokl]; subst.
    destruct (positive (cmp x y)) eqn:E.
    + constructor; [now apply IH|].
      assert (Hin : forall z, In z (insert cmp x l) -> before cmp y z).
      { intros z Hz. apply (Permutation_in _ (insert_perm x l)) in Hz.
        destruct Hz as [<-|Hz]; [now apply cmp_anti|].
        rewrite Forall_forall in Hy. now apply Hy. }
      now apply Forall_forall.
    + constructor; [now constructor|].
      constructor; [exact E|].
      rewrite Forall_forall in *. intros z Hz.
      apply (cmp_trans x y z); auto.
Qed.

Lemma sort_ok (l : list A) : Forall ok l -> Forall ok (JS.sort cmp l).
Proof.
  intros H. rewrite Forall_forall in *. intros x Hx. apply H.
  now apply sort_In.
Qed.

Lemma sort_sorted (l : list A) :
  Forall ok l -> StronglySorted (before cmp) (JS.sort cmp l).
Proof.
  induction l as [|x l IH]; simpl; intros H; [constructor|].
  inversion H; subst. apply insert_sorted; auto using sort_ok.
Qed.

(** *** Stability *)

Section Class.
(** Elements of one class [p] that may stand in front of one another
    keep the sequence they had. *)
Variable p : A -> bool.
Hypothesis same_class :
  forall a b, ok a -> ok b -> p a = true -> p b = true -> before cmp a b.

Lemma insert_filter (x : A) (l : list A) :
  ok x -> Forall ok l ->
  List.filter p (insert cmp x l) =
  if p x then x :: List.filter p l else List.filter p l.
Proof.
  intros Hx Hl. induction Hl as [|y l Hy Hl IH]; simpl.
  - now destruct (p x).
  - destruct (positive (cmp x y)) eqn:E; simpl.
    + rewrite IH. destruct (p x) eqn:Px, (p y) eqn:Py; try reflexivity.
      rewrite (same_class x y Hx Hy Px Py) in E. discriminate.
    + now destruct (p x).
Qed.

Lemma sort_stable (l : list A) :
  Forall ok l -> List.filter p (JS.sort cmp l) = List.filter p l.
Proof.
  induction l as [|x l IH]; simpl; intros H; [reflexivity|].
  inversion H; subst.
  rewrite insert_filter, IH by auto using sort_ok. reflexivity.
Qed.
End Class.

Lemma tied_iff (a b : A) :
  tied cmp a b = true <-> before cmp a b /\ before cmp b a.
Proof.
  unfold tied, before. rewrite andb_true_iff, !negb_true_iff. tauto.
Qed.

Lemma tied_refl (a : A) : ok a -> tied cmp a a = true.
Proof. intros Ha. apply tied_iff. split; now apply before_refl. Qed.

(** The sort keeps the sequence of the elements tied with [x]. *)
Lemma sort_keeps_ties (l : list A) (x : A) :
  ok x -> Forall ok l ->
  List.filter (tied cmp x) (JS.sort cmp l) = List.filter (tied cmp x) l.
Proof.
  intros Hx. apply sort_stable. intros a b Ha Hb Ta Tb.
  apply tied_iff in Ta, Tb. apply (cmp_trans a x b); tauto.
Qed.

(** Two sorted lists in which every class of tied elements is the same
    sequence are one list. *)
Lemma sorted_stable_unique (l1 l2 : list A) :
  Forall ok l1 -> Forall ok l2 ->
  StronglySorted (before cmp) l1 -> StronglySorted (before cmp) l2 ->
  (forall x, ok x ->
     List.filter (tied cmp x) l1 = List.filter (tied cmp x) l2) ->
  l1 = l2.
Proof.
  revert l2. induction l1 as [|a l1 IH]; intros l2 Hok1 Hok2 Hs1 Hs2 Hties.
  - destruct l2 as [|b l2]; [reflexivity|].
    inversion Hok2; subst. specialize (Hties b H1).
    simpl in Hties. rewrite tied_refl in Hties by assumption. discriminate.
  - inversion Hok1 as [|? ? Ha Hok1']; subst.
    destruct l2 as [|b l2].
    { specialize (Hties a Ha). simpl in Hties.
      rewrite tied_refl in Hties by assumption. discriminate. }
    inversion Hok2 as [|? ? Hb Hok2']; subst.
    inversion Hs1 as [|? ? Hs1' Hfirst1]; subst.
    inversion Hs2 as [|? ? Hs2' Hfirst2]; subst.
    rewrite Forall_forall in Hfirst1, Hfirst2.
    assert (Hab : before cmp a b).
    { assert (Hin : In b (List.filter (tied cmp b) (a :: l1))).
      { rewrite (Hties b Hb). simpl. rewrite tied_refl by assumption.
        now left. }
      apply filter_In in Hin. destruct Hin as [[<-|Hin] _];
        [now apply before_refl|now apply Hfirst1]. }
    assert (Hba : before cmp b a).
    { assert (Hin : In a (List.filter (tied cmp a) (b :: l2))).
      { rewrite <- (Hties a Ha). simpl. rewrite tied_refl by assumption.
        now left. }
      apply filter_In in Hin. destruct Hin as [[<-|Hin] _];
        [now apply before_refl|now apply Hfirst2]. }
    assert (E : a = b).
    { pose proof (Hties a Ha) as H. simpl in H.
      rewrite tied_refl in H by assumption.
      rewrite (proj2 (tied_iff a b) (conj Hab Hba)) in H. congruence. }
    subst b. f_equal. apply IH; auto.
    intros x Hx. specialize (Hties x Hx). simpl in Hties.
    destruct (tied cmp x a); congruence.
Qed.

(** The model of [sort] is the only stable sort: a rearrangement of [l]
    that is sorted and keeps the sequence of tied elements is
    [JS.sort cmp l]. *)
Lemma sort_unique (l l' : list A) :
  Forall ok l -> Permutation l' l ->
  StronglySorted (before cmp) l' ->
  (forall x, ok x ->
     List.filter (tied cmp x) l' = List.filter (tied cmp x) l) ->
  l' = JS.sort cmp l.
Proof.
  intros Hok Hperm Hs Hties.
  apply sorted_stable_unique; auto using sort_ok, sort_sorted.
  - rewrite Forall_forall in *. intros x Hx. apply Hok.
    eapply Permutation_in; eauto.
  - intros x Hx. rewrite sort_keeps_ties by assumption. now apply Hties.
Qed.

End SortFacts.

(** In a sorted list an element that must come first is met first. *)
Lemma sorted_nth {A} (R : A -> A -> Prop) (l : list A) :
  StronglySorted R l ->
  forall i j a b, (i < j)%nat ->
    nth_error l i = Some a -> nth_error l j = Some b -> R a b.
Proof.
  induction 1 as [|x l Hs IH Hx]; intros i j a b Hij Hi Hj.
  - destruct i; discriminate.
  - destruct j as [|j]; [lia|]. simpl in Hj.
    destruct i as [|i]; simpl in Hi.
    + injection Hi as <-. rewrite Forall_forall in Hx.
      apply Hx. eapply nth_error_In; eauto.
    + apply (IH i j); auto. lia.
Qed.

(* ================================================================= *)
(** ** The view: sorting by due date *)

Section DueOrder.
Context {host : Host}.

Lemma byDue_keys (a b : Task) : byDue a b = sub (dueKey a) (dueKey b).
Proof. reflexivity. Qed.

Lemma dueKey_cases (t : Task) :
  dueOk t ->
  (due t = "" /\ dueKey t = PInf) \/
  (due t <> "" /\ exists ms, dueKey t = Fin ms).
Proof.
  intros H. unfold dueKey, getTime.
  destruct (String.eqb_spec (due t) "") as [E|E]; [now left|right].
  split; [assumption|].
  destruct (Date_getTime (due t)) as [ms|] eqn:G; [now exists ms|].
  now destruct (H E).
Qed.

Ltac due_cases :=
  repeat match goal with
         | H : dueOk ?t |- _ =>
             destruct (dueKey_cases t H) as [[? ->]|[? [? ->]]]; clear H
         end;
  simpl in *; try congruence;
  repeat match goal with
         | H : (_ <? _) = _ |- _ =>
             first [apply Z.ltb_lt in H | apply Z.ltb_ge in H]
         | |- (_ <? _) = _ => first [apply Z.ltb_lt | apply Z.ltb_ge]
         end;
  try lia.

Lemma byDue_anti (a b : Task) :
  dueOk a -> dueOk b ->
  positive (byDue a b) = true -> positive (byDue b a) = false.
Proof. intros Ha Hb. rewrite !byDue_keys. due_cases. Qed.

Lemma byDue_trans (a b c : Task) :
  dueOk a -> dueOk b -> dueOk c ->
  positive (byDue a b) = false -> positive (byDue b c) = false ->
  positive (byDue a c) = false.
Proof. intros Ha Hb Hc. rewrite !byDue_keys. due_cases. Qed.

Lemma byDue_undated_dated (u d : Task) :
  dueOk d -> due u = "" -> due d <> "" -> positive (byDue u d) = true.
Proof.
  intros Hd Hu Hdd. rewrite byDue_keys.
  destruct (dueKey_cases d Hd) as [[? _]|[_ [ms ->]]]; [contradiction|].
  unfold dueKey. rewrite Hu. reflexivity.
Qed.

Lemma searchedFiltered_incl (s : App) (t : Task) :
  In t (searchedFiltered s) -> In t (tasks s).
Proof.
  unfold searchedFiltered.
  repeat match goal with
         | |- context [if ?c then _ else _] => destruct c
         end;
  intros H; repeat (apply filter_In in H; destruct H as [H _]); exact H.
Qed.

Lemma dueAsc_sorted (l : list Task) :
  Forall dueOk l -> StronglySorted (before byDue) (JS.sort byDue l).
Proof.
  apply sort_sorted.
  - intros a b. apply byDue_anti.
  - intros a b c. apply byDue_trans.
Qed.

Lemma dueDesc_sorted (l : list Task) :
  Forall dueOk l ->
  StronglySorted (before (fun a b => byDue b a))
                 (JS.sort (fun a b => byDue b a) l).
Proof.
  apply sort_sorted.
  - intros a b Ha Hb. unfold before. apply byDue_anti; assumption.
  - intros a b c Ha Hb Hc. unfold before. intros H1 H2.
    apply (byDue_trans c b a); assumption.
Qed.

Lemma dueAsc_undatedLast (l : list Task) :
  Forall dueOk l -> undatedLast (JS.sort byDue l).
Proof.
  intros Hok i j u d Hi Hj Hu Hd.
  destruct (Nat.lt_trichotomy i j) as [Hlt|[->|Hgt]]; [exfalso| |exact Hgt].
  - pose proof (sorted_nth _ _ (dueAsc_sorted l Hok) i j u d Hlt Hi Hj) as Hb.
    unfold before in Hb. rewrite byDue_undated_dated in Hb; try easy.
    rewrite Forall_forall in Hok. apply Hok.
    apply sort_In with (cmp := byDue). eapply nth_error_In; eauto.
  - congruence.
Qed.

Lemma dueDesc_undatedFirst (l : list Task) :
  Forall dueOk l -> undatedFirst (JS.sort (fun a b => byDue b a) l).
Proof.
  intros Hok i j u d Hi Hj Hu Hd.
  destruct (Nat.lt_trichotomy i j) as [Hlt|[->|Hgt]]; [exact Hlt| |exfalso].
  - congruence.
  - pose proof (sorted_nth _ _ (dueDesc_sorted l Hok) j i d u Hgt Hj Hi) as Hb.
    unfold before in Hb. rewrite byDue_undated_dated in Hb; try easy.
    rewrite Forall_forall in Hok. apply Hok.
    apply sort_In with (cmp := fun a b => byDue b a).
    eapply nth_error_In; eauto.
Qed.

Lemma datesValid_filtered (s : App) :
  datesValid (tasks s) -> Forall dueOk (searchedFiltered s).
Proof.
  intros H. apply Forall_forall. intros t Ht.
  apply searchedFiltered_incl in Ht. exact (H t Ht).
Qed.

(** C1 (as amended). Whatever the search text and the status filter, when
    every due date present is readable as a date: under [dueAsc] every
    task without a due date stands after every task with one, and under
    [dueDesc], whose comparator is [byDue] with its arguments exchanged,
    every task without a due date stands before every task with one. *)
Theorem C1_due_sort_places_undated (s : App) :
  datesValid (tasks s) ->
  (state.sort (view s) = "dueAsc" -> undatedLast (getFilteredSortedTasks s))
  /\
  (state.sort (view s) = "dueDesc" -> undatedFirst (getFilteredSortedTasks s)).
Proof.
  intros Hv. apply datesValid_filtered in Hv.
  unfold getFilteredSortedTasks. split; intros ->; simpl.
  - now apply dueAsc_undatedLast.
  - now apply dueDesc_undatedFirst.
Qed.

End DueOrder.

(** C1, witness: the example of the specification under both modes. *)
Lemma C1_due_sort_witness :
  datesValid (host := Ref.host) [Ex.t10; Ex.tNone; Ex.t05] /\
  undatedLast
    (getFilteredSortedTasks (host := Ref.host)
       (Ex.app [Ex.t10; Ex.tNone; Ex.t05] "dueAsc" None)) /\
  undatedFirst
    (getFilteredSortedTasks (host := Ref.host)
       (Ex.app [Ex.t10; Ex.tNone; Ex.t05] "dueDesc" None)).
Proof.
  assert (Hv : datesValid (host := Ref.host) [Ex.t10; Ex.tNone; Ex.t05]).
  { intros t [<-|[<-|[<-|[]]]] Hd; simpl; try discriminate. now elim Hd. }
  split; [exact Hv|]. split.
  - apply (proj1 (C1_due_sort_places_undated (host := Ref.host)
                    (Ex.app [Ex.t10; Ex.tNone; Ex.t05] "dueAsc" None) Hv)).
    reflexivity.
  - apply (proj2 (C1_due_sort_places_undated (host := Ref.host)
                    (Ex.app [Ex.t10; Ex.tNone; Ex.t05] "dueDesc" None) Hv)).
    reflexivity.
Defined.

(** C1, counterexample: on the three tasks of the specification's example
    ([2024-01-10], none, [2024-01-05]) the mode [dueDesc] shows the task
    without a due date first, not last. *)
Lemma C1_counterexample_dueDesc :
  map id (getFilteredSortedTasks (host := Ref.host)
            (Ex.app [Ex.t10; Ex.tNone; Ex.t05] "dueDesc" None))
  = ["b"; "a"; "c"]
  /\ ~ undatedLast
       (getFilteredSortedTasks (host := Ref.host)
          (Ex.app [Ex.t10; Ex.tNone; Ex.t05] "dueDesc" None)).
Proof.
  split; [reflexivity|].
  intros H. specialize (H 0%nat 1%nat Ex.tNone Ex.t10).
  assert (1 < 0)%nat; [|lia].
  apply H; try reflexivity. discriminate.
Qed.

(* ================================================================= *)
(** ** Renumbering after a removal *)

Lemma mapi_from_length {A B} (f : A -> nat -> B) (l : list A) (k : nat) :
  List.length (mapi_from k f l) = List.length l.
Proof.
  revert k. induction l as [|x l IH]; intros k; simpl; [reflexivity|].
  now rewrite IH.
Qed.

Lemma mapi_from_orders (l : list Task) (k : nat) :
  map order (mapi_from k (fun t i => set_order t (Z.of_nat i)) l)
  = map Z.of_nat (seq k (List.length l)).
Proof.
  revert k. induction l as [|x l IH]; intros k; simpl; [reflexivity|].
  now rewrite IH.
Qed.

Lemma byOrder_sorted (l : list Task) :
  StronglySorted (before byOrder) (JS.sort byOrder l).
Proof.
  apply sort_sorted with (ok := fun _ => True).
  - unfold before, byOrder. simpl. intros a b _ _ H.
    apply Z.ltb_lt in H. apply Z.ltb_ge. lia.
  - unfold before, byOrder. simpl. intros a b c _ _ _ H1 H2.
    apply Z.ltb_ge in H1, H2. apply Z.ltb_ge. lia.
  - apply Forall_forall. trivial.
Qed.

Lemma byOrder_stable (l : list Task) (k : Z) :
  List.filter (fun t => order t =? k) (JS.sort byOrder l)
  = List.filter (fun t => order t =? k) l.
Proof.
  apply (sort_stable byOrder (fun _ => True)).
  - intros a b _ _ Ha Hb.
    apply Z.eqb_eq in Ha, Hb. unfold before, byOrder. simpl.
    apply Z.ltb_ge. lia.
  - apply Forall_forall. trivial.
Qed.

(** What [reindexOrder] leaves in [tasks]. *)
Lemma reindex_renumbered (ts : list Task) :
  renumbered ts (mapi (fun t i => set_order t (Z.of_nat i)) (JS.sort byOrder ts)).
Proof.
  exists (JS.sort byOrder ts). split; [apply sort_perm|].
  split; [reflexivity|]. split; [|intros k; apply byOrder_stable].
  intros i j a b Hi Hj Hab.
  destruct (Nat.lt_trichotomy i j) as [Hlt|[->|Hgt]]; [exact Hlt| |].
  - rewrite Hi in Hj. injection Hj as ->. lia.
  - pose proof (sorted_nth _ _ (byOrder_sorted ts) j i b a Hgt Hj Hi) as H.
    unfold before, byOrder in H. simpl in H. apply Z.ltb_ge in H. lia.
Qed.

Lemma reindex_contiguous (ts : list Task) :
  ordersContiguous
    (mapi (fun t i => set_order t (Z.of_nat i)) (JS.sort byOrder ts)).
Proof.
  unfold ordersContiguous, mapi.
  rewrite mapi_from_orders, mapi_from_length. reflexivity.
Qed.

Section Removal.
Context {host : Host}.

Lemma deleteTask_run (i : string) (s : App) :
  deleteTask i s =
  (Ok tt,
   let ts := mapi (fun t k => set_order t (Z.of_nat k))
                  (JS.sort byOrder
                     (List.filter (fun t => negb (String.eqb (id t) i))
                                  (tasks s))) in
   mkApp ts (view s) (Some (JSON_stringify (tasksJSON ts))) (random36 s)
         (randoms s) (clock s) (ticks s) (RenderList :: ui s)).
Proof. reflexivity. Qed.

Lemma clearAllBtn_click_run (s : App) :
  clearAllBtn_click s =
  (Ok tt,
   if existsb (fun t => completed t) (tasks s) then
     let ts := mapi (fun t k => set_order t (Z.of_nat k))
                    (JS.sort byOrder
                       (List.filter (fun t => negb (completed t)) (tasks s))) in
     mkApp ts (view s) (Some (JSON_stringify (tasksJSON ts))) (random36 s)
           (randoms s) (clock s) (ticks s) (RenderList :: ui s)
   else s).
Proof.
  unfold clearAllBtn_click, bind, gets. simpl.
  destruct (existsb _ (tasks s)); reflexivity.
Qed.

(** C2 (as amended). After any [deleteTask], and after any click on Clear
    Completed that finds a completed task, the order values of the
    surviving tasks are exactly 0, ..., N-1 and the survivors keep the
    relative order their prior order values gave them. *)
Theorem C2_orders_contiguous_after_removal (s : App) :
  (forall i,
      let survivors :=
        List.filter (fun t => negb (String.eqb (id t) i)) (tasks s) in
      let after := tasks (exec (deleteTask i) s) in
      ordersContiguous after /\ renumbered survivors after)
  /\
  (existsb (fun t => completed t) (tasks s) = true ->
   let survivors := List.filter (fun t => negb (completed t)) (tasks s) in
   let after := tasks (exec clearAllBtn_click s) in
   ordersContiguous after /\ renumbered survivors after).
Proof.
  split.
  - intros i. unfold exec. rewrite deleteTask_run. simpl.
    split; [apply reindex_contiguous|apply reindex_renumbered].
  - intros Hc. unfold exec. rewrite clearAllBtn_click_run, Hc. simpl.
    split; [apply reindex_contiguous|apply reindex_renumbered].
Qed.

End Removal.

(** C2, witness: a completed task between two open ones is cleared. *)
Lemma C2_orders_contiguous_witness :
  existsb (fun t => completed t) Ex.gapDone = true /\
  map order
    (tasks (exec (clearAllBtn_click (host := Ref.host))
                 (Ex.app Ex.gapDone "manual" None))) = [0; 1] /\
  ordersContiguous
    (tasks (exec (clearAllBtn_click (host := Ref.host))
                 (Ex.app Ex.gapDone "manual" None))).
Proof.
  split; [reflexivity|]. split; [reflexivity|].
  apply (proj2 (C2_orders_contiguous_after_removal (host := Ref.host)
                  (Ex.app Ex.gapDone "manual" None))).
  reflexivity.
Defined.

(** C2, counterexample: after a drag over a filtered list has left two
    tasks with the order 0, a click on Clear Completed when no task is
    completed returns at once, and the orders stay 0 and 0. *)
Lemma C2_counterexample_clear_without_completed :
  map order
    (tasks (exec (clearAllBtn_click (host := Ref.host))
                 (Ex.dragged (host := Ref.host)))) = [0; 0]
  /\ ~ ordersContiguous
       (tasks (exec (clearAllBtn_click (host := Ref.host))
                    (Ex.dragged (host := Ref.host)))).
Proof.
  split; [reflexivity|].
  unfold ordersContiguous. simpl. intros H.
  assert (Hin : In 1 [0; 0]).
  { eapply Permutation_in; [symmetry; exact H|]. simpl. auto. }
  simpl in Hin. lia.
Qed.

Lemma mapi_from_forgetOrder (l : list Task) (k : nat) :
  map forgetOrder (mapi_from k (fun t i => set_order t (Z.of_nat i)) l)
  = map forgetOrder l.
Proof.
  revert k. induction l as [|x l IH]; intros k; simpl; [reflexivity|].
  now rewrite IH.
Qed.

Lemma reindex_same_tasks (ts : list Task) :
  Permutation
    (map forgetOrder
       (mapi (fun t i => set_order t (Z.of_nat i)) (JS.sort byOrder ts)))
    (map forgetOrder ts).
Proof.
  unfold mapi. rewrite mapi_from_forgetOrder.
  apply Permutation_map, sort_perm.
Qed.

Lemma reindex_length (ts : list Task) :
  List.length (mapi (fun t i => set_order t (Z.of_nat i)) (JS.sort byOrder ts))
  = List.length ts.
Proof. unfold mapi. now rewrite mapi_from_length, sort_length. Qed.

Lemma reindex_completed (ts : list Task) (b : bool) :
  Forall (fun t => completed t = b) ts ->
  Forall (fun t => completed t = b)
         (mapi (fun t i => set_order t (Z.of_nat i)) (JS.sort byOrder ts)).
Proof.
  intros H. apply Forall_forall. intros t Ht.
  assert (Hin : In (forgetOrder t) (map forgetOrder ts)).
  { eapply Permutation_in; [apply reindex_same_tasks|]. now apply in_map. }
  apply in_map_iff in Hin. destruct Hin as [t' [E Hin]].
  rewrite Forall_forall in H. specialize (H t' Hin).
  apply (f_equal completed) in E. simpl in E. congruence.
Qed.

Lemma filter_keeps_all (i : string) (ts : list Task) :
  ~ In i (map id ts) ->
  List.filter (fun t => negb (String.eqb (id t) i)) ts = ts.
Proof.
  induction ts as [|t ts IH]; simpl; intros H; [reflexivity|].
  destruct (String.eqb_spec (id t) i) as [E|E]; simpl.
  - exfalso. apply H. now left.
  - f_equal. apply IH. intros Hin. apply H. now right.
Qed.

Section Clearing.
Context {host : Host}.

(** C7 (as amended). A click on Clear Completed never fails. When some
    task is completed it removes exactly the completed tasks, renumbers
    the survivors 0, ..., N-1 in their prior relative order and writes the
    collection to the storage; the number of tasks removed is the number
    of completed ones. When no task is completed it returns at once,
    leaving the collection, its order values and the storage as they
    were. The handler itself returns no count. *)
Theorem C7_clear_completed (s : App) :
  let s' := exec clearAllBtn_click s in
  fst (clearAllBtn_click s) = Ok tt
  /\
  (existsb (fun t => completed t) (tasks s) = true ->
   renumbered (List.filter (fun t => negb (completed t)) (tasks s)) (tasks s')
   /\ Forall (fun t => completed t = false) (tasks s')
   /\ ordersContiguous (tasks s')
   /\ storage s' = Some (JSON_stringify (tasksJSON (tasks s')))
   /\ (List.length (tasks s') +
       List.length (List.filter (fun t => completed t) (tasks s))
       = List.length (tasks s))%nat)
  /\
  (existsb (fun t => completed t) (tasks s) = false -> s' = s).
Proof.
  unfold exec. rewrite clearAllBtn_click_run. simpl.
  split; [reflexivity|]. split; intros Hc; rewrite Hc; [|reflexivity].
  simpl. split; [apply reindex_renumbered|].
  split.
  { apply reindex_completed. apply Forall_forall. intros t Ht.
    apply filter_In in Ht. destruct Ht as [_ Ht].
    now destruct (completed t). }
  split; [apply reindex_contiguous|]. split; [reflexivity|].
  rewrite reindex_length, Nat.add_comm. apply filter_length.
Qed.

(** C10. [deleteTask] with an id that no task has succeeds and keeps
    every task, yet sorts the collection by order, renumbers it 0, ...,
    N-1 and writes it to the storage; and there is a collection (two
    tasks left with the order 0 by a drag over a filtered list) whose
    order values such a call changes. *)
Theorem C10_delete_unknown_id_renumbers :
  (forall (s : App) (i : string),
      ~ In i (map id (tasks s)) ->
      let s' := exec (deleteTask i) s in
      fst (deleteTask i s) = Ok tt
      /\ Permutation (map forgetOrder (tasks s')) (map forgetOrder (tasks s))
      /\ tasks s' = mapi (fun t k => set_order t (Z.of_nat k))
                         (JS.sort byOrder (tasks s))
      /\ renumbered (tasks s) (tasks s')
      /\ map order (tasks s') = map Z.of_nat (seq 0 (List.length (tasks s)))
      /\ storage s' = Some (JSON_stringify (tasksJSON (tasks s'))))
  /\
  (exists (s : App) (i : string),
      ~ In i (map id (tasks s))
      /\ map order (tasks s) = [0; 0]
      /\ map order (tasks (exec (deleteTask i) s)) = [0; 1]).
Proof.
  split.
  - intros s i Hi. unfold exec. rewrite deleteTask_run. simpl.
    rewrite (filter_keeps_all i (tasks s) Hi).
    split; [reflexivity|]. split; [apply reindex_same_tasks|].
    split; [reflexivity|]. split; [apply reindex_renumbered|].
    split; [|reflexivity].
    unfold mapi. now rewrite mapi_from_orders, sort_length.
  - exists Ex.dragged, "zz".
    split; [|split; reflexivity].
    simpl. intros [H|[H|[]]]; discriminate.
Qed.

End Clearing.

(** C7, witness: one completed task among three. *)
Lemma C7_clear_completed_witness :
  existsb (fun t => completed t) Ex.gapDone = true /\
  map id (tasks (exec (clearAllBtn_click (host := Ref.host))
                      (Ex.app Ex.gapDone "manual" None))) = ["a"; "c"] /\
  storage (exec (clearAllBtn_click (host := Ref.host))
                (Ex.app Ex.gapDone "manual" None))
  = Some (JSON_stringify (Host := Ref.host)
            (tasksJSON
               (tasks (exec (clearAllBtn_click (host := Ref.host))
                            (Ex.app Ex.gapDone "manual" None))))).
Proof.
  split; [reflexivity|]. split; [reflexivity|].
  apply (proj1 (proj2 (C7_clear_completed (host := Ref.host)
                         (Ex.app Ex.gapDone "manual" None)))).
  reflexivity.
Defined.

(** C7, counterexample: with no completed task nothing is written and
    nothing is renumbered. On a first run (no task, empty storage) the
    storage stays empty; after a drag over a filtered list has left two
    tasks with the order 0, the orders stay 0 and 0. *)
Lemma C7_counterexample_nothing_written :
  storage (exec (clearAllBtn_click (host := Ref.host))
                (Ex.app [] "manual" None)) = None
  /\ map order
       (tasks (exec (clearAllBtn_click (host := Ref.host))
                    (Ex.dragged (host := Ref.host)))) = [0; 0].
Proof. split; reflexivity. Qed.

(** C10, witness: deleting an id that is not there renumbers 0, 2 into
    0, 1. *)
Lemma C10_delete_unknown_id_witness :
  ~ In "zz" (map id Ex.gap) /\
  map order (tasks (exec (deleteTask (host := Ref.host) "zz")
                         (Ex.app Ex.gap "manual" None))) = [0; 1].
Proof.
  assert (H : ~ In "zz" (map id (tasks (Ex.app Ex.gap "manual" None)))).
  { simpl. intros [H|[H|[]]]; discriminate. }
  split; [exact H|].
  destruct (proj1 (C10_delete_unknown_id_renumbers (host := Ref.host))
              (Ex.app Ex.gap "manual" None) "zz" H)
    as (_ & _ & _ & _ & Horders & _).
  exact Horders.
Defined.

(* ================================================================= *)
(** ** Updating a task *)

Lemma findIndex_None {A} (p : A -> bool) (l : list A) :
  (forall x, In x l -> p x = false) -> findIndex p l = None.
Proof.
  induction l as [|x l IH]; simpl; intros H; [reflexivity|].
  rewrite (H x) by now left. rewrite IH; [reflexivity|].
  intros y Hy. apply H. now right.
Qed.

Lemma findIndex_Some {A} (p : A -> bool) (l : list A) :
  (exists x, In x l /\ p x = true) ->
  exists front x back,
    l = (front ++ x :: back)%list /\ p x = true /\
    (forall y, In y front -> p y = false) /\
    findIndex p l = Some (List.length front).
Proof.
  induction l as [|x l IH]; intros [y [Hy Py]]; [destruct Hy|].
  simpl. destruct (p x) eqn:Px.
  - exists [], x, l. repeat split; auto. intros ? [].
  - destruct IH as (front & z & back & -> & Pz & Hfront & Hfind).
    { destruct Hy as [<-|Hy]; [congruence|]. now exists y. }
    exists (x :: front), z, back. rewrite Hfind. repeat split; auto.
    intros w [<-|Hw]; auto.
Qed.

Lemma setAt_middle {A} (front back : list A) (x v : A) :
  setAt (List.length front) v (front ++ x :: back)%list
  = (front ++ v :: back)%list.
Proof. induction front as [|y front IH]; simpl; [reflexivity|]. now rewrite IH. Qed.

Lemma nth_error_middle {A} (front back : list A) (x : A) :
  nth_error (front ++ x :: back)%list (List.length front) = Some x.
Proof. induction front as [|y front IH]; simpl; auto. Qed.

Section Update.
Context {host : Host}.

Lemma updateTask_absent (i : string) (p : Patch) (r : bool) (s : App) :
  ~ In i (map id (tasks s)) -> updateTask i p r s = (Ok tt, s).
Proof.
  intros H. unfold updateTask, bind, gets. simpl.
  rewrite findIndex_None; [reflexivity|].
  intros x Hx. apply String.eqb_neq. intros E. apply H.
  rewrite <- E. now apply in_map.
Qed.

Lemma updateTask_present (i : string) (p : Patch) (r : bool) (s : App) :
  In i (map id (tasks s)) ->
  exists front t back,
    tasks s = (front ++ t :: back)%list /\ id t = i /\ ~ In i (map id front) /\
    updateTask i p r s =
    (Ok tt,
     let ts := (front ++ spread t p :: back)%list in
     mkApp ts (view s) (Some (JSON_stringify (tasksJSON ts))) (random36 s)
           (randoms s) (clock s) (ticks s)
           (if r then RenderList :: ui s else ui s)).
Proof.
  intros H. apply in_map_iff in H. destruct H as [x [Hx Hin]].
  destruct (findIndex_Some (fun t => String.eqb (id t) i) (tasks s))
    as (front & t & back & Hsplit & Pt & Hfront & Hfind).
  { exists x. split; [assumption|]. now apply String.eqb_eq. }
  exists front, t, back. apply String.eqb_eq in Pt.
  split; [assumption|]. split; [assumption|]. split.
  - intros Hi. apply in_map_iff in Hi. destruct Hi as [y [Ey Hy]].
    specialize (Hfront y Hy). apply String.eqb_neq in Hfront. contradiction.
  - unfold updateTask, bind, gets. simpl. rewrite Hfind, Hsplit.
    rewrite nth_error_middle, setAt_middle. simpl.
    destruct r; reflexivity.
Qed.

(** C8 (as amended). [updateTask] with an id that no task has changes
    nothing at all: it returns before any assignment, write or re-render.
    It signals nothing: the call returns as it does for an id that is
    present, with the value of a function that returns none. With an id
    that is
    present and a patch holding only [title], [due] or [completed], the
    first task of that id is replaced by the merged record, whose [id],
    [order] and [createdAt] are those it had; every other task is the same
    and stays in place; the collection is then written to the storage. *)
Theorem C8_update_frame (s : App) (i : string) (p : Patch) (r : bool) :
  (~ In i (map id (tasks s)) -> updateTask i p r s = (Ok tt, s))
  /\
  (In i (map id (tasks s)) ->
   p_id p = None -> p_createdAt p = None -> p_order p = None ->
   let s' := exec (updateTask i p r) s in
   fst (updateTask i p r s) = Ok tt /\
   exists front t back,
     tasks s = (front ++ t :: back)%list /\ id t = i /\ ~ In i (map id front) /\
     tasks s' = (front ++ spread t p :: back)%list /\
     id (spread t p) = id t /\
     order (spread t p) = order t /\
     createdAt (spread t p) = createdAt t /\
     storage s' = Some (JSON_stringify (tasksJSON (tasks s')))).
Proof.
  split; [apply updateTask_absent|].
  intros Hin Hid Hcreated Horder s'.
  destruct (updateTask_present i p r s Hin)
    as (front & t & back & Hsplit & Ht & Hfront & Hrun).
  subst s'. unfold exec. rewrite Hrun. simpl. split; [reflexivity|].
  exists front, t, back. unfold spread. rewrite Hid, Hcreated, Horder. simpl.
  repeat split; auto.
Qed.

(** C3 (as amended). The guard against an empty title is in the two
    handlers that take the text of an input. A click on Add Task, and a
    click on Save in the editor of any task, with a title that trims to
    the empty string only put the focus back on the input: no task is
    added or modified and nothing is written to the storage. *)
Theorem C3_blank_title_rejected (s : App) (titleValue dateValue : string) :
  trim titleValue = "" ->
  (addBtn_click titleValue dateValue s
   = (Ok tt, with_ui (FocusTitleInput :: ui s) s)
   /\ tasks (exec (addBtn_click titleValue dateValue) s) = tasks s
   /\ storage (exec (addBtn_click titleValue dateValue) s) = storage s)
  /\
  (forall i,
      save_click i titleValue dateValue s
      = (Ok tt, with_ui (FocusEditInput :: ui s) s)
      /\ tasks (exec (save_click i titleValue dateValue) s) = tasks s
      /\ storage (exec (save_click i titleValue dateValue) s) = storage s).
Proof.
  intros H. unfold exec, addBtn_click, save_click. rewrite H. simpl.
  repeat split.
Qed.

End Update.

(** C8, witness: completing the second of three tasks, and an id that is
    not there. *)
Lemma C8_update_frame_witness :
  ~ In "zz" (map id Ex.gapDone) /\
  In "b" (map id Ex.gapDone) /\
  updateTask (host := Ref.host) "zz" Ex.done true
             (Ex.app Ex.gapDone "manual" None)
  = (Ok tt, Ex.app Ex.gapDone "manual" None) /\
  fst (updateTask (host := Ref.host) "b" Ex.done true
                  (Ex.app Ex.gapDone "manual" None)) = Ok tt.
Proof.
  assert (Hzz : ~ In "zz" (map id (tasks (Ex.app Ex.gapDone "manual" None)))).
  { simpl. intros [H|[H|[H|[]]]]; discriminate. }
  assert (Hb : In "b" (map id (tasks (Ex.app Ex.gapDone "manual" None)))).
  { simpl. auto. }
  split; [exact Hzz|]. split; [exact Hb|]. split.
  - exact (proj1 (C8_update_frame (host := Ref.host)
                    (Ex.app Ex.gapDone "manual" None) "zz" Ex.done true) Hzz).
  - exact (proj1 (proj2 (C8_update_frame (host := Ref.host)
                    (Ex.app Ex.gapDone "manual" None) "b" Ex.done true)
                   Hb eq_refl eq_refl eq_refl)).
Defined.

(** C8, counterexample: no signal tells an unknown id from a known one.
    In a state whose storage holds the collection, [updateTask] with an
    id that no task has and [updateTask] with the id and the text of the
    first task, called as the Save handler calls it, return the same
    value, throw nothing and leave the same state. *)
Lemma C8_counterexample_no_signal :
  ~ In "zz" (map id (tasks Ex.stored)) /\
  In "a" (map id (tasks Ex.stored)) /\
  updateTask (host := Ref.host) "zz" Ex.sameText false Ex.stored
  = (Ok tt, Ex.stored) /\
  updateTask (host := Ref.host) "a" Ex.sameText false Ex.stored
  = (Ok tt, Ex.stored).
Proof.
  split; [simpl; intros [H|[H|[]]]; discriminate|].
  split; [simpl; auto|]. split; vm_compute; reflexivity.
Qed.

(** C3, witness: a title of two spaces. *)
Lemma C3_blank_title_witness :
  trim "  " = "" /\
  tasks (exec (addBtn_click (host := Ref.host) "  " "2024-01-10")
              (Ex.app Ex.gap "manual" None)) = Ex.gap.
Proof.
  split; [reflexivity|].
  exact (proj1 (proj2 (proj1 (C3_blank_title_rejected (host := Ref.host)
           (Ex.app Ex.gap "manual" None) "  " "2024-01-10" eq_refl)))).
Defined.

(** C3, counterexample: [updateTask] itself checks nothing. Given the
    patch [{title: "  "}] it stores the blank title and writes the
    collection. *)
Lemma C3_counterexample_updateTask_unchecked :
  trim "  " = "" /\
  map title
    (tasks (exec (updateTask (host := Ref.host) "a" Ex.blankTitle true)
                 (Ex.app Ex.gap "manual" None))) = ["  "; "C"] /\
  tasks (exec (updateTask (host := Ref.host) "a" Ex.blankTitle true)
              (Ex.app Ex.gap "manual" None)) <> Ex.gap /\
  storage (exec (updateTask (host := Ref.host) "a" Ex.blankTitle true)
                (Ex.app Ex.gap "manual" None)) <> None.
Proof.
  split; [reflexivity|]. split; [reflexivity|]. split; discriminate.
Qed.

(* ================================================================= *)
(** ** Creating a task *)

Lemma toDouble_exact (z : Z) : - 2 ^ 53 <= z <= 2 ^ 53 -> toDouble z = z.
Proof.
  intros H. unfold toDouble.
  destruct (Z.eq_dec (Z.abs z) (2 ^ 53)) as [E|E].
  - assert (Hz : z = 2 ^ 53 \/ z = - 2 ^ 53) by lia.
    destruct Hz as [-> | ->]; reflexivity.
  - assert (Hlog : Z.log2 (Z.abs z) < 53).
    { destruct (Z.eq_dec z 0) as [->|Hz0]; [reflexivity|].
      apply Z.log2_lt_pow2; lia. }
    destruct (Z.leb_spec (Z.log2 (Z.abs z) - 52) 0); [reflexivity|lia].
Qed.

Lemma add_one_exact (m : Z) : safeInteger m -> add m 1 = m + 1.
Proof. intros H. apply toDouble_exact. unfold safeInteger in H. lia. Qed.

Lemma Math_max_spec (xs : list Z) (x : Z) :
  let m := Math_max x xs in
  (m = x \/ In m xs) /\ x <= m /\ (forall y, In y xs -> y <= m).
Proof.
  unfold Math_max. revert x.
  induction xs as [|y xs IH]; intros x; simpl.
  - split; [now left|]. split; [lia|]. intros ? [].
  - destruct (IH (Z.max x y)) as (Hm & Hle & Hall).
    split; [|split].
    + destruct Hm as [Hm|Hm]; [|now right; right].
      destruct (Z.max_spec x y) as [[_ E]|[_ E]]; rewrite E in *; auto.
    + lia.
    + intros z [<-|Hz]; [lia|auto].
Qed.

Section Create.
Context {host : Host}.

Lemma addTask_run (title due : string) (s : App) :
  addTask title due s =
  (Ok tt,
   let ts := (tasks s ++ [newTask title due s])%list in
   mkApp ts (view s) (Some (JSON_stringify (tasksJSON ts))) (random36 s)
         (S (randoms s)) (clock s) (S (S (ticks s))) (RenderList :: ui s)).
Proof. reflexivity. Qed.

Lemma newTask_order (title due : string) (s : App) :
  (tasks s = [] -> order (newTask title due s) = 0) /\
  (tasks s <> [] ->
   exists x,
     In x (tasks s) /\
     (forall y, In y (tasks s) -> order y <= order x) /\
     order (newTask title due s) = add (order x) 1 /\
     (safeInteger (order x) ->
      order (newTask title due s) = order x + 1 /\
      (forall y, In y (tasks s) -> order y < order (newTask title due s)))).
Proof.
  unfold newTask. cbn [order]. destruct (tasks s) as [|x rest].
  - split; [reflexivity|]. intros H. now elim H.
  - split; [discriminate|]. intros _.
    destruct (Math_max_spec (map order rest) (order x)) as (Hm & Hle & Hall).
    set (m := Math_max (order x) (map order rest)) in *.
    assert (Hx : exists z, In z (x :: rest) /\ order z = m).
    { destruct Hm as [Hm|Hm].
      - exists x. split; [now left|now symmetry].
      - apply in_map_iff in Hm. destruct Hm as [z [Ez Hz]].
        exists z. split; [now right|exact Ez]. }
    destruct Hx as [z [Hz Ez]]. exists z.
    assert (Hmax : forall y, In y (x :: rest) -> order y <= m).
    { intros y [<-|Hy]; [exact Hle|].
      exact (Hall (order y) (in_map order rest y Hy)). }
    rewrite Ez. split; [exact Hz|]. split; [exact Hmax|].
    split; [reflexivity|]. intros Hsafe.
    rewrite (add_one_exact m Hsafe). split; [reflexivity|].
    intros y Hy. specialize (Hmax y Hy). lia.
Qed.

(** C5 (as amended). [addTask] always succeeds. It appends one task
    whose id is what [uid] draws (the digits of the next random number
    after its first two characters, then the next clock reading, in base
    36), whose creation date is the clock reading that follows, which is
    not completed, and whose order is 0 in an empty collection and
    otherwise [max + 1] as doubles add, [max] being the largest order
    present: one more than [max], and so larger than every order present,
    when [max] is a safe integer (of magnitude below 2^53). The ids stay
    pairwise distinct when the drawn id is not already in use; the
    program does not check it. The collection is then written to the
    storage; the function returns nothing. *)
Theorem C5_addTask_appends (s : App) (title0 due0 : string) :
  let s' := exec (addTask title0 due0) s in
  fst (addTask title0 due0 s) = Ok tt /\
  exists t,
    tasks s' = (tasks s ++ [t])%list /\
    id t = slice 2 (random36 s (randoms s)) ++ toString36 (clock s (ticks s)) /\
    title t = title0 /\ due t = due0 /\ completed t = false /\
    createdAt t = Date_toISOString (clock s (S (ticks s))) /\
    (tasks s = [] -> order t = 0) /\
    (tasks s <> [] ->
     exists x,
       In x (tasks s) /\
       (forall y, In y (tasks s) -> order y <= order x) /\
       order t = add (order x) 1 /\
       (safeInteger (order x) ->
        order t = order x + 1 /\
        (forall y, In y (tasks s) -> order y < order t))) /\
    (NoDup (map id (tasks s)) -> ~ In (id t) (map id (tasks s)) ->
     NoDup (map id (tasks s'))) /\
    storage s' = Some (JSON_stringify (tasksJSON (tasks s'))).
Proof.
  intros s'. subst s'. unfold exec. rewrite addTask_run. cbv zeta.
  cbn [fst snd tasks storage].
  split; [reflexivity|]. exists (newTask title0 due0 s).
  destruct (newTask_order title0 due0 s) as [H0 H1].
  split; [reflexivity|]. split; [reflexivity|]. split; [reflexivity|].
  split; [reflexivity|]. split; [reflexivity|]. split; [reflexivity|].
  split; [exact H0|]. split; [exact H1|]. split; [|reflexivity].
  intros Hnd Hfresh. rewrite map_app. simpl.
  apply NoDup_incl_NoDup with (l := (id (newTask title0 due0 s) :: map id (tasks s))).
  - now constructor.
  - rewrite length_app. simpl. lia.
  - intros x [<-|Hx]; apply in_or_app; [right; now left|now left].
Qed.

End Create.

(** C5, witness: a task added to two tasks of orders 0 and 2 whose ids
    differ from the drawn one. *)
Lemma C5_addTask_witness :
  NoDup (map id Ex.gap) /\
  map order (tasks (exec (addTask (host := Ref.host) "D" "")
                         (Ex.app Ex.gap "manual" None))) = [0; 2; 3] /\
  NoDup (map id (tasks (exec (addTask (host := Ref.host) "D" "")
                             (Ex.app Ex.gap "manual" None)))).
Proof.
  assert (Hnd : NoDup (map id (tasks (Ex.app Ex.gap "manual" None)))).
  { simpl. repeat constructor; simpl; intuition discriminate. }
  split; [exact Hnd|]. split; [reflexivity|].
  destruct (C5_addTask_appends (host := Ref.host)
              (Ex.app Ex.gap "manual" None) "D" "")
    as (_ & t & Ht & Hid & _ & _ & _ & _ & _ & _ & Hfresh & _).
  apply Hfresh; [exact Hnd|].
  rewrite Hid. simpl. intuition discriminate.
Defined.

(** C5, counterexample: when the random source and the clock answer a
    second call as they answered the first, two tasks get the same id. *)
Lemma C5_counterexample_same_id_twice :
  map id
    (tasks (exec (addTask (host := Ref.host) "second" "")
              (exec (addTask (host := Ref.host) "first" "")
                    (Ex.app [] "manual" None))))
  = ["4fzyo82mvyrlr70kqrf"; "4fzyo82mvyrlr70kqrf"]
  /\ ~ NoDup
       (map id
          (tasks (exec (addTask (host := Ref.host) "second" "")
                    (exec (addTask (host := Ref.host) "first" "")
                          (Ex.app [] "manual" None))))).
Proof.
  split; [reflexivity|].
  intros H. simpl in H. inversion H as [|? ? Hin _]; subst.
  apply Hin. now left.
Qed.

(** Beyond the safe integers the sum [max + 1] is rounded. A task of
    order 2^53, as [loadTasks] keeps it from the storage, is followed by
    a new task of the same order; of order 2^53 + 2, by one of order
    2^53 + 4. *)
Lemma addTask_order_beyond_safe_integers :
  ~ safeInteger (2 ^ 53) /\
  map order
    (tasks (exec (addTask (host := Ref.host) "D" "")
              (Ex.app [mkTask "a" "A" "" false Ex.created (2 ^ 53)]
                      "manual" None)))
  = [2 ^ 53; 2 ^ 53] /\
  map order
    (tasks (exec (addTask (host := Ref.host) "D" "")
              (Ex.app [mkTask "a" "A" "" false Ex.created (2 ^ 53 + 2)]
                      "manual" None)))
  = [2 ^ 53 + 2; 2 ^ 53 + 4].
Proof.
  split; [unfold safeInteger; lia|]. split; vm_compute; reflexivity.
Qed.

(* ================================================================= *)
(** ** Reordering by drag and drop *)

Lemma set_order_twice (t : Task) (a b : Z) :
  set_order (set_order t a) b = set_order t b.
Proof. reflexivity. Qed.

Lemma assignOrder_ids (i : string) (index : Z) (ts : list Task) :
  map id (assignOrder i index ts) = map id ts.
Proof.
  induction ts as [|t ts IH]; simpl; [reflexivity|].
  destruct (String.eqb (id t) i); simpl; [reflexivity|]. now rewrite IH.
Qed.

Lemma assignOrder_absent (i : string) (index : Z) (ts : list Task) :
  ~ In i (map id ts) -> assignOrder i index ts = ts.
Proof.
  induction ts as [|t ts IH]; simpl; intros H; [reflexivity|].
  destruct (String.eqb_spec (id t) i) as [E|E].
  - exfalso. apply H. now left.
  - f_equal. apply IH. intros Hin. apply H. now right.
Qed.

Lemma assignOrder_nth (i : string) (index : Z) (ts : list Task) (k : nat)
  (t : Task) :
  nth_error ts k = Some t ->
  nth_error (assignOrder i index ts) k
  = Some (if String.eqb (id t) i && firstOfId ts k t
          then set_order t index else t).
Proof.
  unfold firstOfId. revert k.
  induction ts as [|x ts IH]; intros k Hk; [destruct k; discriminate|].
  destruct k as [|k]; simpl in Hk.
  - injection Hk as ->. simpl. rewrite andb_true_r.
    now destruct (String.eqb (id t) i).
  - simpl. destruct (String.eqb_spec (id x) i) as [Ex|Ex]; simpl.
    + rewrite Hk. f_equal.
      destruct (String.eqb_spec (id t) i) as [Et|Et]; [|reflexivity].
      rewrite Et, <- Ex, String.eqb_refl. reflexivity.
    + rewrite (IH k Hk). f_equal.
      destruct (String.eqb_spec (id t) i) as [Et|Et]; [|reflexivity].
      simpl. destruct (String.eqb_spec (id t) (id x)) as [E|E];
        [congruence|reflexivity].
Qed.

Lemma assignOrders_ids (ids : list string) (index : nat) (ts : list Task) :
  map id (assignOrders index ids ts) = map id ts.
Proof.
  revert index ts. induction ids as [|i ids IH]; intros index ts; simpl;
    [reflexivity|].
  now rewrite IH, assignOrder_ids.
Qed.

Lemma assignOrders_absent (ids : list string) (index : nat) (ts : list Task) :
  (forall i, In i ids -> ~ In i (map id ts)) -> assignOrders index ids ts = ts.
Proof.
  revert index. induction ids as [|i ids IH]; intros index H; simpl;
    [reflexivity|].
  rewrite assignOrder_absent by (apply H; now left).
  apply IH. intros j Hj. apply H. now right.
Qed.

(** What the loop of the drag handler leaves at each position. *)
Lemma assignOrders_nth (ids : list string) (index : nat) (ts : list Task)
  (k : nat) (t : Task) :
  nth_error ts k = Some t ->
  nth_error (assignOrders index ids ts) k
  = Some (if firstOfId ts k t then retag index ids t else t).
Proof.
  revert index ts t. induction ids as [|i ids IH]; intros index ts t Hk.
  - simpl. rewrite Hk. now destruct (firstOfId ts k t).
  - simpl. pose proof (assignOrder_nth i (Z.of_nat index) ts k t Hk) as H1.
    rewrite (IH (S index) _ _ H1).
    assert (Hsame : forall t', id t' = id t ->
              firstOfId (assignOrder i (Z.of_nat index) ts) k t'
              = firstOfId ts k t).
    { intros t' E. unfold firstOfId. now rewrite assignOrder_ids, E. }
    destruct (firstOfId ts k t) eqn:F.
    + rewrite andb_true_r.
      destruct (String.eqb (id t) i); now rewrite Hsame.
    + rewrite andb_false_r. now rewrite Hsame.
Qed.

Lemma firstOfId_unique (ts : list Task) (k : nat) (t : Task) :
  NoDup (map id ts) -> nth_error ts k = Some t -> firstOfId ts k t = true.
Proof.
  intros Hnd Hk. unfold firstOfId. apply negb_true_iff.
  destruct (existsb (String.eqb (id t)) (firstn k (map id ts))) eqn:E;
    [exfalso|reflexivity].
  apply existsb_exists in E. destruct E as [x [Hx Ex]].
  apply String.eqb_eq in Ex. subst x.
  apply In_nth_error in Hx. destruct Hx as [j Hj].
  assert (Hjk : (j < k)%nat).
  { assert (Hl : (j < List.length (firstn k (map id ts)))%nat)
      by (apply nth_error_Some; congruence).
    rewrite length_firstn in Hl. lia. }
  rewrite nth_error_firstn in Hj.
  destruct (j <? k)%nat eqn:Hlt; [|discriminate].
  assert (Hk' : nth_error (map id ts) k = Some (id t)) by now apply map_nth_error.
  assert (Hlen : (j < List.length (map id ts))%nat).
  { apply nth_error_Some. congruence. }
  pose proof (proj1 (NoDup_nth_error (map id ts)) Hnd j k Hlen) as Huniq.
  rewrite Hj, Hk' in Huniq. specialize (Huniq eq_refl). lia.
Qed.

Lemma retag_forgetOrder (ids : list string) (index : nat) (t : Task) :
  forgetOrder (retag index ids t) = forgetOrder t.
Proof.
  revert index t. induction ids as [|i ids IH]; intros index t; simpl;
    [reflexivity|].
  rewrite IH. now destruct (String.eqb (id t) i).
Qed.

Lemma retag_absent (ids : list string) (index : nat) (t : Task) :
  ~ In (id t) ids -> retag index ids t = t.
Proof.
  revert index. induction ids as [|i ids IH]; intros index H; simpl;
    [reflexivity|].
  destruct (String.eqb_spec (id t) i) as [E|E].
  - exfalso. apply H. now left.
  - apply IH. intros Hin. apply H. now right.
Qed.

Lemma retag_last (ids : list string) (index j : nat) (t : Task) :
  nth_error ids j = Some (id t) ->
  (forall j', (j < j')%nat -> nth_error ids j' <> Some (id t)) ->
  retag index ids t = set_order t (Z.of_nat (index + j)).
Proof.
  revert index j t. induction ids as [|i ids IH]; intros index j t Hj Hlast.
  - destruct j; discriminate.
  - simpl. destruct j as [|j]; simpl in Hj.
    + injection Hj as ->. rewrite String.eqb_refl.
      rewrite retag_absent; [now rewrite Nat.add_0_r|].
      simpl. intros Hin. apply In_nth_error in Hin. destruct Hin as [k Hk].
      apply (Hlast (S k)); [lia|exact Hk].
    + assert (Hrest : forall t', id t' = id t ->
                retag (S index) ids t' = set_order t' (Z.of_nat (S index + j))).
      { intros t' E. apply IH; rewrite E; [exact Hj|].
        intros j' Hlt. apply (Hlast (S j')). lia. }
      replace (index + S j)%nat with (S index + j)%nat by lia.
      destruct (String.eqb (id t) i).
      * rewrite Hrest by reflexivity. apply set_order_twice.
      * now apply Hrest.
Qed.

Section Reorder.
Context {host : Host}.

Lemma dragend_run (ids : list string) (s : App) :
  fst (dragend ids s) = Ok tt /\
  tasks (exec (dragend ids) s) = assignOrders 0 ids (tasks s) /\
  storage (exec (dragend ids) s)
  = Some (JSON_stringify (tasksJSON (assignOrders 0 ids (tasks s)))).
Proof.
  unfold exec, dragend, bind, gets, modify, saveTasks, localStorage_setItem.
  simpl. destruct (String.eqb (state.sort (view s)) "manual"); auto.
Qed.

(** C6. The drag handler, given any sequence [ids], never fails and
    keeps every task in place with all its fields but [order]. The task
    that matches an id of [ids] (the first of the collection with this
    id, which [tasks.find] returns; with unique ids, any task with this
    id) gets as order the position of the id in [ids], the last one if
    the id is repeated there. A task whose id is not in [ids] keeps its
    order, and ids that no task has change nothing. The collection with
    the new orders is then written to the storage. *)
Theorem C6_dragend_assigns_positions (s : App) (ids : list string) :
  let s' := exec (dragend ids) s in
  fst (dragend ids s) = Ok tt /\
  List.length (tasks s') = List.length (tasks s) /\
  (forall k t,
      nth_error (tasks s) k = Some t ->
      exists t',
        nth_error (tasks s') k = Some t' /\
        forgetOrder t' = forgetOrder t /\
        (forall j,
            firstOfId (tasks s) k t = true ->
            nth_error ids j = Some (id t) ->
            (forall j', (j < j')%nat -> nth_error ids j' <> Some (id t)) ->
            order t' = Z.of_nat j) /\
        (~ In (id t) ids -> t' = t) /\
        (firstOfId (tasks s) k t = false -> t' = t)) /\
  (NoDup (map id (tasks s)) ->
   forall k t, nth_error (tasks s) k = Some t -> firstOfId (tasks s) k t = true)
  /\
  ((forall i, In i ids -> ~ In i (map id (tasks s))) -> tasks s' = tasks s) /\
  storage s' = Some (JSON_stringify (tasksJSON (tasks s'))).
Proof.
  intros s'. subst s'.
  destruct (dragend_run ids s) as (Hok & Htasks & Hstored).
  rewrite Hstored, Htasks.
  split; [exact Hok|]. split; [|split; [|split; [|split]]].
  - rewrite <- (length_map id), assignOrders_ids. apply length_map.
  - intros k t Hk.
    exists (if firstOfId (tasks s) k t then retag 0 ids t else t).
    split; [now apply assignOrders_nth|].
    destruct (firstOfId (tasks s) k t).
    + split; [apply retag_forgetOrder|]. split; [|split].
      * intros j _ Hj Hlast. now rewrite (retag_last ids 0 j t Hj Hlast).
      * apply retag_absent.
      * discriminate.
    + split; [reflexivity|]. split; [discriminate|]. split; reflexivity.
  - intros Hnd k t Hk. now apply firstOfId_unique.
  - apply assignOrders_absent.
  - reflexivity.
Qed.

End Reorder.

(** C6, witness: the gesture leaves [c], an unknown id, then [a]; the task
    [b] is not in the list shown. *)
Lemma C6_dragend_witness :
  NoDup (map id Ex.gapDone) /\
  map order (tasks (exec (dragend (host := Ref.host) ["c"; "zz"; "a"])
                         (Ex.app Ex.gapDone "dueAsc" None))) = [2; 1; 0] /\
  firstOfId Ex.gapDone 2 (mkTask "c" "C" "" false Ex.created 2) = true.
Proof.
  assert (Hnd : NoDup (map id (tasks (Ex.app Ex.gapDone "dueAsc" None)))).
  { simpl. repeat constructor; simpl; intuition discriminate. }
  split; [exact Hnd|]. split; [reflexivity|].
  destruct (C6_dragend_assigns_positions (host := Ref.host)
              (Ex.app Ex.gapDone "dueAsc" None) ["c"; "zz"; "a"])
    as (_ & _ & _ & Hfirst & _).
  apply (Hfirst Hnd 2%nat). reflexivity.
Defined.

(* ================================================================= *)
(** ** Loading and saving *)

Lemma getProp_prop (t : JSON) (k : string) :
  t <> JNull -> getProp t k = Ok (prop t k).
Proof. destruct t; simpl; congruence. Qed.

Lemma JSON_eq_null (t : JSON) : t = JNull \/ t <> JNull.
Proof. destruct t; [now left|right; discriminate..]. Qed.

Lemma advances_refl (s : App) : advances s s.
Proof. unfold advances. repeat split; auto. Qed.

Lemma advances_trans (s1 s2 s3 : App) :
  advances s1 s2 -> advances s2 s3 -> advances s1 s3.
Proof.
  unfold advances. intros (?&?&?&?&?&?&?&?) (?&?&?&?&?&?&?&?).
  repeat split; try congruence; lia.
Qed.

Section Loading.
Context {host : Host}.

Lemma normalize_nonnull (t : JSON) (i : nat) (s : App) :
  t <> JNull ->
  normalize t i s =
  let pid := prop t "id" in
  let s1 := if truthy pid then s else afterUid s in
  let id' := if truthy pid then orElse pid JNull
             else JStr (slice 2 (random36 s (randoms s))
                        ++ toString36 (clock s (ticks s))) in
  match ToString (orElse (prop t "title") (JStr "")) with
  | None => (Throw, s1)
  | Some text =>
      let pc := prop t "createdAt" in
      let s2 := if truthy pc then s1 else afterClock s1 in
      let created := if truthy pc then orElse pc JNull
                     else JStr (Date_toISOString (clock s1 (ticks s1))) in
      (Ok (Loaded.mk id' (trim text) (orElse (prop t "due") (JStr ""))
                     (truthy (prop t "completed")) created
                     (match prop t "order" with
                      | Some (JNum n) => n
                      | _ => Z.of_nat i
                      end)),
       s2)
  end.
Proof.
  intros Ht. unfold normalize, bind, liftRes.
  rewrite !(getProp_prop t) by assumption.
  destruct (truthy (prop t "id")); simpl;
    destruct (ToString (orElse (prop t "title") (JStr ""))); simpl;
    try reflexivity;
    destruct (truthy (prop t "createdAt")); reflexivity.
Qed.

Lemma normalize_null (i : nat) (s : App) : normalize JNull i s = (Throw, s).
Proof. reflexivity. Qed.

Lemma orElse_truthy (v : option JSON) (d : JSON) :
  truthy v = true -> Some (orElse v d) = v.
Proof.
  destruct v as [x|]; simpl; [|discriminate].
  intros H. unfold orElse. now rewrite H.
Qed.

Lemma normalize_loadable (t : JSON) (i : nat) (s : App) :
  loadable t = true ->
  exists r s',
    normalize t i s = (Ok r, s') /\ advances s s' /\
    normalizedBetween s s' i t r.
Proof.
  intros Hl. assert (Ht : t <> JNull) by (intros ->; discriminate).
  rewrite (normalize_nonnull t i s Ht). cbv zeta.
  assert (Htext : exists text,
             ToString (orElse (prop t "title") (JStr "")) = Some text).
  { unfold loadable in Hl.
    destruct (ToString (orElse (prop t "title") (JStr ""))) as [text|];
      [now exists text|now destruct t]. }
  destruct Htext as [text Htext]. rewrite Htext.
  eexists. eexists. split; [reflexivity|].
  unfold normalizedBetween, advances.
  destruct (truthy (prop t "id")) eqn:Eid;
    destruct (truthy (prop t "createdAt")) eqn:Ecr; simpl;
    (split; [repeat split; auto; lia|]);
    (split; [first [now apply orElse_truthy
                   |exists (randoms s), (ticks s); repeat split; auto; lia]|]);
    (split; [now exists text|]);
    (split; [reflexivity|]); (split; [reflexivity|]);
    (split; [|reflexivity]);
    first [now apply orElse_truthy
          |eexists; split; [|reflexivity]; lia].
Qed.

Lemma normalize_not_loadable (t : JSON) (i : nat) (s : App) :
  loadable t = false -> exists s', normalize t i s = (Throw, s').
Proof.
  intros Hl. destruct (JSON_eq_null t) as [->|Ht].
  - now exists s.
  - rewrite (normalize_nonnull t i s Ht). cbv zeta.
    unfold loadable in Hl.
    destruct (ToString (orElse (prop t "title") (JStr ""))).
    + now destruct t.
    + eexists. reflexivity.
Qed.

End Loading.

Section LoadTasks.
Context {host : Host}.

Lemma normalizedBetween_widen (s0 s s' s1 : App) (i : nat) (t : JSON)
  (r : Loaded.t) :
  advances s0 s -> advances s s' -> advances s' s1 ->
  normalizedBetween s s' i t r -> normalizedBetween s0 s1 i t r.
Proof.
  unfold advances, normalizedBetween.
  intros (_&_&_&Hr0&Hc0&_&Hn0&Ht0) (_&_&_&_&_&_&Hn&Ht) (_&_&_&_&_&_&Hn1&Ht1).
  intros (Hid & Htitle & Hdue & Hdone & Hcreated & Horder).
  rewrite Hr0, Hc0 in *.
  repeat split; auto.
  - destruct (truthy (prop t "id")); [assumption|].
    destruct Hid as (m & n & Hm & Hn' & E). exists m, n.
    repeat split; auto; lia.
  - destruct (truthy (prop t "createdAt")); [assumption|].
    destruct Hcreated as (n & Hn' & E). exists n. split; auto; lia.
Qed.

Lemma load_items_ok (items : list JSON) (k : nat) (s : App) :
  forallb loadable items = true ->
  exists rs s',
    mapiM_from k normalize items s = (Ok rs, s') /\ advances s s' /\
    List.length rs = List.length items /\
    (forall j t r,
        nth_error items j = Some t -> nth_error rs j = Some r ->
        normalizedBetween s s' (k + j) t r).
Proof.
  revert k s. induction items as [|t items IH]; intros k s H; simpl in *.
  - exists [], s. split; [reflexivity|]. split; [apply advances_refl|].
    split; [reflexivity|]. intros j ? ? Hj. destruct j; discriminate.
  - apply andb_true_iff in H. destruct H as [Ht Hitems].
    destruct (normalize_loadable t k s Ht) as (r & s1 & Hrun & Hadv & Hnorm).
    destruct (IH (S k) s1 Hitems) as (rs & s2 & Hrest & Hadv2 & Hlen & Hall).
    exists (r :: rs), s2. unfold bind. rewrite Hrun, Hrest. simpl.
    split; [reflexivity|]. split; [eapply advances_trans; eauto|].
    split; [now rewrite Hlen|].
    intros j t' r' Hj Hr. destruct j as [|j]; simpl in *.
    + injection Hj as <-. injection Hr as <-. rewrite Nat.add_0_r.
      apply (normalizedBetween_widen s s s1 s2);
        [apply advances_refl|exact Hadv|exact Hadv2|exact Hnorm].
    + replace (k + S j)%nat with (S k + j)%nat by lia.
      eapply normalizedBetween_widen;
        [exact Hadv|exact Hadv2|apply advances_refl|now apply Hall].
Qed.

Lemma load_items_throw (items : list JSON) (k : nat) (s : App) :
  forallb loadable items = false ->
  exists s', mapiM_from k normalize items s = (Throw, s').
Proof.
  revert k s. induction items as [|t items IH]; intros k s H; simpl in *;
    [discriminate|].
  unfold bind. destruct (loadable t) eqn:Ht; simpl in H.
  - destruct (normalize_loadable t k s Ht) as (r & s1 & Hrun & _).
    destruct (IH (S k) s1 H) as (s2 & Hrest).
    rewrite Hrun, Hrest. now exists s2.
  - destruct (normalize_not_loadable t k s Ht) as (s1 & Hrun).
    rewrite Hrun. now exists s1.
Qed.

(** [loadTasks], case by case. *)
Lemma loadTasks_run (s : App) :
  loadTasks s =
  match storage s with
  | None => (Ok [], s)
  | Some text =>
      if String.eqb text "" then (Ok [], s)
      else match JSON_parse text with
           | None => (Ok [], s)
           | Some (JArr items) =>
               match mapiM_from 0 normalize items s with
               | (Ok rs, s') => (Ok rs, s')
               | (Throw, s') => (Ok [], s')
               end
           | Some _ => (Ok [], s)
           end
  end.
Proof.
  unfold loadTasks, try_catch, bind, localStorage_getItem, gets. simpl.
  destruct (storage s) as [text|]; [|reflexivity].
  destruct (String.eqb text ""); [reflexivity|].
  destruct (JSON_parse text) as [[]|]; reflexivity.
Qed.

(** C4 (as amended). [loadTasks] never raises. It returns the empty
    collection when the storage holds nothing or the empty text, when the
    text does not parse, and when it parses to something that is not an
    array. When it parses to an array in which no element is [null] and
    every title has a string conversion, it returns one record for each
    element, normalized: a falsy [id] is replaced by a [uid] drawn during
    the load, the title is the trimmed text of [title] (empty if falsy),
    a falsy [due] becomes the empty string, [completed] is the truthiness
    of the stored value, a falsy [createdAt] is replaced by the clock
    read during the load, and an [order] that is not a number becomes the
    position of the record. When some element is [null] or has a title
    without string conversion, the exception is caught and the whole
    result is the empty collection. *)
Theorem C4_loadTasks_total_and_normalizing (s : App) :
  (exists rs, fst (loadTasks s) = Ok rs)
  /\ (storage s = None -> fst (loadTasks s) = Ok [])
  /\ (storage s = Some "" -> fst (loadTasks s) = Ok [])
  /\ (forall text,
         storage s = Some text -> JSON_parse text = None ->
         fst (loadTasks s) = Ok [])
  /\ (forall text v,
         storage s = Some text -> JSON_parse text = Some v ->
         (forall items, v <> JArr items) ->
         fst (loadTasks s) = Ok [])
  /\ (forall text items,
         storage s = Some text -> text <> "" ->
         JSON_parse text = Some (JArr items) ->
         (forallb loadable items = true ->
          exists rs,
            fst (loadTasks s) = Ok rs /\
            List.length rs = List.length items /\
            advances s (exec loadTasks s) /\
            forall k t r,
              nth_error items k = Some t -> nth_error rs k = Some r ->
              normalizedBetween s (exec loadTasks s) k t r)
         /\
         (forallb loadable items = false -> fst (loadTasks s) = Ok [])).
Proof.
  unfold exec. rewrite loadTasks_run.
  split; [|split; [|split; [|split; [|split]]]].
  - destruct (storage s) as [text|]; [|now exists []].
    destruct (String.eqb text ""); [now exists []|].
    destruct (JSON_parse text) as [[]|]; try (now exists []).
    destruct (mapiM_from 0 normalize items s) as [[rs|] s'];
      [now exists rs|now exists []].
  - now intros ->.
  - now intros ->.
  - intros text -> ->. now destruct (String.eqb text "").
  - intros text v -> -> Hv. destruct (String.eqb text ""); [reflexivity|].
    destruct v; try reflexivity. now elim (Hv items).
  - intros text items -> Htext ->.
    apply String.eqb_neq in Htext. rewrite Htext. split; intros Hl.
    + destruct (load_items_ok items 0 s Hl)
        as (rs & s' & Hrun & Hadv & Hlen & Hall).
      rewrite Hrun. simpl. exists rs.
      split; [reflexivity|]. split; [exact Hlen|]. split; [exact Hadv|].
      exact Hall.
    + destruct (load_items_throw items 0 s Hl) as (s' & Hrun).
      now rewrite Hrun.
Qed.

End LoadTasks.

(** C4, witness: a stored text that does not parse, and a stored array
    of a task and a number. *)
Lemma C4_loadTasks_witness :
  JSON_parse (Host := Ref.host) "{" = None /\
  fst (loadTasks (host := Ref.host) (Ex.app [] "manual" (Some "{"))) = Ok [] /\
  forallb loadable [taskJSON Ex.t10; JNum 5] = true /\
  exists rs,
    fst (loadTasks (host := Ref.host)
           (Ex.app [] "manual" (Some Ex.storedMixed))) = Ok rs /\
    map Loaded.order rs = [0; 1].
Proof.
  split; [reflexivity|]. split; [|split; [reflexivity|]].
  - apply (proj1 (proj2 (proj2 (proj2
             (C4_loadTasks_total_and_normalizing (host := Ref.host)
                (Ex.app [] "manual" (Some "{")))))) "{"); reflexivity.
  - assert (Hne : Ex.storedMixed <> "") by (vm_compute; discriminate).
    destruct (proj1 (proj2 (proj2 (proj2 (proj2 (proj2
                (C4_loadTasks_total_and_normalizing (host := Ref.host)
                   (Ex.app [] "manual" (Some Ex.storedMixed)))))))
                Ex.storedMixed [taskJSON Ex.t10; JNum 5]
                eq_refl Hne eq_refl) eq_refl)
      as (rs & Hok & _ & _ & _).
    exists rs. split; [exact Hok|].
    vm_compute in Hok. injection Hok as <-. reflexivity.
Defined.

(** C4, counterexample: the stored text parses to an array of a task and
    [null]; reading a property of [null] throws, the exception is caught,
    and the stored task is lost with it. *)
Lemma C4_counterexample_null_element :
  JSON_parse (Host := Ref.host) Ex.storedWithNull
  = Some (JArr [taskJSON Ex.t10; JNull])
  /\ fst (loadTasks (host := Ref.host)
            (Ex.app [] "manual" (Some Ex.storedWithNull))) = Ok [].
Proof. split; reflexivity. Qed.

(* ================================================================= *)
(** ** Round trip through the storage *)

Section RoundTrip.
Context {host : Host}.

Lemma normalize_taskJSON (t : Task) (i : nat) (s : App) :
  id t <> "" -> createdAt t <> "" -> trim (title t) = title t ->
  normalize (taskJSON t) i s = (Ok (asLoaded t), s).
Proof.
  intros Hid Hcreated Htrim.
  rewrite normalize_nonnull by discriminate.
  change (prop (taskJSON t) "id") with (Some (JStr (id t))).
  change (prop (taskJSON t) "title") with (Some (JStr (title t))).
  change (prop (taskJSON t) "due") with (Some (JStr (due t))).
  change (prop (taskJSON t) "completed") with (Some (JBool (completed t))).
  change (prop (taskJSON t) "createdAt") with (Some (JStr (createdAt t))).
  change (prop (taskJSON t) "order") with (Some (JNum (order t))).
  apply String.eqb_neq in Hid, Hcreated.
  unfold orElse, truthy. rewrite Hid, Hcreated. simpl.
  assert (Htitle : ToString (if negb (String.eqb (title t) "")
                             then JStr (title t) else JStr "")
                   = Some (title t)).
  { destruct (String.eqb_spec (title t) "") as [E|E]; simpl; [now rewrite E|].
    reflexivity. }
  rewrite Htitle, Htrim. unfold asLoaded.
  now destruct (String.eqb_spec (due t) "") as [->|E].
Qed.

Lemma load_saved_items (ts : list Task) (k : nat) (s : App) :
  identified ts ->
  Forall (fun t => trim (title t) = title t) ts ->
  mapiM_from k normalize (map taskJSON ts) s = (Ok (map asLoaded ts), s).
Proof.
  revert k. induction ts as [|t ts IH]; intros k Hi Ht; simpl;
    [reflexivity|].
  inversion Hi as [|? ? [Hid Hcreated] Hi']; subst.
  inversion Ht as [|? ? Htrim Ht']; subst.
  unfold bind. rewrite normalize_taskJSON by assumption.
  rewrite IH by assumption. reflexivity.
Qed.

(** C9. For every collection that is well formed (unique ids, titles
    trimmed and not empty; ids and creation dates that are not empty, as
    those of every task the program holds are: an id is drawn by [uid]
    or is a truthy value of the storage, a creation date is an ISO date),
    and a host that reads back the text it prints for the collection:
    [loadTasks] after [saveTasks] returns the same tasks in the same
    sequence, each with the id, title, due date, completed flag, creation
    date and order it had. *)
Theorem C9_save_then_load (s : App) (ts : list Task) :
  wellFormed ts -> identified ts -> roundTrips (tasksJSON ts) ->
  fst (loadTasks (exec (saveTasks ts) s)) = Ok (map asLoaded ts).
Proof.
  intros [_ Hwf] Hid [Hne Hparse].
  rewrite loadTasks_run. simpl.
  apply String.eqb_neq in Hne. rewrite Hne, Hparse.
  unfold tasksJSON. rewrite load_saved_items; [reflexivity|exact Hid|].
  eapply Forall_impl; [|exact Hwf]. now intros t [_ H].
Qed.

End RoundTrip.

(** C9, witness: the three tasks of the sort example. *)
Lemma C9_save_then_load_witness :
  wellFormed [Ex.t10; Ex.tNone; Ex.t05] /\
  identified [Ex.t10; Ex.tNone; Ex.t05] /\
  roundTrips (host := Ref.host) (tasksJSON [Ex.t10; Ex.tNone; Ex.t05]) /\
  fst (loadTasks (host := Ref.host)
         (exec (saveTasks (host := Ref.host) [Ex.t10; Ex.tNone; Ex.t05])
               (Ex.app [] "manual" None)))
  = Ok (map asLoaded [Ex.t10; Ex.tNone; Ex.t05]).
Proof.
  assert (Hwf : wellFormed [Ex.t10; Ex.tNone; Ex.t05]).
  { split.
    - simpl. repeat constructor; simpl; intuition discriminate.
    - repeat constructor; discriminate. }
  assert (Hid : identified [Ex.t10; Ex.tNone; Ex.t05]).
  { repeat constructor; discriminate. }
  assert (Hrt : roundTrips (host := Ref.host)
                  (tasksJSON [Ex.t10; Ex.tNone; Ex.t05])).
  { split; [discriminate|reflexivity]. }
  split; [exact Hwf|]. split; [exact Hid|]. split; [exact Hrt|].
  exact (C9_save_then_load (host := Ref.host) (Ex.app [] "manual" None)
           [Ex.t10; Ex.tNone; Ex.t05] Hwf Hid Hrt).
Defined.

(* ================================================================= *)
(** ** The view: what it shows and in which sequence *)

Lemma filter_twice {A} (f g : A -> bool) (l : list A) :
  List.filter g (List.filter f l) = List.filter (fun x => f x && g x) l.
Proof.
  induction l as [|x l IH]; simpl; [reflexivity|].
  destruct (f x); simpl; [|exact IH].
  destruct (g x); now rewrite IH.
Qed.

Lemma filter_all {A} (l : list A) : List.filter (fun _ => true) l = l.
Proof. induction l as [|x l IH]; simpl; [reflexivity|]. now rewrite IH. Qed.

Lemma stages_shown (v : state.t) (l : list Task) :
  (let arr := if String.eqb (state.search v) "" then l
              else List.filter
                     (fun t => includes (toLowerCase (title t)) (state.search v))
                     l in
   let arr := if String.eqb (state.filter v) "done"
              then List.filter (fun t => completed t) arr else arr in
   if String.eqb (state.filter v) "todo"
   then List.filter (fun t => negb (completed t)) arr else arr)
  = List.filter (shown v) l.
Proof.
  unfold shown. cbv zeta.
  destruct (String.eqb (state.search v) "");
    destruct (String.eqb (state.filter v) "done");
    destruct (String.eqb (state.filter v) "todo"); simpl;
    rewrite ?filter_twice;
    match goal with
    | |- List.filter _ _ = _ => idtac
    | _ => rewrite <- (filter_all l) at 1
    end;
    apply filter_ext; intros t;
    destruct (includes (toLowerCase (title t)) (state.search v));
    destruct (completed t); reflexivity.
Qed.

Section View.
Context {host : Host}.

Lemma searchedFiltered_shown (s : App) :
  searchedFiltered s = List.filter (shown (view s)) (tasks s).
Proof. apply stages_shown. Qed.

Lemma projection_perm (s : App) :
  Permutation (getFilteredSortedTasks s) (searchedFiltered s).
Proof.
  unfold getFilteredSortedTasks. cbv zeta.
  repeat match goal with
         | |- context [if ?c then _ else _] => destruct c
         end; apply sort_perm.
Qed.

(** X1. Whatever the sort mode, the list shown holds exactly the tasks
    that pass the search text and the status filter, each as often as the
    collection holds it; with an empty search text and a filter that is
    neither [done] nor [todo] it is a rearrangement of the whole
    collection. *)
Theorem X1_projection_holds_the_tasks_shown (s : App) :
  Permutation (getFilteredSortedTasks s)
              (List.filter (shown (view s)) (tasks s))
  /\ (forall t,
         In t (getFilteredSortedTasks s)
         <-> In t (tasks s) /\ shown (view s) t = true)
  /\ (state.search (view s) = "" ->
      state.filter (view s) <> "done" -> state.filter (view s) <> "todo" ->
      Permutation (getFilteredSortedTasks s) (tasks s)).
Proof.
  assert (Hperm : Permutation (getFilteredSortedTasks s)
                              (List.filter (shown (view s)) (tasks s))).
  { rewrite <- searchedFiltered_shown. apply projection_perm. }
  split; [exact Hperm|]. split.
  - intros t. rewrite <- filter_In. split; apply Permutation_in;
      [exact Hperm|symmetry; exact Hperm].
  - intros Hs Hd Ht. rewrite Hperm.
    replace (List.filter (shown (view s)) (tasks s)) with (tasks s);
      [reflexivity|].
    symmetry. apply forallb_filter_id. apply forallb_forall. intros t _.
    unfold shown. rewrite Hs. apply String.eqb_neq in Hd, Ht.
    rewrite Hd, Ht. reflexivity.
Qed.

(** X2. Under [manual], and under any sort value that is none of the four
    date modes, the list shown is in ascending order of [order], and tasks
    of equal order keep the sequence they have in the collection. *)
Theorem X2_manual_is_the_fallback (s : App) :
  state.sort (view s) <> "dueAsc" -> state.sort (view s) <> "dueDesc" ->
  state.sort (view s) <> "createdAsc" -> state.sort (view s) <> "createdDesc" ->
  getFilteredSortedTasks s = JS.sort byOrder (searchedFiltered s)
  /\ (forall i j a b,
         (i < j)%nat ->
         nth_error (getFilteredSortedTasks s) i = Some a ->
         nth_error (getFilteredSortedTasks s) j = Some b ->
         order a <= order b)
  /\ (forall k,
         List.filter (fun t => order t =? k) (getFilteredSortedTasks s)
         = List.filter (fun t => order t =? k) (searchedFiltered s)).
Proof.
  intros H1 H2 H3 H4.
  assert (E : getFilteredSortedTasks s = JS.sort byOrder (searchedFiltered s)).
  { unfold getFilteredSortedTasks. cbv zeta.
    apply String.eqb_neq in H1, H2, H3, H4. rewrite H1, H2, H3, H4.
    now destruct (String.eqb (state.sort (view s)) "manual"). }
  rewrite E. split; [reflexivity|]. split.
  - intros i j a b Hij Hi Hj.
    pose proof (sorted_nth _ _ (byOrder_sorted (searchedFiltered s))
                  i j a b Hij Hi Hj) as H.
    unfold before, byOrder in H. simpl in H. apply Z.ltb_ge in H. lia.
  - intros k. apply byOrder_stable.
Qed.

End View.

(** X2, witness: a sort value the program does not know. *)
Lemma X2_manual_witness :
  map id (getFilteredSortedTasks (host := Ref.host)
            (Ex.app [Ex.t05; Ex.tNone; Ex.t10] "newest" None))
  = ["a"; "b"; "c"].
Proof.
  rewrite (proj1 (X2_manual_is_the_fallback (host := Ref.host)
                    (Ex.app [Ex.t05; Ex.tNone; Ex.t10] "newest" None)
                    ltac:(discriminate) ltac:(discriminate)
                    ltac:(discriminate) ltac:(discriminate))).
  reflexivity.
Defined.

(* ================================================================= *)
(** ** The date modes *)

Section KeyOrder.
Context {A : Type} (key : A -> Number).

Lemma key_anti (a b : A) :
  keyOk (key a) -> keyOk (key b) ->
  positive (sub (key a) (key b)) = true ->
  positive (sub (key b) (key a)) = false.
Proof.
  destruct (key a), (key b); simpl; try tauto; try discriminate.
  intros _ _ H. apply Z.ltb_lt in H. apply Z.ltb_ge. lia.
Qed.

Lemma key_trans (a b c : A) :
  keyOk (key a) -> keyOk (key b) -> keyOk (key c) ->
  positive (sub (key a) (key b)) = false ->
  positive (sub (key b) (key c)) = false ->
  positive (sub (key a) (key c)) = false.
Proof.
  destruct (key a), (key b), (key c); simpl; try tauto; try discriminate.
  intros _ _ _ H1 H2. apply Z.ltb_ge in H1, H2. apply Z.ltb_ge. lia.
Qed.

Lemma sort_by_key_ascending (l : list A) :
  Forall (fun a => keyOk (key a)) l ->
  StronglySorted (before (fun a b => sub (key a) (key b)))
                 (JS.sort (fun a b => sub (key a) (key b)) l).
Proof.
  apply sort_sorted.
  - intros a b. apply key_anti.
  - intros a b c. apply key_trans.
Qed.

Lemma sort_by_key_descending (l : list A) :
  Forall (fun a => keyOk (key a)) l ->
  StronglySorted (before (fun a b => sub (key b) (key a)))
                 (JS.sort (fun a b => sub (key b) (key a)) l).
Proof.
  apply sort_sorted.
  - intros a b Ha Hb. unfold before. apply key_anti; assumption.
  - intros a b c Ha Hb Hc. unfold before. intros H1 H2.
    apply (key_trans c b a); assumption.
Qed.

End KeyOrder.

Lemma toLowerCase_twice (text : string) :
  toLowerCase (toLowerCase text) = toLowerCase text.
Proof.
  induction text as [|c text IH]; simpl; [reflexivity|].
  rewrite IH. f_equal.
  destruct c as [[] [] [] [] [] [] [] []]; reflexivity.
Qed.

Lemma toLowerCase_empty (text : string) :
  toLowerCase text = "" -> text = "".
Proof. destruct text; [reflexivity|discriminate]. Qed.

Section DateModes.
Context {host : Host}.

Lemma dueKey_time (t : Task) (ms : Z) :
  due t <> "" -> Date_getTime (due t) = Some ms -> dueKey t = Fin ms.
Proof.
  intros Hd Ht. unfold dueKey, getTime. apply String.eqb_neq in Hd.
  now rewrite Hd, Ht.
Qed.

(** X3. When every due date present is readable, the tasks that have a
    due date stand in ascending order of that date under [dueAsc] and in
    descending order under [dueDesc]. *)
Theorem X3_dated_tasks_in_date_order (s : App) :
  datesValid (tasks s) ->
  forall i j a b ta tb,
    (i < j)%nat ->
    nth_error (getFilteredSortedTasks s) i = Some a ->
    nth_error (getFilteredSortedTasks s) j = Some b ->
    due a <> "" -> due b <> "" ->
    Date_getTime (due a) = Some ta -> Date_getTime (due b) = Some tb ->
    (state.sort (view s) = "dueAsc" -> ta <= tb) /\
    (state.sort (view s) = "dueDesc" -> tb <= ta).
Proof.
  intros Hv i j a b ta tb Hij Hi Hj Ha Hb Hta Htb.
  apply datesValid_filtered in Hv.
  unfold getFilteredSortedTasks in Hi, Hj. cbv zeta in Hi, Hj.
  split; intros E; rewrite E in Hi, Hj; simpl in Hi, Hj.
  - pose proof (sorted_nth _ _ (dueAsc_sorted _ Hv) i j a b Hij Hi Hj) as H.
    unfold before in H. rewrite byDue_keys in H.
    rewrite (dueKey_time a ta Ha Hta), (dueKey_time b tb Hb Htb) in H.
    simpl in H. apply Z.ltb_ge in H. lia.
  - pose proof (sorted_nth _ _ (dueDesc_sorted _ Hv) i j a b Hij Hi Hj) as H.
    unfold before in H. rewrite byDue_keys in H.
    rewrite (dueKey_time a ta Ha Hta), (dueKey_time b tb Hb Htb) in H.
    simpl in H. apply Z.ltb_ge in H. lia.
Qed.

Lemma createdValid_filtered (s : App) :
  createdValid (tasks s) ->
  Forall (fun t => keyOk (getTime (createdAt t))) (searchedFiltered s).
Proof.
  intros H. apply Forall_forall. intros t Ht.
  apply searchedFiltered_incl in Ht. specialize (H t Ht).
  unfold getTime. now destruct (Date_getTime (createdAt t)).
Qed.

(** X4. When every creation date is readable, the list shown under
    [createdAsc] is in ascending order of creation date (oldest first)
    and under [createdDesc] in descending order (newest first). *)
Theorem X4_created_modes_in_date_order (s : App) :
  createdValid (tasks s) ->
  forall i j a b ta tb,
    (i < j)%nat ->
    nth_error (getFilteredSortedTasks s) i = Some a ->
    nth_error (getFilteredSortedTasks s) j = Some b ->
    Date_getTime (createdAt a) = Some ta ->
    Date_getTime (createdAt b) = Some tb ->
    (state.sort (view s) = "createdAsc" -> ta <= tb) /\
    (state.sort (view s) = "createdDesc" -> tb <= ta).
Proof.
  intros Hv i j a b ta tb Hij Hi Hj Hta Htb.
  apply createdValid_filtered in Hv.
  unfold getFilteredSortedTasks in Hi, Hj. cbv zeta in Hi, Hj.
  split; intros E; rewrite E in Hi, Hj; simpl in Hi, Hj.
  - pose proof (sorted_nth _ _
                  (sort_by_key_ascending (fun t => getTime (createdAt t)) _ Hv)
                  i j a b Hij Hi Hj) as H.
    unfold before, getTime in H. rewrite Hta, Htb in H.
    simpl in H. apply Z.ltb_ge in H. lia.
  - pose proof (sorted_nth _ _
                  (sort_by_key_descending (fun t => getTime (createdAt t)) _ Hv)
                  i j a b Hij Hi Hj) as H.
    unfold before, getTime in H. rewrite Hta, Htb in H.
    simpl in H. apply Z.ltb_ge in H. lia.
Qed.

(** X5. The search ignores the case of what is typed and of the titles:
    typing a text or its lower-case form leaves the same state, and every
    task shown after typing a text that is not empty has a title whose
    lower-case form contains the lower-case form of the text. Typing
    changes neither the collection nor the storage. *)
Theorem X5_search_ignores_case (s : App) (value : string) :
  exec (searchInput_input (toLowerCase value)) s
  = exec (searchInput_input value) s
  /\ tasks (exec (searchInput_input value) s) = tasks s
  /\ storage (exec (searchInput_input value) s) = storage s
  /\ (forall t,
         In t (getFilteredSortedTasks (exec (searchInput_input value) s)) ->
         value = "" \/
         includes (toLowerCase (title t)) (toLowerCase value) = true).
Proof.
  split; [|split; [reflexivity|split; [reflexivity|]]].
  - unfold exec, searchInput_input, bind, modify, renderList, call. simpl.
    now rewrite toLowerCase_twice.
  - intros t Ht.
    apply (Permutation_in _ (projection_perm _)) in Ht.
    rewrite searchedFiltered_shown in Ht. apply filter_In in Ht.
    destruct Ht as [_ Ht]. unfold shown in Ht. simpl in Ht.
    apply andb_true_iff in Ht. destruct Ht as [Ht _].
    apply andb_true_iff in Ht. destruct Ht as [Ht _].
    apply orb_true_iff in Ht. destruct Ht as [Ht|Ht]; [left|now right].
    apply String.eqb_eq in Ht. now apply toLowerCase_empty.
Qed.

End DateModes.

(** X3, witness: the example of the specification under [dueAsc]. *)
Lemma X3_dated_tasks_witness :
  datesValid (host := Ref.host) [Ex.t10; Ex.tNone; Ex.t05] /\
  map id (getFilteredSortedTasks (host := Ref.host)
            (Ex.app [Ex.t10; Ex.tNone; Ex.t05] "dueAsc" None))
  = ["c"; "a"; "b"] /\
  1704412800000 <= 1704844800000.
Proof.
  assert (Hv : datesValid (host := Ref.host)
                 (tasks (Ex.app [Ex.t10; Ex.tNone; Ex.t05] "dueAsc" None))).
  { intros t [<-|[<-|[<-|[]]]] Hd; try (vm_compute; discriminate).
    now elim Hd. }
  split; [exact Hv|]. split; [vm_compute; reflexivity|].
  apply (proj1 (X3_dated_tasks_in_date_order (host := Ref.host)
                  (Ex.app [Ex.t10; Ex.tNone; Ex.t05] "dueAsc" None) Hv
                  0%nat 1%nat Ex.t05 Ex.t10 1704412800000 1704844800000
                  ltac:(lia) ltac:(vm_compute; reflexivity)
                  ltac:(vm_compute; reflexivity)
                  ltac:(discriminate) ltac:(discriminate)
                  ltac:(vm_compute; reflexivity)
                  ltac:(vm_compute; reflexivity))).
  reflexivity.
Defined.

(** X4, witness: three tasks created on three days, newest first. *)
Lemma X4_created_modes_witness :
  createdValid (host := Ref.host) Ex.threeDays /\
  map id (getFilteredSortedTasks (host := Ref.host)
            (Ex.app Ex.threeDays "createdDesc" None))
  = ["x"; "z"; "y"] /\
  1709373600000 <= 1709460000000.
Proof.
  assert (Hv : createdValid (host := Ref.host)
                 (tasks (Ex.app Ex.threeDays "createdDesc" None))).
  { intros t [<-|[<-|[<-|[]]]]; vm_compute; discriminate. }
  split; [exact Hv|]. split; [vm_compute; reflexivity|].
  apply (proj2 (X4_created_modes_in_date_order (host := Ref.host)
                  (Ex.app Ex.threeDays "createdDesc" None) Hv
                  0%nat 1%nat (mkTask "x" "X" "" false "2024-03-03T10:00:00.000Z" 2)
                  (mkTask "z" "Z" "" true "2024-03-02T10:00:00.000Z" 1)
                  1709460000000 1709373600000
                  ltac:(lia) ltac:(vm_compute; reflexivity)
                  ltac:(vm_compute; reflexivity)
                  ltac:(vm_compute; reflexivity)
                  ltac:(vm_compute; reflexivity))).
  reflexivity.
Defined.

(* ================================================================= *)
(** ** Deleting, clearing and adding: how they compose *)

Lemma sort_sorted_id {A} (cmp : A -> A -> Number) (l : list A) :
  StronglySorted (before cmp) l -> JS.sort cmp l = l.
Proof.
  induction 1 as [|x l Hs IH Hx]; simpl; [reflexivity|].
  rewrite IH. destruct l as [|y l]; simpl; [reflexivity|].
  inversion Hx as [|? ? Hxy _]; subst. unfold before in Hxy.
  now rewrite Hxy.
Qed.

Lemma numbered_from_sorted (l : list Task) (k : nat) :
  map order l = map Z.of_nat (seq k (List.length l)) ->
  StronglySorted (before byOrder) l.
Proof.
  revert k. induction l as [|x l IH]; intros k H; [constructor|].
  simpl in H. injection H as Hx Hl.
  constructor; [now apply (IH (S k))|].
  apply Forall_forall. intros y Hy.
  assert (Hin : In (order y) (map Z.of_nat (seq (S k) (List.length l)))).
  { rewrite <- Hl. now apply in_map. }
  apply in_map_iff in Hin. destruct Hin as [n [En Hn]].
  apply in_seq in Hn. unfold before, byOrder. simpl.
  apply Z.ltb_ge. lia.
Qed.

Lemma numbered_from_mapi (l : list Task) (k : nat) :
  map order l = map Z.of_nat (seq k (List.length l)) ->
  mapi_from k (fun t i => set_order t (Z.of_nat i)) l = l.
Proof.
  revert k. induction l as [|x l IH]; intros k H; [reflexivity|].
  simpl in H. injection H as Hx Hl. simpl.
  rewrite (IH (S k) Hl). f_equal.
  destruct x; simpl in *. now subst.
Qed.

(** [reindexOrder] changes nothing in a collection already numbered. *)
Lemma reindex_fixed (ts : list Task) :
  numbered ts ->
  mapi (fun t i => set_order t (Z.of_nat i)) (JS.sort byOrder ts) = ts.
Proof.
  intros H. rewrite (sort_sorted_id byOrder ts).
  - now apply numbered_from_mapi.
  - now apply (numbered_from_sorted ts 0).
Qed.

Lemma reindex_numbered (ts : list Task) :
  numbered (mapi (fun t i => set_order t (Z.of_nat i)) (JS.sort byOrder ts)).
Proof.
  unfold numbered, mapi. now rewrite mapi_from_orders, mapi_from_length.
Qed.

Lemma forgetOrder_ids (l : list Task) :
  map id (map forgetOrder l) = map id l.
Proof. rewrite map_map. reflexivity. Qed.

Lemma same_tasks_same_ids (l1 l2 : list Task) :
  Permutation (map forgetOrder l1) (map forgetOrder l2) ->
  Permutation (map id l1) (map id l2).
Proof.
  intros H. rewrite <- (forgetOrder_ids l1), <- (forgetOrder_ids l2).
  now apply Permutation_map.
Qed.

Lemma filter_removes_id (i : string) (ts : list Task) :
  ~ In i (map id (List.filter (fun t => negb (String.eqb (id t) i)) ts)).
Proof.
  intros H. apply in_map_iff in H. destruct H as [t [E Ht]].
  apply filter_In in Ht. destruct Ht as [_ Ht].
  apply negb_true_iff, String.eqb_neq in Ht. contradiction.
Qed.

Lemma no_completed_left (l : list Task) :
  Forall (fun t => completed t = false) l ->
  existsb (fun t => completed t) l = false.
Proof.
  induction 1 as [|t l Ht _ IH]; simpl; [reflexivity|]. now rewrite Ht, IH.
Qed.

Section Composition.
Context {host : Host}.

Lemma deleteTask_leaves (s : App) (i : string) :
  ~ In i (map id (tasks (exec (deleteTask i) s)))
  /\ numbered (tasks (exec (deleteTask i) s)).
Proof.
  unfold exec. rewrite deleteTask_run. simpl. split; [|apply reindex_numbered].
  intros H.
  apply (Permutation_in _ (same_tasks_same_ids _ _ (reindex_same_tasks _)))
    in H.
  now apply filter_removes_id in H.
Qed.

(** X6. [deleteTask] removes every task that has the id, also when
    several tasks have it, and keeps every other task with all its fields
    but [order]; the collection it leaves is numbered 0, ..., N-1 in
    sequence. *)
Theorem X6_deleteTask_removes_the_id (s : App) (i : string) :
  let s' := exec (deleteTask i) s in
  ~ In i (map id (tasks s'))
  /\ Permutation
       (map forgetOrder (tasks s'))
       (map forgetOrder
          (List.filter (fun t => negb (String.eqb (id t) i)) (tasks s)))
  /\ (List.length (tasks s')
      + List.length (List.filter (fun t => String.eqb (id t) i) (tasks s))
      = List.length (tasks s))%nat
  /\ numbered (tasks s').
Proof.
  intros s'. subst s'.
  destruct (deleteTask_leaves s i) as [Hgone Hnum].
  split; [exact Hgone|]. split; [|split; [|exact Hnum]];
    unfold exec; rewrite deleteTask_run; simpl.
  - apply reindex_same_tasks.
  - rewrite reindex_length, Nat.add_comm. apply filter_length.
Qed.

(** X7. [deleteTask] is idempotent: deleting the same id a second time
    changes neither the collection nor the storage. *)
Theorem X7_deleteTask_twice (s : App) (i : string) :
  let once := exec (deleteTask i) s in
  let twice := exec (deleteTask i) once in
  tasks twice = tasks once /\ storage twice = storage once.
Proof.
  intros once twice. subst twice.
  destruct (deleteTask_leaves s i) as [Hgone Hnum].
  fold once in Hgone, Hnum.
  assert (Hst : storage once
                = Some (JSON_stringify (tasksJSON (tasks once)))).
  { unfold once, exec. rewrite deleteTask_run. reflexivity. }
  clearbody once. unfold exec. rewrite deleteTask_run. simpl.
  rewrite (filter_keeps_all i _ Hgone), (reindex_fixed _ Hnum).
  split; [reflexivity|]. now rewrite Hst.
Qed.

(** X8. On a collection numbered 0, ..., N-1 in sequence, [deleteTask]
    with an id that no task has leaves every task as it is. *)
Theorem X8_delete_unknown_id_on_numbered (s : App) (i : string) :
  numbered (tasks s) -> ~ In i (map id (tasks s)) ->
  tasks (exec (deleteTask i) s) = tasks s.
Proof.
  intros Hnum Hi. unfold exec. rewrite deleteTask_run. simpl.
  rewrite (filter_keeps_all i _ Hi). now apply reindex_fixed.
Qed.

(** X9. A second click on Clear Completed does nothing: the state after
    two clicks is the state after one. *)
Theorem X9_clear_completed_twice (s : App) :
  exec clearAllBtn_click (exec clearAllBtn_click s) = exec clearAllBtn_click s.
Proof.
  assert (Hnone : existsb (fun t => completed t)
                          (tasks (exec clearAllBtn_click s)) = false).
  { unfold exec. rewrite clearAllBtn_click_run. simpl.
    destruct (existsb (fun t => completed t) (tasks s)) eqn:E; [|exact E].
    simpl. apply no_completed_left, reindex_completed.
    apply Forall_forall. intros t Ht. apply filter_In in Ht.
    destruct Ht as [_ Ht]. now destruct (completed t). }
  unfold exec at 1. rewrite clearAllBtn_click_run, Hnone. reflexivity.
Qed.

(** X10. [addTask] keeps the orders contiguous: when the order values
    are exactly 0, ..., N-1 (in any sequence), the new task gets the order
    N and the order values are exactly 0, ..., N. The collection has at
    most 2^53 tasks, so that doubles count them exactly: a JavaScript
    array has fewer than 2^32 elements. *)
Theorem X10_addTask_keeps_orders_contiguous (s : App) (title0 due0 : string) :
  ordersContiguous (tasks s) ->
  Z.of_nat (List.length (tasks s)) <= 2 ^ 53 ->
  let s' := exec (addTask title0 due0) s in
  ordersContiguous (tasks s')
  /\ map order (tasks s')
     = (map order (tasks s) ++ [Z.of_nat (List.length (tasks s))])%list.
Proof.
  intros Hc Hlen s'. subst s'. unfold exec. rewrite addTask_run.
  cbv zeta. cbn [snd tasks].
  assert (Hnew : order (newTask title0 due0 s)
                 = Z.of_nat (List.length (tasks s))).
  { unfold newTask. cbn [order]. unfold ordersContiguous in Hc.
    destruct (tasks s) as [|x rest] eqn:E; [reflexivity|].
    destruct (Math_max_spec (map order rest) (order x)) as (Hm & Hle & Hall).
    set (m := Math_max (order x) (map order rest)) in *.
    assert (Hin : In m (map order (x :: rest))).
    { simpl. destruct Hm as [Hm|Hm]; [left; now rewrite Hm|now right]. }
    apply (Permutation_in _ Hc) in Hin.
    apply in_map_iff in Hin. destruct Hin as [n [En Hn]]. apply in_seq in Hn.
    assert (Htop : In (Z.of_nat (List.length rest)) (map order (x :: rest))).
    { apply (Permutation_in _ (Permutation_sym Hc)).
      apply in_map, in_seq. simpl. lia. }
    assert (Hm' : m = Z.of_nat (List.length rest)).
    { simpl in Htop. destruct Htop as [Htop|Htop].
      - simpl in *. lia.
      - specialize (Hall _ Htop). simpl in *. lia. }
    rewrite add_one_exact; [simpl List.length; lia|].
    unfold safeInteger. simpl List.length in Hlen. lia. }
  assert (Horders : map order (tasks s ++ [newTask title0 due0 s])%list
                    = (map order (tasks s)
                       ++ [Z.of_nat (List.length (tasks s))])%list).
  { rewrite map_app. cbn [map]. now rewrite Hnew. }
  split; [|exact Horders].
  unfold ordersContiguous. rewrite Horders, length_app. simpl.
  rewrite Nat.add_1_r, seq_S, map_app. simpl.
  apply Permutation_app_tail. exact Hc.
Qed.

End Composition.

(** X8, witness: the three tasks of the sort example are numbered. *)
Lemma X8_delete_unknown_id_witness :
  numbered [Ex.t10; Ex.tNone; Ex.t05] /\
  ~ In "zz" (map id [Ex.t10; Ex.tNone; Ex.t05]) /\
  tasks (exec (deleteTask (host := Ref.host) "zz")
              (Ex.app [Ex.t10; Ex.tNone; Ex.t05] "manual" None))
  = [Ex.t10; Ex.tNone; Ex.t05].
Proof.
  assert (Hn : numbered
                 (tasks (Ex.app [Ex.t10; Ex.tNone; Ex.t05] "manual" None)))
    by reflexivity.
  assert (Hi : ~ In "zz" (map id
                 (tasks (Ex.app [Ex.t10; Ex.tNone; Ex.t05] "manual" None)))).
  { simpl. intros [H|[H|[H|[]]]]; discriminate. }
  split; [exact Hn|]. split; [exact Hi|].
  exact (X8_delete_unknown_id_on_numbered (host := Ref.host)
           (Ex.app [Ex.t10; Ex.tNone; Ex.t05] "manual" None) "zz" Hn Hi).
Defined.

(** X10, witness: orders 2, 0 and 1, then a fourth task. *)
Lemma X10_addTask_witness :
  ordersContiguous Ex.threeDays /\
  Z.of_nat (List.length Ex.threeDays) <= 2 ^ 53 /\
  map order (tasks (exec (addTask (host := Ref.host) "W" "")
                         (Ex.app Ex.threeDays "manual" None)))
  = [2; 0; 1; 3].
Proof.
  assert (Hc : ordersContiguous
                 (tasks (Ex.app Ex.threeDays "manual" None))).
  { unfold ordersContiguous. simpl.
    apply Permutation_cons_app with (l1 := [0; 1]) (l2 := []). reflexivity. }
  assert (Hlen : Z.of_nat
                   (List.length (tasks (Ex.app Ex.threeDays "manual" None)))
                 <= 2 ^ 53) by (vm_compute; discriminate).
  split; [exact Hc|]. split; [exact Hlen|].
  exact (proj2 (X10_addTask_keeps_orders_contiguous (host := Ref.host)
                  (Ex.app Ex.threeDays "manual" None) "W" "" Hc Hlen)).
Defined.


(* ================================================================= *)
(** ** A drag over the whole list *)

Lemma increasing_is_seq (l : list nat) (a : nat) :
  StronglySorted lt l ->
  (forall x, In x l -> (a <= x < a + List.length l)%nat) ->
  l = seq a (List.length l).
Proof.
  revert a. induction l as [|x l IH]; intros a Hs Hb; [reflexivity|].
  inversion Hs as [|? ? Hs' Hx]; subst.
  assert (Hl : l = seq (S a) (List.length l)).
  { apply IH; [exact Hs'|]. intros y Hy.
    rewrite Forall_forall in Hx. specialize (Hx y Hy).
    specialize (Hb y (or_intror Hy)) as Hy'.
    specialize (Hb x (or_introl eq_refl)). simpl in *. lia. }
  simpl. rewrite <- Hl. f_equal.
  specialize (Hb x (or_introl eq_refl)) as Hbx. simpl in Hbx.
  destruct l as [|y l]; [simpl in Hbx; lia|].
  simpl in Hl. injection Hl as Hy _.
  rewrite Forall_forall in Hx. specialize (Hx y (or_introl eq_refl)). lia.
Qed.

Lemma placed_increasing (ids : list string) (l : list Task) :
  StronglySorted (before byOrder) l -> NoDup (map id l) ->
  (forall x, In x l -> placedBy ids x) ->
  StronglySorted lt (map (fun x => Z.to_nat (order x)) l).
Proof.
  induction 1 as [|x l Hs IH Hx]; intros Hnd Hp; simpl; [constructor|].
  inversion Hnd as [|? ? Hnotin Hnd']; subst.
  constructor.
  - apply IH; [exact Hnd'|]. intros y Hy. apply Hp. now right.
  - apply Forall_forall. intros n Hn. apply in_map_iff in Hn.
    destruct Hn as [y [<- Hy]].
    rewrite Forall_forall in Hx. specialize (Hx y Hy).
    unfold before, byOrder in Hx. simpl in Hx. apply Z.ltb_ge in Hx.
    destruct (Hp x (or_introl eq_refl)) as [jx [Ex Nx]].
    destruct (Hp y (or_intror Hy)) as [jy [Ey Ny]].
    assert (jx <> jy).
    { intros E. subst jy. rewrite Nx in Ny. injection Ny as Eid.
      apply Hnotin. rewrite Eid. now apply in_map. }
    lia.
Qed.

Lemma assignOrders_placed (ids : list string) (ts : list Task) :
  NoDup (map id ts) -> Permutation ids (map id ts) ->
  forall x, In x (assignOrders 0 ids ts) -> placedBy ids x.
Proof.
  intros Hnd Hperm x Hx.
  apply In_nth_error in Hx. destruct Hx as [k Hk].
  assert (Hlen : (k < List.length ts)%nat).
  { rewrite <- (length_map id ts), <- (assignOrders_ids ids 0 ts), length_map.
    apply nth_error_Some. congruence. }
  destruct (nth_error ts k) as [t|] eqn:Ht;
    [|apply nth_error_None in Ht; lia].
  rewrite (assignOrders_nth ids 0 ts k t Ht) in Hk.
  rewrite (firstOfId_unique ts k t Hnd Ht) in Hk. injection Hk as <-.
  assert (Hin : In (id t) ids).
  { apply (Permutation_in _ (Permutation_sym Hperm)).
    apply in_map. eapply nth_error_In; eauto. }
  apply In_nth_error in Hin. destruct Hin as [j Hj].
  assert (Hndi : NoDup ids).
  { apply (Permutation_NoDup (Permutation_sym Hperm) Hnd). }
  assert (Hlast : forall j', (j < j')%nat -> nth_error ids j' <> Some (id t)).
  { intros j' Hlt E.
    assert (Hjl : (j < List.length ids)%nat)
      by (apply nth_error_Some; congruence).
    pose proof (proj1 (NoDup_nth_error ids) Hndi j j' Hjl) as Hu.
    rewrite Hj, E in Hu. specialize (Hu eq_refl). lia. }
  rewrite (retag_last ids 0 j t Hj Hlast). exists j. simpl. now split.
Qed.

Section FullDrag.
Context {host : Host}.

(** X11. A drag over the whole list is read back as it was left: when
    the ids of the collection are unique, nothing is searched or
    filtered, and [ids] names every task once, then after the drag handler
    the list shown holds the tasks in the sequence of [ids]. *)
Theorem X11_drag_over_whole_list_is_kept (s : App) (ids : list string) :
  NoDup (map id (tasks s)) -> Permutation ids (map id (tasks s)) ->
  state.search (view s) = "" ->
  state.filter (view s) <> "done" -> state.filter (view s) <> "todo" ->
  map id (getFilteredSortedTasks (exec (dragend ids) s)) = ids.
Proof.
  intros Hnd Hperm Hsearch Hdone Htodo.
  destruct (dragend_run ids s) as (_ & Htasks & _).
  set (s' := exec (dragend ids) s) in *.
  assert (Hview : state.search (view s') = "" /\
                  state.filter (view s') = state.filter (view s) /\
                  state.sort (view s') = "manual").
  { subst s'. unfold exec, dragend, bind, gets, modify, saveTasks,
      localStorage_setItem. simpl.
    destruct (String.eqb_spec (state.sort (view s)) "manual"); simpl; auto. }
  destruct Hview as (Hs' & Hf' & Hsort).
  assert (Hout : getFilteredSortedTasks s' = JS.sort byOrder (tasks s')).
  { unfold getFilteredSortedTasks, searchedFiltered. cbv zeta.
    rewrite Hsort, Hs', Hf'. apply String.eqb_neq in Hdone, Htodo.
    rewrite Hdone, Htodo. reflexivity. }
  rewrite Hout, Htasks.
  set (placed := assignOrders 0 ids (tasks s)).
  set (out := JS.sort byOrder placed).
  assert (Hplaced : forall x, In x out -> placedBy ids x).
  { intros x Hx. apply (assignOrders_placed ids (tasks s) Hnd Hperm).
    now apply (sort_In byOrder placed). }
  assert (Hlen : List.length out = List.length ids).
  { unfold out. rewrite sort_length. unfold placed.
    rewrite <- (length_map id), assignOrders_ids.
    symmetry. now apply Permutation_length. }
  assert (Hids : NoDup (map id out)).
  { apply (Permutation_NoDup (l := map id placed)).
    - apply Permutation_map, Permutation_sym, sort_perm.
    - unfold placed. now rewrite assignOrders_ids. }
  assert (Hseq : map (fun x => Z.to_nat (order x)) out
                 = seq 0 (List.length out)).
  { rewrite <- (length_map (fun x => Z.to_nat (order x)) out).
    apply increasing_is_seq.
    - apply (placed_increasing ids); auto. apply byOrder_sorted.
    - intros n Hn. apply in_map_iff in Hn. destruct Hn as [x [<- Hx]].
      destruct (Hplaced x Hx) as [j [Ej Nj]].
      assert (j < List.length ids)%nat by (apply nth_error_Some; congruence).
      rewrite length_map, Hlen. lia. }
  apply nth_error_ext. intros p.
  destruct (nth_error out p) as [x|] eqn:Hx.
  - rewrite (map_nth_error id _ _ Hx).
    destruct (Hplaced x (nth_error_In _ _ Hx)) as [j [Ej Nj]].
    assert (Hp : nth_error (map (fun x => Z.to_nat (order x)) out) p
                 = Some (Z.to_nat (order x)))
      by exact (map_nth_error (fun x => Z.to_nat (order x)) _ _ Hx).
    rewrite Hseq in Hp.
    assert (Hpl : (p < List.length out)%nat)
      by (apply nth_error_Some; congruence).
    rewrite nth_error_seq in Hp.
    apply Nat.ltb_lt in Hpl. rewrite Hpl in Hp. injection Hp as Hp.
    replace p with j by lia. now rewrite Nj.
  - assert (Hnone : nth_error (map id out) p = None).
    { apply nth_error_None. rewrite length_map.
      now apply nth_error_None. }
    rewrite Hnone. symmetry. apply nth_error_None.
    rewrite <- Hlen. now apply nth_error_None.
Qed.

End FullDrag.

(** X11, witness: the three tasks of the sort example left as [c], [a],
    [b]. *)
Lemma X11_drag_over_whole_list_witness :
  NoDup (map id [Ex.t10; Ex.tNone; Ex.t05]) /\
  Permutation ["c"; "a"; "b"] (map id [Ex.t10; Ex.tNone; Ex.t05]) /\
  map id (getFilteredSortedTasks (host := Ref.host)
            (exec (dragend (host := Ref.host) ["c"; "a"; "b"])
                  (Ex.app [Ex.t10; Ex.tNone; Ex.t05] "dueAsc" None)))
  = ["c"; "a"; "b"].
Proof.
  assert (Hnd : NoDup (map id (tasks
                  (Ex.app [Ex.t10; Ex.tNone; Ex.t05] "dueAsc" None)))).
  { simpl. repeat constructor; simpl; intuition discriminate. }
  assert (Hp : Permutation ["c"; "a"; "b"]
                 (map id (tasks
                    (Ex.app [Ex.t10; Ex.tNone; Ex.t05] "dueAsc" None)))).
  { simpl. apply Permutation_cons_app with (l1 := ["a"; "b"]) (l2 := []).
    reflexivity. }
  split; [exact Hnd|]. split; [exact Hp|].
  exact (X11_drag_over_whole_list_is_kept (host := Ref.host)
           (Ex.app [Ex.t10; Ex.tNone; Ex.t05] "dueAsc" None)
           ["c"; "a"; "b"] Hnd Hp eq_refl
           ltac:(discriminate) ltac:(discriminate)).
Defined.


(* ================================================================= *)
(** ** What every event keeps *)

Lemma append_empty_r (a : string) : a ++ "" = a.
Proof. induction a as [|c a IH]; simpl; [reflexivity|now rewrite IH]. Qed.

Lemma string_append_assoc (a b c : string) : (a ++ b) ++ c = a ++ (b ++ c).
Proof. induction a as [|x a IH]; simpl; [reflexivity|now rewrite IH]. Qed.

Lemma string_length_append (a b : string) :
  String.length (a ++ b) = (String.length a + String.length b)%nat.
Proof. induction a as [|x a IH]; simpl; [reflexivity|now rewrite IH]. Qed.

Lemma reverse_append (a b : string) :
  reverse (a ++ b) = reverse b ++ reverse a.
Proof.
  induction a as [|x a IH]; simpl; [now rewrite append_empty_r|].
  now rewrite IH, string_append_assoc.
Qed.

Lemma reverse_twice (a : string) : reverse (reverse a) = a.
Proof.
  induction a as [|x a IH]; simpl; [reflexivity|].
  rewrite reverse_append, IH. reflexivity.
Qed.

Lemma reverse_length (a : string) :
  String.length (reverse a) = String.length a.
Proof.
  induction a as [|x a IH]; simpl; [reflexivity|].
  rewrite string_length_append, IH. simpl. lia.
Qed.

Lemma dropPrefix_split (p s r : string) :
  dropPrefix p s = Some r -> s = p ++ r.
Proof.
  revert s. induction p as [|a p IH]; intros s H; simpl in *.
  - now injection H as ->.
  - destruct s as [|b s]; [discriminate|].
    destruct (Ascii.eqb_spec a b) as [->|]; [|discriminate].
    now rewrite (IH s H).
Qed.

Lemma dropPrefix_append (p s r q : string) :
  dropPrefix p s = Some r -> dropPrefix p (s ++ q) = Some (r ++ q).
Proof.
  revert s. induction p as [|a p IH]; intros s H; simpl in *.
  - now injection H as ->.
  - destruct s as [|b s]; [discriminate|]. simpl.
    destruct (Ascii.eqb a b); [now apply IH|discriminate].
Qed.

Lemma dropFirst_split (ws : list string) (s r : string) :
  dropFirst ws s = Some r -> exists w, In w ws /\ s = w ++ r.
Proof.
  induction ws as [|w ws IH]; simpl; [discriminate|].
  destruct (dropPrefix w s) as [r'|] eqn:E.
  - intros H. injection H as <-. exists w. split; [now left|].
    now apply dropPrefix_split.
  - intros H. destruct (IH H) as [w' [Hin Hs]]. exists w'. auto.
Qed.

Lemma dropFirst_append (ws : list string) (s q : string) :
  dropFirst ws (s ++ q) = None -> dropFirst ws s = None.
Proof.
  induction ws as [|w ws IH]; simpl; [reflexivity|].
  destruct (dropPrefix w s) as [r|] eqn:E.
  - now rewrite (dropPrefix_append w s r q E).
  - destruct (dropPrefix w (s ++ q)); [discriminate|exact IH].
Qed.

Lemma strip_clean (ws : list string) (fuel : nat) (s : string) :
  Forall (fun w => w <> "") ws ->
  (String.length s <= fuel)%nat -> startsClean ws (strip ws fuel s).
Proof.
  intros Hws. revert s.
  induction fuel as [|fuel IH]; intros s Hlen; simpl.
  - destruct s; [|simpl in Hlen; lia].
    unfold startsClean. clear Hlen.
    induction Hws as [|w ws Hw _ IHws]; simpl; [reflexivity|].
    destruct w; [now elim Hw|exact IHws].
  - destruct (dropFirst ws s) as [r|] eqn:E; [|exact E].
    apply IH. destruct (dropFirst_split ws s r E) as [w [Hin ->]].
    rewrite Forall_forall in Hws. specialize (Hws w Hin).
    rewrite string_length_append in Hlen. destruct w; [now elim Hws|].
    simpl in Hlen. lia.
Qed.

Lemma clean_strip (ws : list string) (fuel : nat) (s : string) :
  startsClean ws s -> strip ws fuel s = s.
Proof. intros H. destruct fuel; simpl; [reflexivity|]. now rewrite H. Qed.

Lemma strip_suffix (ws : list string) (fuel : nat) (s : string) :
  exists d, s = d ++ strip ws fuel s.
Proof.
  revert s. induction fuel as [|fuel IH]; intros s; simpl.
  - now exists "".
  - destruct (dropFirst ws s) as [r|] eqn:E; [|now exists ""].
    destruct (dropFirst_split ws s r E) as [w [_ ->]].
    destruct (IH r) as [d Hd]. exists (w ++ d).
    rewrite string_append_assoc. now rewrite <- Hd.
Qed.

Lemma whiteSpace_nonempty : Forall (fun w => w <> "") whiteSpace.
Proof. repeat constructor; discriminate. Qed.

Lemma reversed_nonempty :
  Forall (fun w => w <> "") (map reverse whiteSpace).
Proof. repeat constructor; discriminate. Qed.

Lemma trimStart_clean (text : string) :
  startsClean whiteSpace (trimStart text).
Proof. apply strip_clean; [apply whiteSpace_nonempty|lia]. Qed.

Lemma trimEnd_prefix (text : string) :
  exists d, text = trimEnd text ++ d.
Proof.
  unfold trimEnd.
  destruct (strip_suffix (map reverse whiteSpace) (String.length text)
              (reverse text)) as [d Hd].
  exists (reverse d).
  rewrite <- reverse_append, <- Hd. now rewrite reverse_twice.
Qed.

Lemma trimEnd_clean (text : string) :
  startsClean whiteSpace text -> startsClean whiteSpace (trimEnd text).
Proof.
  intros H. destruct (trimEnd_prefix text) as [d Hd].
  rewrite Hd in H. now apply dropFirst_append in H.
Qed.

Lemma trimEnd_twice (text : string) : trimEnd (trimEnd text) = trimEnd text.
Proof.
  unfold trimEnd. rewrite reverse_twice. f_equal.
  apply clean_strip, strip_clean; [apply reversed_nonempty|].
  rewrite reverse_length. lia.
Qed.

Lemma trim_twice (text : string) : trim (trim text) = trim text.
Proof.
  unfold trim.
  assert (H : trimStart (trimEnd (trimStart text)) = trimEnd (trimStart text)).
  { apply clean_strip, trimEnd_clean, trimStart_clean. }
  rewrite H. apply trimEnd_twice.
Qed.

Lemma assignOrder_same_tasks (i : string) (index : Z) (ts : list Task) :
  map forgetOrder (assignOrder i index ts) = map forgetOrder ts.
Proof.
  induction ts as [|t ts IH]; simpl; [reflexivity|].
  destruct (String.eqb (id t) i); simpl; [reflexivity|]. now rewrite IH.
Qed.

Lemma assignOrders_same_tasks (ids : list string) (index : nat)
  (ts : list Task) :
  map forgetOrder (assignOrders index ids ts) = map forgetOrder ts.
Proof.
  revert index ts. induction ids as [|i ids IH]; intros index ts; simpl;
    [reflexivity|].
  now rewrite IH, assignOrder_same_tasks.
Qed.

(** A property of tasks that does not look at [order] passes from a
    collection to any collection of the same tasks. *)
Lemma same_tasks_Forall (Q : Task -> Prop) (l1 l2 : list Task) :
  (forall x, In x (map forgetOrder l1) -> In x (map forgetOrder l2)) ->
  Forall (fun t => Q (forgetOrder t)) l2 ->
  Forall (fun t => Q (forgetOrder t)) l1.
Proof.
  intros Hincl H. apply Forall_forall. intros t Ht.
  specialize (Hincl _ (in_map forgetOrder _ _ Ht)).
  apply in_map_iff in Hincl. destruct Hincl as [t' [E Hin]].
  rewrite Forall_forall in H. rewrite <- E. now apply H.
Qed.

Lemma NoDup_ids_filter (f : Task -> bool) (ts : list Task) :
  NoDup (map id ts) -> NoDup (map id (List.filter f ts)).
Proof.
  induction ts as [|t ts IH]; simpl; intros H; [constructor|].
  inversion H as [|? ? Hnotin Hnd]; subst.
  destruct (f t); simpl; [|now apply IH].
  constructor; [|now apply IH].
  intros Hin. apply Hnotin. apply in_map_iff in Hin.
  destruct Hin as [x [E Hx]]. apply filter_In in Hx.
  rewrite <- E. apply in_map. tauto.
Qed.

Section Events.
Context {host : Host}.

Lemma updateTask_cases (i : string) (p : Patch) (r : bool) (s : App) :
  updateTask i p r s = (Ok tt, s)
  \/ exists front t back,
       tasks s = (front ++ t :: back)%list /\ id t = i /\
       updateTask i p r s =
       (Ok tt,
        let ts := (front ++ spread t p :: back)%list in
        mkApp ts (view s) (Some (JSON_stringify (tasksJSON ts))) (random36 s)
              (randoms s) (clock s) (ticks s)
              (if r then RenderList :: ui s else ui s)).
Proof.
  destruct (in_dec string_dec i (map id (tasks s))) as [Hin|Hout].
  - right. destruct (updateTask_present i p r s Hin)
      as (front & t & back & H1 & H2 & _ & H3).
    now exists front, t, back.
  - left. now apply updateTask_absent.
Qed.

Lemma save_click_state (i titleValue dateValue : string) (s : App) :
  trim titleValue <> "" ->
  let after :=
    exec (updateTask i (mkPatch None (Some (trim titleValue)) (Some dateValue)
                                None None None) false) s in
  tasks (exec (save_click i titleValue dateValue) s) = tasks after /\
  storage (exec (save_click i titleValue dateValue) s) = storage after.
Proof.
  intros Hne. apply String.eqb_neq in Hne.
  unfold exec, save_click. rewrite Hne. unfold bind, gets.
  destruct (updateTask i _ false s) as [[[]|] s1]; simpl; [|now split].
  destruct (List.find (fun t => String.eqb (id t) i) (tasks s1)); now split.
Qed.

(** X12. Write-through: an event either leaves the collection and the
    storage as they were, or leaves in the storage the text of the
    collection it leaves in memory. So once the storage holds the
    collection, it holds it after every sequence of events. *)
Theorem X12_storage_follows_the_collection :
  (forall (e : Event) (s : App),
      (tasks (exec (handle e) s) = tasks s /\
       storage (exec (handle e) s) = storage s)
      \/ inSync (exec (handle e) s))
  /\
  (forall (events : list Event) (s : App),
      inSync s -> inSync (run events s)).
Proof.
  assert (Hstep : forall (e : Event) (s : App),
             (tasks (exec (handle e) s) = tasks s /\
              storage (exec (handle e) s) = storage s)
             \/ inSync (exec (handle e) s)).
  { intros e s. destruct e; cbn [handle].
    - unfold addBtn_click.
      destruct (String.eqb (trim titleValue) ""); [now left|].
      right. unfold inSync, exec. now rewrite addTask_run.
    - now left.
    - now left.
    - now left.
    - unfold exec. rewrite clearAllBtn_click_run.
      destruct (existsb (fun t => completed t) (tasks s)); [now right|now left].
    - unfold checkbox_change, exec.
      destruct (updateTask_cases i (mkPatch None None None (Some checked)
                                            None None) true s)
        as [E|(front & t & back & _ & _ & E)]; rewrite E;
        [now left|now right].
    - unfold save_click.
      destruct (String.eqb_spec (trim titleValue) "") as [Hb|Hb]; [now left|].
      destruct (save_click_state i titleValue dateValue s Hb) as [Ht Hs].
      unfold save_click in Ht, Hs. apply String.eqb_neq in Hb.
      rewrite Hb in Ht, Hs. unfold inSync. rewrite Ht, Hs. unfold exec.
      destruct (updateTask_cases i (mkPatch None (Some (trim titleValue))
                                            (Some dateValue) None None None)
                                 false s)
        as [E|(front & t & back & _ & _ & E)]; rewrite E;
        [now left|now right].
    - now left.
    - right. unfold inSync, exec. now rewrite deleteTask_run.
    - right. unfold inSync.
      destruct (dragend_run ids s) as (_ & Ht & Hs). now rewrite Ht, Hs. }
  split; [exact Hstep|].
  intros events. induction events as [|e events IH]; intros s Hs; simpl;
    [exact Hs|].
  apply IH. destruct (Hstep e s) as [[Ht Hst]|H]; [|exact H].
  unfold inSync in *. now rewrite Ht, Hst.
Qed.

Lemma titles_after_reindex (ts : list Task) :
  titlesKept ts ->
  titlesKept (mapi (fun t i => set_order t (Z.of_nat i)) (JS.sort byOrder ts)).
Proof.
  intros H.
  apply (same_tasks_Forall
           (fun t => title t <> "" /\ trim (title t) = title t) _ ts);
    [|exact H].
  intros x. apply Permutation_in, reindex_same_tasks.
Qed.

Lemma titles_after_filter (f : Task -> bool) (ts : list Task) :
  titlesKept ts -> titlesKept (List.filter f ts).
Proof.
  intros H. apply Forall_forall. intros t Ht. apply filter_In in Ht.
  unfold titlesKept in H. rewrite Forall_forall in H. now apply H.
Qed.

Lemma titles_after_update (i : string) (p : Patch) (r : bool) (s : App) :
  (forall new, p_title p = Some new -> new <> "" /\ trim new = new) ->
  titlesKept (tasks s) -> titlesKept (tasks (exec (updateTask i p r) s)).
Proof.
  intros Hp H. unfold exec.
  destruct (updateTask_cases i p r s)
    as [E|(front & t & back & Hsplit & _ & E)]; rewrite E; [exact H|].
  simpl. unfold titlesKept in *. rewrite Hsplit in H.
  apply Forall_app in H. destruct H as [Hf Hb].
  inversion Hb as [|? ? Ht Hback]; subst.
  apply Forall_app. split; [exact Hf|]. constructor; [|exact Hback].
  unfold spread. simpl. destruct (p_title p) as [new|]; simpl;
    [now apply Hp|exact Ht].
Qed.

(** X13. No event makes a title empty or untrimmed: when every title of
    the collection is trimmed and not empty, so is every title after any
    sequence of events. *)
Theorem X13_titles_stay_trimmed_and_not_empty (events : list Event) (s : App) :
  titlesKept (tasks s) -> titlesKept (tasks (run events s)).
Proof.
  revert s. induction events as [|e events IH]; intros s H; simpl;
    [exact H|].
  apply IH. destruct e; cbn [handle].
  - unfold addBtn_click.
    destruct (String.eqb_spec (trim titleValue) "") as [Hb|Hb]; [exact H|].
    unfold exec. rewrite addTask_run. simpl.
    apply Forall_app. split; [exact H|].
    constructor; [|constructor]. simpl. split; [exact Hb|apply trim_twice].
  - exact H.
  - exact H.
  - exact H.
  - unfold exec. rewrite clearAllBtn_click_run.
    destruct (existsb (fun t => completed t) (tasks s)); [|exact H].
    simpl. now apply titles_after_reindex, titles_after_filter.
  - apply titles_after_update; [discriminate|exact H].
  - unfold save_click.
    destruct (String.eqb_spec (trim titleValue) "") as [Hb|Hb]; [exact H|].
    destruct (save_click_state i titleValue dateValue s Hb) as [Ht _].
    unfold save_click in Ht. pose proof Hb as Hb'.
    apply String.eqb_neq in Hb'. rewrite Hb' in Ht. rewrite Ht.
    apply titles_after_update; [|exact H].
    simpl. intros new E. injection E as <-. split; [exact Hb|apply trim_twice].
  - exact H.
  - unfold exec. rewrite deleteTask_run. simpl.
    now apply titles_after_reindex, titles_after_filter.
  - destruct (dragend_run ids s) as (_ & Ht & _). rewrite Ht.
    apply (same_tasks_Forall
             (fun t => title t <> "" /\ trim (title t) = title t) _ (tasks s));
      [|exact H].
    intros x. now rewrite assignOrders_same_tasks.
Qed.

End Events.


Lemma stems_from_same_tasks (l1 l2 : list Task) :
  (forall x, In x (map forgetOrder l1) -> In x (map forgetOrder l2)) ->
  forall t', In t' l1 ->
    exists t, In t l2 /\ id t' = id t /\ createdAt t' = createdAt t.
Proof.
  intros Hincl t' Ht'.
  specialize (Hincl _ (in_map forgetOrder _ _ Ht')).
  apply in_map_iff in Hincl. destruct Hincl as [t [E Ht]].
  exists t. split; [exact Ht|].
  split; [exact (f_equal id (eq_sym E))|exact (f_equal createdAt (eq_sym E))].
Qed.

Lemma NoDup_snoc {A} (l : list A) (x : A) :
  NoDup l -> ~ In x l -> NoDup (l ++ [x]).
Proof.
  intros Hnd Hx. apply NoDup_incl_NoDup with (l := x :: l).
  - now constructor.
  - rewrite length_app. simpl. lia.
  - intros y [<-|Hy]; apply in_or_app; [right; now left|now left].
Qed.

Section EventsAndIdentity.
Context {host : Host}.

Lemma update_keeps_identity (i : string) (p : Patch) (r : bool) (s : App) :
  p_id p = None -> p_createdAt p = None ->
  map id (tasks (exec (updateTask i p r) s)) = map id (tasks s)
  /\ map createdAt (tasks (exec (updateTask i p r) s))
     = map createdAt (tasks s).
Proof.
  intros Hid Hcr. unfold exec.
  destruct (updateTask_cases i p r s)
    as [E|(front & t & back & Hsplit & _ & E)]; rewrite E; [now split|].
  simpl. rewrite Hsplit, !map_app. simpl. unfold spread.
  rewrite Hid, Hcr. simpl. now split.
Qed.

Lemma identity_in_maps (l1 l2 : list Task) :
  List.length l1 = List.length l2 ->
  map id l1 = map id l2 -> map createdAt l1 = map createdAt l2 ->
  forall t', In t' l1 ->
    exists t, In t l2 /\ id t' = id t /\ createdAt t' = createdAt t.
Proof.
  revert l2. induction l1 as [|x l1 IH]; intros l2 Hlen Hid Hcr t' Ht';
    [destruct Ht'|].
  destruct l2 as [|y l2]; [discriminate|].
  simpl in *. injection Hid as Hid1 Hid2. injection Hcr as Hcr1 Hcr2.
  destruct Ht' as [<-|Ht'].
  - exists y. auto.
  - destruct (IH l2 ltac:(lia) Hid2 Hcr2 t' Ht') as [t [Ht H]].
    exists t. auto.
Qed.

(** X14. No event changes the id or the creation date of a task: every
    task of the collection after an event has the id and the creation
    date of a task that was there before, or is the task a click on Add
    Task has just created. *)
Theorem X14_id_and_creation_date_are_kept (e : Event) (s : App) (t' : Task) :
  In t' (tasks (exec (handle e) s)) ->
  (exists t, In t (tasks s) /\ id t' = id t /\ createdAt t' = createdAt t)
  \/ (exists titleValue dateValue,
         e = AddClick titleValue dateValue /\
         t' = newTask (trim titleValue) dateValue s).
Proof.
  assert (Hsame : In t' (tasks s) ->
            exists t, In t (tasks s) /\ id t' = id t
                      /\ createdAt t' = createdAt t).
  { intros H. now exists t'. }
  destruct e; cbn [handle].
  - unfold addBtn_click. destruct (String.eqb (trim titleValue) "");
      [intros H; left; now apply Hsame|].
    unfold exec. rewrite addTask_run. simpl. intros H.
    apply in_app_or in H. destruct H as [H|[<-|[]]];
      [left; now apply Hsame|right].
    now exists titleValue, dateValue.
  - intros H. left. now apply Hsame.
  - intros H. left. now apply Hsame.
  - intros H. left. now apply Hsame.
  - unfold exec. rewrite clearAllBtn_click_run.
    destruct (existsb (fun t => completed t) (tasks s));
      [|intros H; left; now apply Hsame].
    simpl. intros H. left.
    destruct (stems_from_same_tasks _ _
               (fun x => Permutation_in x (reindex_same_tasks _)) t' H)
      as [t [Ht Heq]].
    exists t. apply filter_In in Ht. tauto.
  - intros H. left.
    destruct (update_keeps_identity i
                (mkPatch None None None (Some checked) None None) true s
                eq_refl eq_refl) as [Hid Hcr].
    refine (identity_in_maps _ _ _ Hid Hcr t' H).
    rewrite <- (length_map id), Hid. apply length_map.
  - unfold save_click.
    destruct (String.eqb_spec (trim titleValue) "") as [Hb|Hb];
      [intros H; left; now apply Hsame|].
    destruct (save_click_state i titleValue dateValue s Hb) as [Ht _].
    unfold save_click in Ht. apply String.eqb_neq in Hb.
    rewrite Hb in Ht. rewrite Ht. intros H. left.
    destruct (update_keeps_identity i
                (mkPatch None (Some (trim titleValue)) (Some dateValue)
                         None None None) false s eq_refl eq_refl)
      as [Hid Hcr].
    refine (identity_in_maps _ _ _ Hid Hcr t' H).
    rewrite <- (length_map id), Hid. apply length_map.
  - intros H. left. now apply Hsame.
  - unfold exec. rewrite deleteTask_run. simpl. intros H. left.
    destruct (stems_from_same_tasks _ _
               (fun x => Permutation_in x (reindex_same_tasks _)) t' H)
      as [t [Ht Heq]].
    exists t. apply filter_In in Ht. tauto.
  - destruct (dragend_run ids s) as (_ & Ht & _). rewrite Ht. intros H.
    left. apply (stems_from_same_tasks (assignOrders 0 ids (tasks s)));
      [|exact H].
    intros x. now rewrite assignOrders_same_tasks.
Qed.

(** X15. Unique ids stay unique: when no two tasks have the same id, no
    two have after any event, as long as the id a click on Add Task draws
    is not in use. *)
Theorem X15_unique_ids_are_kept (e : Event) (s : App) :
  NoDup (map id (tasks s)) ->
  (forall titleValue dateValue,
      e = AddClick titleValue dateValue ->
      ~ In (slice 2 (random36 s (randoms s)) ++ toString36 (clock s (ticks s)))
           (map id (tasks s))) ->
  NoDup (map id (tasks (exec (handle e) s))).
Proof.
  intros Hnd Hfresh. destruct e; cbn [handle]; try exact Hnd.
  - unfold addBtn_click. destruct (String.eqb (trim titleValue) "");
      [exact Hnd|].
    unfold exec. rewrite addTask_run. simpl. rewrite map_app. simpl.
    apply NoDup_snoc; [exact Hnd|]. now apply (Hfresh titleValue dateValue).
  - unfold exec. rewrite clearAllBtn_click_run.
    destruct (existsb (fun t => completed t) (tasks s)); [|exact Hnd].
    simpl.
    apply (Permutation_NoDup
             (Permutation_sym
                (same_tasks_same_ids _ _ (reindex_same_tasks _)))).
    now apply NoDup_ids_filter.
  - destruct (update_keeps_identity i
                (mkPatch None None None (Some checked) None None) true s
                eq_refl eq_refl) as [Hid _].
    unfold checkbox_change. now rewrite Hid.
  - unfold save_click.
    destruct (String.eqb_spec (trim titleValue) "") as [Hb|Hb]; [exact Hnd|].
    destruct (save_click_state i titleValue dateValue s Hb) as [Ht _].
    unfold save_click in Ht. apply String.eqb_neq in Hb.
    rewrite Hb in Ht. rewrite Ht.
    destruct (update_keeps_identity i
                (mkPatch None (Some (trim titleValue)) (Some dateValue)
                         None None None) false s eq_refl eq_refl)
      as [Hid _].
    now rewrite Hid.
  - unfold exec. rewrite deleteTask_run. simpl.
    apply (Permutation_NoDup
             (Permutation_sym
                (same_tasks_same_ids _ _ (reindex_same_tasks _)))).
    now apply NoDup_ids_filter.
  - destruct (dragend_run ids s) as (_ & Ht & _).
    now rewrite Ht, assignOrders_ids.
Qed.

End EventsAndIdentity.

(** X12, witness: the Ex.session, from a storage that holds the collection. *)
Lemma X12_storage_follows_witness :
  inSync (host := Ref.host)
    (Ex.app Ex.gap "manual" (Some (Ref.stringify (tasksJSON Ex.gap)))) /\
  inSync (host := Ref.host)
    (run (host := Ref.host) Ex.session
       (Ex.app Ex.gap "manual" (Some (Ref.stringify (tasksJSON Ex.gap))))).
Proof.
  assert (H : inSync (host := Ref.host)
                (Ex.app Ex.gap "manual"
                        (Some (Ref.stringify (tasksJSON Ex.gap)))))
    by reflexivity.
  split; [exact H|].
  exact (proj2 (X12_storage_follows_the_collection (host := Ref.host))
           Ex.session _ H).
Defined.

(** X13, witness: the titles after the Ex.session. *)
Lemma X13_titles_witness :
  titlesKept Ex.gap /\
  map title (tasks (run (host := Ref.host) Ex.session
                        (Ex.app Ex.gap "manual" None)))
  = ["Call home"; "Water the plants"] /\
  titlesKept (tasks (run (host := Ref.host) Ex.session
                         (Ex.app Ex.gap "manual" None))).
Proof.
  assert (H : titlesKept (tasks (Ex.app Ex.gap "manual" None))).
  { repeat constructor; discriminate. }
  split; [exact H|]. split; [vm_compute; reflexivity|].
  exact (X13_titles_stay_trimmed_and_not_empty (host := Ref.host)
           Ex.session _ H).
Defined.

(** X15, witness: a deletion among three tasks. *)
Lemma X15_unique_ids_witness :
  NoDup (map id Ex.gapDone) /\
  NoDup (map id (tasks (exec (handle (host := Ref.host) (DeleteClick "b"))
                             (Ex.app Ex.gapDone "manual" None)))).
Proof.
  assert (H : NoDup (map id (tasks (Ex.app Ex.gapDone "manual" None)))).
  { simpl. repeat constructor; simpl; intuition discriminate. }
  split; [exact H|].
  apply (X15_unique_ids_are_kept (host := Ref.host) (DeleteClick "b")
           (Ex.app Ex.gapDone "manual" None) H).
  intros titleValue dateValue E. discriminate.
Defined.


(* ================================================================= *)
(** ** What loading returns and touches *)

Lemma digits36_nonempty (fuel : nat) (n : N) (acc : string) :
  acc <> "" -> digits36 fuel n acc <> "".
Proof.
  revert n acc. induction fuel as [|fuel IH]; intros n acc H; simpl;
    [exact H|].
  destruct (n / 36 =? 0)%N; [discriminate|]. apply IH. discriminate.
Qed.

Lemma toString36_nonempty (n : Z) : toString36 n <> "".
Proof.
  unfold toString36. cbv zeta.
  set (m := Z.to_N (Z.abs n)).
  assert (H : digits36 (S (N.to_nat (N.log2 m))) m "" <> "").
  { simpl. destruct (m / 36 =? 0)%N; [discriminate|].
    apply digits36_nonempty. discriminate. }
  destruct (n <? 0); [discriminate|exact H].
Qed.

Lemma append_nonempty (a b : string) : b <> "" -> a ++ b <> "".
Proof. destruct a; simpl; [trivial|discriminate]. Qed.

Section Loaded.
Context {host : Host}.

Lemma normalize_usable (t : JSON) (i : nat) (s s' : App) (r : Loaded.t) :
  normalize t i s = (Ok r, s') -> usable r.
Proof.
  destruct (JSON_eq_null t) as [->|Ht]; [discriminate|].
  rewrite (normalize_nonnull t i s Ht). cbv zeta.
  destruct (ToString (orElse (prop t "title") (JStr ""))) as [text|];
    [|discriminate].
  intros H. injection H as <- _. unfold usable.
  cbn [Loaded.id Loaded.title].
  split; [|apply trim_twice].
  destruct (truthy (prop t "id")) eqn:E.
  - rewrite (orElse_truthy _ JNull E). exact E.
  - cbn [truthy]. apply negb_true_iff, String.eqb_neq.
    apply append_nonempty, toString36_nonempty.
Qed.

Lemma load_items_usable (items : list JSON) (k : nat) (s s' : App)
  (rs : list Loaded.t) :
  mapiM_from k normalize items s = (Ok rs, s') -> Forall usable rs.
Proof.
  revert k s s' rs. induction items as [|t items IH]; intros k s s' rs; simpl.
  - intros H. injection H as <- _. constructor.
  - unfold bind.
    destruct (normalize t k s) as [[r|] s1] eqn:E1; [|discriminate].
    destruct (mapiM_from (S k) normalize items s1) as [[rs'|] s2] eqn:E2;
      [|discriminate].
    simpl. intros H. injection H as <- _.
    constructor; [now apply (normalize_usable t k s s1)|].
    now apply (IH (S k) s1 s2).
Qed.

(** X16. Every record [loadTasks] returns has an id that is truthy, so
    that saving and loading again keeps it, and a title without white
    space at either end. *)
Theorem X16_loaded_records_are_usable (s : App) :
  exists rs, fst (loadTasks s) = Ok rs /\ Forall usable rs.
Proof.
  rewrite loadTasks_run.
  destruct (storage s) as [text|]; [|now exists []].
  destruct (String.eqb text ""); [now exists []|].
  destruct (JSON_parse text) as [[]|]; try (now exists []).
  destruct (mapiM_from 0 normalize items s) as [[rs|] s'] eqn:E;
    [|now exists []].
  exists rs. split; [reflexivity|]. now apply (load_items_usable items 0 s s').
Qed.

Lemma normalize_advances (t : JSON) (i : nat) (s : App) :
  advances s (snd (normalize t i s)).
Proof.
  destruct (JSON_eq_null t) as [->|Ht]; [apply advances_refl|].
  rewrite (normalize_nonnull t i s Ht). cbv zeta.
  destruct (truthy (prop t "id"));
    destruct (ToString (orElse (prop t "title") (JStr "")));
    destruct (truthy (prop t "createdAt"));
    unfold advances; simpl; repeat split; auto.
Qed.

Lemma load_items_advances (items : list JSON) (k : nat) (s : App) :
  advances s (snd (mapiM_from k normalize items s)).
Proof.
  revert k s. induction items as [|t items IH]; intros k s; simpl;
    [apply advances_refl|].
  unfold bind. pose proof (normalize_advances t k s) as H1.
  destruct (normalize t k s) as [[r|] s1]; simpl in *; [|exact H1].
  pose proof (IH (S k) s1) as H2.
  destruct (mapiM_from (S k) normalize items s1) as [[rs|] s2]; simpl in *;
    eapply advances_trans; eauto.
Qed.

(** X17. [loadTasks] writes nothing: whatever the storage holds, also
    when a record makes it give up, the storage, the collection, the view
    state and the page are as before; only random numbers and clock
    readings have been drawn. *)
Theorem X17_loadTasks_only_draws (s : App) :
  advances s (exec loadTasks s).
Proof.
  unfold exec. rewrite loadTasks_run.
  destruct (storage s) as [text|]; [|apply advances_refl].
  destruct (String.eqb text ""); [apply advances_refl|].
  destruct (JSON_parse text) as [[]|]; try apply advances_refl.
  pose proof (load_items_advances items 0 s) as H.
  destruct (mapiM_from 0 normalize items s) as [[rs|] s']; exact H.
Qed.

End Loaded.

(* ================================================================= *)
(** ** Two updates in a row *)

Lemma spread_twice (t : Task) (p q : Patch) :
  spread (spread t p) q = spread t (patchThen p q).
Proof.
  unfold spread, patchThen. simpl.
  destruct (p_id q), (p_title q), (p_due q), (p_completed q),
    (p_createdAt q), (p_order q); reflexivity.
Qed.

Lemma first_of_id_split (i : string) (f1 f2 b1 b2 : list Task) (t1 t2 : Task) :
  (f1 ++ t1 :: b1 = f2 ++ t2 :: b2)%list ->
  id t1 = i -> id t2 = i ->
  ~ In i (map id f1) -> ~ In i (map id f2) ->
  f1 = f2 /\ t1 = t2 /\ b1 = b2.
Proof.
  revert f2. induction f1 as [|x f1 IH]; intros f2 E H1 H2 N1 N2.
  - destruct f2 as [|y f2]; simpl in E.
    + injection E as -> ->. auto.
    + injection E as -> _. exfalso. apply N2. simpl. now left.
  - destruct f2 as [|y f2]; simpl in E.
    + injection E as -> _. exfalso. apply N1. simpl. now left.
    + injection E as -> E.
      destruct (IH f2 E H1 H2) as (-> & -> & ->); auto.
      * intros H. apply N1. now right.
      * intros H. apply N2. now right.
Qed.

Section TwoUpdates.
Context {host : Host}.

(** X18. Two updates of the same task in a row amount to one update
    with the fields of the second patch laid over those of the first
    (when the first patch keeps the id): the collection and the storage
    are the same. So a checkbox changed twice leaves the last value. *)
Theorem X18_two_updates_are_one (s : App) (i : string) (p q : Patch)
  (r1 r2 r : bool) :
  p_id p = None ->
  let two := exec (updateTask i q r2) (exec (updateTask i p r1) s) in
  let one := exec (updateTask i (patchThen p q) r) s in
  tasks two = tasks one /\ storage two = storage one.
Proof.
  intros Hid two one. subst two one. unfold exec.
  destruct (in_dec string_dec i (map id (tasks s))) as [Hin|Hout].
  - destruct (updateTask_present i p r1 s Hin)
      as (front & t & back & Hsplit & Ht & Hfront & E1).
    destruct (updateTask_present i (patchThen p q) r s Hin)
      as (front' & t' & back' & Hsplit' & Ht' & Hfront' & E).
    rewrite Hsplit in Hsplit'.
    destruct (first_of_id_split i _ _ _ _ _ _ Hsplit' Ht Ht' Hfront Hfront')
      as (<- & <- & <-).
    rewrite E1, E. cbv zeta. cbn [snd].
    set (s1 := mkApp (front ++ spread t p :: back)%list _ _ _ _ _ _ _).
    assert (Hid1 : id (spread t p) = i).
    { unfold spread. simpl. now rewrite Hid. }
    assert (Hin1 : In i (map id (tasks s1))).
    { subst s1. simpl. rewrite map_app. apply in_or_app. right.
      simpl. now left. }
    destruct (updateTask_present i q r2 s1 Hin1)
      as (f2 & t2 & b2 & Hsplit2 & Ht2 & Hf2 & E2).
    subst s1. simpl in Hsplit2.
    destruct (first_of_id_split i _ _ _ _ _ _ Hsplit2 Hid1 Ht2 Hfront Hf2)
      as (<- & <- & <-).
    rewrite E2. cbv zeta. cbn [snd tasks storage].
    now rewrite spread_twice.
  - rewrite (updateTask_absent i p r1 s Hout). cbn [snd].
    now rewrite (updateTask_absent i q r2 s Hout),
      (updateTask_absent i (patchThen p q) r s Hout).
Qed.

End TwoUpdates.

(** X18, witness: the checkbox of a task set, then cleared. *)
Lemma X18_two_updates_witness :
  map completed
    (tasks (exec (checkbox_change (host := Ref.host) "a" false)
              (exec (checkbox_change (host := Ref.host) "a" true)
                    (Ex.app Ex.gap "manual" None))))
  = [false; false] /\
  tasks (exec (checkbox_change (host := Ref.host) "a" false)
           (exec (checkbox_change (host := Ref.host) "a" true)
                 (Ex.app Ex.gap "manual" None)))
  = tasks (exec (checkbox_change (host := Ref.host) "a" false)
                (Ex.app Ex.gap "manual" None)).
Proof.
  split; [reflexivity|].
  exact (proj1 (X18_two_updates_are_one (host := Ref.host)
                  (Ex.app Ex.gap "manual" None) "a"
                  (mkPatch None None None (Some true) None None)
                  (mkPatch None None None (Some false) None None)
                  true true true eq_refl)).
Defined.


(* ================================================================= *)
(** ** When two ids can coincide *)

Lemma digit36_value (d : N) : (d < 36)%N -> digitValue36 (digit36 d) = d.
Proof.
  intros H. unfold digit36, digitValue36. cbv zeta.
  destruct (d <? 10)%N eqn:E.
  - apply N.ltb_lt in E. rewrite N_ascii_embedding by lia.
    assert (E' : (48 + d <? 58)%N = true) by (apply N.ltb_lt; lia).
    rewrite E'. lia.
  - apply N.ltb_ge in E. rewrite N_ascii_embedding by lia.
    assert (E' : (87 + d <? 58)%N = false) by (apply N.ltb_ge; lia).
    rewrite E'. lia.
Qed.

Lemma digits36_value (fuel : nat) (n : N) (tail : string) :
  (n < 36 ^ N.of_nat fuel)%N ->
  exists k, forall acc,
    value36 acc (digits36 fuel n tail) = value36 (acc * 36 ^ k + n) tail.
Proof.
  revert n tail. induction fuel as [|fuel IH]; intros n tail Hn.
  - simpl in Hn. exists 0%N. intros acc. simpl.
    replace n with 0%N by lia. f_equal. lia.
  - simpl digits36. cbv zeta.
    assert (Hmod : (n mod 36 < 36)%N) by (apply N.mod_lt; lia).
    destruct (n / 36 =? 0)%N eqn:E.
    + apply N.eqb_eq in E. exists 1%N. intros acc. simpl.
      rewrite digit36_value by exact Hmod. f_equal.
      pose proof (N.div_mod n 36 ltac:(lia)). lia.
    + destruct (IH (n / 36)%N (String (digit36 (n mod 36)) tail)) as [k Hk].
      { apply N.Div0.div_lt_upper_bound.
        rewrite Nat2N.inj_succ, N.pow_succ_r' in Hn. exact Hn. }
      exists (N.succ k). intros acc. rewrite Hk. simpl.
      rewrite digit36_value by exact Hmod. f_equal.
      rewrite N.pow_succ_r'.
      pose proof (N.div_mod n 36 ltac:(lia)). lia.
Qed.

Lemma enough_digits (m : N) : (m < 36 ^ N.of_nat (S (N.to_nat (N.log2 m))))%N.
Proof.
  rewrite Nat2N.inj_succ, N2Nat.id.
  destruct (N.eq_dec m 0) as [->|Hm].
  - simpl. lia.
  - apply N.lt_le_trans with (m := (2 ^ N.succ (N.log2 m))%N).
    + apply N.log2_spec. lia.
    + apply N.pow_le_mono_l. lia.
Qed.

(** [toString36] writes a number that is not negative so that it can be
    read back. *)
Lemma toString36_value (n : Z) :
  0 <= n -> value36 0 (toString36 n) = Z.to_N n.
Proof.
  intros Hn. unfold toString36. cbv zeta.
  assert (E : (n <? 0) = false) by (apply Z.ltb_ge; lia). rewrite E.
  rewrite Z.abs_eq by exact Hn.
  destruct (digits36_value _ (Z.to_N n) "" (enough_digits (Z.to_N n)))
    as [k Hk].
  rewrite Hk. simpl. lia.
Qed.

Lemma append_same_length (a b x y : string) :
  String.length a = String.length b -> a ++ x = b ++ y -> a = b /\ x = y.
Proof.
  revert b. induction a as [|c a IH]; intros b Hlen E; destruct b as [|d b];
    simpl in *; try discriminate; [now split|].
  injection E as -> E. injection Hlen as Hlen.
  destruct (IH b Hlen E) as [-> ->]. now split.
Qed.

Section Ids.
Context {host : Host}.

(** X19. Two calls of [uid] whose random parts have the same number of
    digits, at clock readings that are not negative, return the same id
    only when they drew the same digits at the same clock reading. *)
Theorem X19_uid_tells_draws_apart (s1 s2 : App) :
  0 <= clock s1 (ticks s1) -> 0 <= clock s2 (ticks s2) ->
  String.length (slice 2 (random36 s1 (randoms s1)))
  = String.length (slice 2 (random36 s2 (randoms s2))) ->
  fst (uid s1) = fst (uid s2) ->
  slice 2 (random36 s1 (randoms s1)) = slice 2 (random36 s2 (randoms s2))
  /\ clock s1 (ticks s1) = clock s2 (ticks s2).
Proof.
  intros H1 H2 Hlen E.
  unfold uid, bind, Math_random_toString36, Date_now, ret in E. simpl in E.
  injection E as E.
  destruct (append_same_length _ _ _ _ Hlen E) as [Hr Ht].
  split; [exact Hr|].
  apply (f_equal (value36 0)) in Ht.
  rewrite !toString36_value in Ht by assumption. lia.
Qed.


End Ids.

(** X19, witness: two states that draw the same digits at the same clock
    reading. *)
Lemma X19_uid_witness :
  fst (uid (Ex.app [] "manual" None))
  = fst (uid (Ex.app Ex.gap "dueAsc" None)) /\
  clock (Ex.app [] "manual" None) (ticks (Ex.app [] "manual" None))
  = clock (Ex.app Ex.gap "dueAsc" None)
          (ticks (Ex.app Ex.gap "dueAsc" None)).
Proof.
  assert (E : fst (uid (Ex.app [] "manual" None))
              = fst (uid (Ex.app Ex.gap "dueAsc" None))) by reflexivity.
  split; [exact E|].
  exact (proj2 (X19_uid_tells_draws_apart
                  (Ex.app [] "manual" None) (Ex.app Ex.gap "dueAsc" None)
                  ltac:(vm_compute; discriminate)
                  ltac:(vm_compute; discriminate) eq_refl E)).
Defined.

(** X14, witness: the third task of three after its edit is saved. *)
Lemma X14_id_and_creation_date_witness :
  In (mkTask "c" "Call home" "" false Ex.created 2)
     (tasks (exec (handle (host := Ref.host) (SaveClick "c" " Call home " ""))
                  (Ex.app Ex.gapDone "manual" None))) /\
  ((exists t, In t (tasks (Ex.app Ex.gapDone "manual" None)) /\
              id (mkTask "c" "Call home" "" false Ex.created 2) = id t /\
              createdAt (mkTask "c" "Call home" "" false Ex.created 2)
              = createdAt t)
   \/ (exists titleValue dateValue,
          SaveClick "c" " Call home " "" = AddClick titleValue dateValue /\
          mkTask "c" "Call home" "" false Ex.created 2
          = newTask (host := Ref.host) (trim titleValue) dateValue
              (Ex.app Ex.gapDone "manual" None))).
Proof.
  assert (Hin : In (mkTask "c" "Call home" "" false Ex.created 2)
                   (tasks (exec (handle (host := Ref.host)
                                   (SaveClick "c" " Call home " ""))
                                (Ex.app Ex.gapDone "manual" None)))).
  { vm_compute. right. right. left. reflexivity. }
  split; [exact Hin|].
  exact (X14_id_and_creation_date_are_kept (host := Ref.host)
           (SaveClick "c" " Call home " "")
           (Ex.app Ex.gapDone "manual" None)
           (mkTask "c" "Call home" "" false Ex.created 2) Hin).
Defined.

Lemma filter_drops_last (i : string) (ts : list Task) (t : Task) :
  ~ In i (map id ts) -> id t = i ->
  List.filter (fun x => negb (String.eqb (id x) i)) (ts ++ [t])%list = ts.
Proof.
  intros Hi Ht. rewrite filter_app. simpl.
  rewrite Ht, String.eqb_refl. simpl. rewrite app_nil_r.
  now apply filter_keeps_all.
Qed.

Section AddThenDelete.
Context {host : Host}.

(** X21. Deleting the task just added undoes the addition: on a
    collection numbered 0, ..., N-1 in sequence, when the id drawn is not
    in use, [addTask] followed by [deleteTask] of the new id leaves every
    task as it was. *)
Theorem X21_delete_undoes_add (s : App) (title0 due0 : string) :
  numbered (tasks s) ->
  ~ In (id (newTask title0 due0 s)) (map id (tasks s)) ->
  tasks (exec (deleteTask (id (newTask title0 due0 s)))
              (exec (addTask title0 due0) s))
  = tasks s.
Proof.
  intros Hnum Hfresh. unfold exec. rewrite addTask_run. cbv zeta. cbn [snd].
  rewrite deleteTask_run. cbv zeta. cbn [snd tasks].
  rewrite (filter_drops_last _ (tasks s) _ Hfresh eq_refl).
  now apply reindex_fixed.
Qed.

End AddThenDelete.

(** X21, witness: a task added to the three tasks of the sort example,
    then deleted. *)
Lemma X21_delete_undoes_add_witness :
  numbered [Ex.t10; Ex.tNone; Ex.t05] /\
  id (newTask (host := Ref.host) "D" ""
        (Ex.app [Ex.t10; Ex.tNone; Ex.t05] "manual" None))
  = "4fzyo82mvyrlr70kqrf" /\
  tasks (exec (deleteTask (host := Ref.host) "4fzyo82mvyrlr70kqrf")
           (exec (addTask (host := Ref.host) "D" "")
                 (Ex.app [Ex.t10; Ex.tNone; Ex.t05] "manual" None)))
  = [Ex.t10; Ex.tNone; Ex.t05].
Proof.
  assert (Hn : numbered
                 (tasks (Ex.app [Ex.t10; Ex.tNone; Ex.t05] "manual" None)))
    by reflexivity.
  split; [exact Hn|]. split; [vm_compute; reflexivity|].
  apply (X21_delete_undoes_add (host := Ref.host)
           (Ex.app [Ex.t10; Ex.tNone; Ex.t05] "manual" None) "D" "" Hn).
  vm_compute. intros [H|[H|[H|[]]]]; discriminate.
Defined.


(* ================================================================= *)
(** ** Ids and creation dates that are not empty *)

Lemma identified_stems (l1 l2 : list Task) :
  (forall t', In t' l1 ->
     exists t, In t l2 /\ id t' = id t /\ createdAt t' = createdAt t) ->
  identified l2 -> identified l1.
Proof.
  unfold identified. intros H H2. rewrite Forall_forall in *.
  intros t' Ht'. destruct (H t' Ht') as (t & Ht & -> & ->). now apply H2.
Qed.

Lemma same_ids_same_length (l1 l2 : list Task) :
  map id l1 = map id l2 -> List.length l1 = List.length l2.
Proof. intros H. rewrite <- (length_map id l1), H. apply length_map. Qed.

Section Identified.
Context {host : Host}.
Hypothesis dated : forall ms, Date_toISOString ms <> "".

Lemma update_keeps_identified (i : string) (p : Patch) (r : bool) (s : App) :
  p_id p = None -> p_createdAt p = None ->
  identified (tasks s) -> identified (tasks (exec (updateTask i p r) s)).
Proof.
  intros Hi Hc. destruct (update_keeps_identity i p r s Hi Hc) as [Hid Hcr].
  apply identified_stems.
  exact (identity_in_maps _ _ (same_ids_same_length _ _ Hid) Hid Hcr).
Qed.

Lemma handle_keeps_identified (e : Event) (s : App) :
  identified (tasks s) -> identified (tasks (exec (handle e) s)).
Proof.
  intros H. destruct e; cbn [handle]; try exact H.
  - unfold addBtn_click.
    destruct (String.eqb (trim titleValue) ""); [exact H|].
    unfold exec. rewrite addTask_run. cbv zeta. cbn [snd tasks].
    apply Forall_app. split; [exact H|].
    constructor; [|constructor]. unfold newTask. cbn [id createdAt].
    split; [apply append_nonempty, toString36_nonempty|apply dated].
  - unfold exec. rewrite clearAllBtn_click_run.
    destruct (existsb (fun t => completed t) (tasks s)); [|exact H].
    cbv zeta. cbn [snd tasks]. revert H. apply identified_stems.
    intros t' Ht'.
    destruct (stems_from_same_tasks _ _
                (fun x => Permutation_in x (reindex_same_tasks _)) t' Ht')
      as [t [Ht Heq]].
    exists t. apply filter_In in Ht. tauto.
  - now apply update_keeps_identified.
  - unfold save_click.
    destruct (String.eqb_spec (trim titleValue) "") as [Hb|Hb]; [exact H|].
    destruct (save_click_state i titleValue dateValue s Hb) as [Ht _].
    unfold save_click in Ht. apply String.eqb_neq in Hb.
    rewrite Hb in Ht. rewrite Ht. now apply update_keeps_identified.
  - unfold exec. rewrite deleteTask_run. cbv zeta. cbn [snd tasks].
    revert H. apply identified_stems. intros t' Ht'.
    destruct (stems_from_same_tasks _ _
                (fun x => Permutation_in x (reindex_same_tasks _)) t' Ht')
      as [t [Ht Heq]].
    exists t. apply filter_In in Ht. tauto.
  - destruct (dragend_run ids s) as (_ & Ht & _). rewrite Ht.
    revert H. apply identified_stems.
    apply (stems_from_same_tasks (assignOrders 0 ids (tasks s))).
    intros x. now rewrite assignOrders_same_tasks.
Qed.

(** X22. No event leaves a task without id or without creation date:
    when every id and every creation date of the collection is a string
    that is not empty, so is every one after any sequence of events, the
    host printing no date as the empty string. With X13 and X15, what the
    round trip through the storage asks of a collection is kept by the
    program. *)
Theorem X22_ids_and_dates_stay_present (events : list Event) (s : App) :
  identified (tasks s) -> identified (tasks (run events s)).
Proof.
  revert s. induction events as [|e events IH]; intros s H; simpl;
    [exact H|].
  now apply IH, handle_keeps_identified.
Qed.

End Identified.

Lemma Ref_toISOString_nonempty (ms : Z) : Ref.toISOString ms <> "".
Proof.
  unfold Ref.toISOString.
  destruct (Ref.civilFromDays (ms / 86400000)) as [[y m] d].
  apply append_nonempty. discriminate.
Qed.

(** X22, witness: the session of five events on two tasks. *)
Lemma X22_ids_and_dates_witness :
  identified Ex.gap /\
  identified (tasks (run (host := Ref.host) Ex.session
                         (Ex.app Ex.gap "manual" None))).
Proof.
  assert (H : identified (tasks (Ex.app Ex.gap "manual" None))).
  { repeat constructor; discriminate. }
  split; [exact H|].
  exact (X22_ids_and_dates_stay_present (host := Ref.host)
           Ref_toISOString_nonempty Ex.session _ H).
Defined.
